(** * starlette-admin, Tortoise ORM contrib: a shallow embedding

The repository ships two generations of the adapter:
[starlette_admin/contrib/tortoise] and
[starlette_admin/contrib/tortoise_admin].  Both are embedded here, each in
a module of its own, with the names the Python source uses.

Python strings are modelled over the code points 0..255 (Rocq's [string]);
[str.lower], [str.isspace] and [repr] are written out as Python defines
them on that range. *)

From Stdlib Require Import ZArith Ascii String List Bool Lia DecimalString.
From stdpp Require Import base option list strings gmap.

Local Open Scope string_scope.
Local Open Scope list_scope.
Local Set Warnings "-register-all".

(** ** Python values *)

(** The values that reach the adapter: [None], booleans, integers, strings,
    lists, tuples, and opaque objects (a UUID, a model instance, ...) known
    by their class name and by what [str] and [repr] print for them.  Opaque
    objects are neither strings nor sequences, are truthy and not iterable. *)
Inductive pyval : Type :=
| PNone
| PBool (b : bool)
| PInt (z : Z)
| PStr (s : string)
| PObj (cls : string) (shown : string) (quoted : string)
| PList (l : list pyval)
| PTuple (l : list pyval).

(** [type(v).__name__] *)
Definition type_name (v : pyval) : string :=
  match v with
  | PNone => "NoneType"
  | PBool _ => "bool"
  | PInt _ => "int"
  | PStr _ => "str"
  | PObj cls _ _ => cls
  | PList _ => "list"
  | PTuple _ => "tuple"
  end.

(** [isinstance(v, str)] and [isinstance(v, tuple)] *)
Definition is_str (v : pyval) : bool := match v with PStr _ => true | _ => false end.
Definition is_tuple (v : pyval) : bool := match v with PTuple _ => true | _ => false end.

(** [not l], for a list. *)
Definition is_nil {A : Type} (l : list A) : bool := match l with [] => true | _ => false end.

(** [bool(v)]: the truth value Python gives to [v]. *)
Definition py_truthy (v : pyval) : bool :=
  match v with
  | PNone => false
  | PBool b => b
  | PInt z => negb (Z.eqb z 0)
  | PStr s => negb (String.eqb s "")
  | PObj _ _ _ => true
  | PList l | PTuple l => match l with [] => false | _ => true end
  end.

(** *** Strings *)

Definition char_in (c : ascii) (s : string) : bool :=
  existsb (Ascii.eqb c) (list_ascii_of_string s).

(** [sep.join(parts)] *)
Fixpoint py_join (sep : string) (parts : list string) : string :=
  match parts with
  | [] => ""
  | [p] => p
  | p :: ps => p +:+ sep +:+ py_join sep ps
  end.

(** [s.split(sep)] for a one-character separator: never the empty list. *)
Fixpoint py_split (sep : ascii) (s : string) : list string :=
  match s with
  | EmptyString => [EmptyString]
  | String c s' =>
      if Ascii.eqb c sep then EmptyString :: py_split sep s'
      else match py_split sep s' with
           | [] => [String c EmptyString]
           | p :: ps => String c p :: ps
           end
  end.

Definition nonempty (s : string) : bool := negb (String.eqb s "").

(** [c.isspace()] on the code points below 256. *)
Definition py_isspace (c : ascii) : bool :=
  let n := N_of_ascii c in
  ((9 <=? n)%N && (n <=? 13)%N) || ((28 <=? n)%N && (n <=? 32)%N)
  || (n =? 133)%N || (n =? 160)%N.

(** [s.lstrip()], [s.rstrip()] and [s.strip()] with no argument. *)
Fixpoint py_lstrip (s : string) : string :=
  match s with
  | EmptyString => EmptyString
  | String c s' => if py_isspace c then py_lstrip s' else s
  end.

Fixpoint py_rstrip (s : string) : string :=
  match s with
  | EmptyString => EmptyString
  | String c s' =>
      match py_rstrip s' with
      | EmptyString => if py_isspace c then EmptyString else String c EmptyString
      | r => String c r
      end
  end.

Definition py_strip (s : string) : string := py_rstrip (py_lstrip s).

(** The longest prefix without whitespace, and what follows it. *)
Fixpoint take_token (s : string) : string * string :=
  match s with
  | EmptyString => (EmptyString, EmptyString)
  | String c s' =>
      if py_isspace c then (EmptyString, s)
      else let (tok, rest) := take_token s' in (String c tok, rest)
  end.

(** [s.split(maxsplit=1)]: whitespace is skipped, the first token is cut,
    whitespace is skipped again and whatever is left, if anything, is the
    second part, copied to the end of the string. *)
Definition py_split_ws_max1 (s : string) : list string :=
  match py_lstrip s with
  | EmptyString => []
  | s1 =>
      let (tok, rest) := take_token s1 in
      match py_lstrip rest with
      | EmptyString => [tok]
      | rest' => [tok; rest']
      end
  end.

(** [c.lower()] on the code points below 256. *)
Definition lower_char (c : ascii) : ascii :=
  let n := N_of_ascii c in
  if ((65 <=? n)%N && (n <=? 90)%N)
     || ((192 <=? n)%N && (n <=? 222)%N && negb (n =? 215)%N)
  then ascii_of_N (n + 32) else c.

Fixpoint py_lower (s : string) : string :=
  match s with
  | EmptyString => EmptyString
  | String c s' => String (lower_char c) (py_lower s')
  end.

(** [t in s] for strings. *)
Fixpoint py_contains (t s : string) : bool :=
  String.prefix t s
  || match s with
     | EmptyString => false
     | String _ s' => py_contains t s'
     end.

(** [str(z)] for an integer. *)
Definition str_of_Z (z : Z) : string := NilZero.string_of_int (Z.to_int z).

Definition hex_digit (n : N) : ascii :=
  if (n <? 10)%N then ascii_of_N (48 + n) else ascii_of_N (87 + n).

Definition quote1 : ascii := ascii_of_nat 39.
Definition quote2 : ascii := ascii_of_nat 34.
Definition backslash : ascii := ascii_of_nat 92.

(** [repr] of one character inside a string literal closed by [q]. *)
Definition repr_char (q c : ascii) : string :=
  let n := N_of_ascii c in
  if Ascii.eqb c q || Ascii.eqb c backslash then String backslash (String c "")
  else if (n =? 9)%N then String backslash "t"
  else if (n =? 10)%N then String backslash "n"
  else if (n =? 13)%N then String backslash "r"
  else if (n <? 32)%N || ((127 <=? n)%N && (n <=? 160)%N) || (n =? 173)%N
       then String backslash
              (String "x" (String (hex_digit (n / 16)) (String (hex_digit (n mod 16)) "")))
  else String c "".

Fixpoint repr_chars (q : ascii) (s : string) : string :=
  match s with
  | EmptyString => ""
  | String c s' => repr_char q c +:+ repr_chars q s'
  end.

(** [repr(s)] for a string: single quotes, unless the string holds a single
    quote and no double quote. *)
Definition repr_str (s : string) : string :=
  let q := if char_in quote1 s && negb (char_in quote2 s) then quote2 else quote1 in
  String q (repr_chars q s +:+ String q "").

(** [repr(v)] *)
Fixpoint py_repr (v : pyval) : string :=
  match v with
  | PNone => "None"
  | PBool true => "True"
  | PBool false => "False"
  | PInt z => str_of_Z z
  | PStr s => repr_str s
  | PObj _ _ quoted => quoted
  | PList l => "[" +:+ py_join ", " (map py_repr l) +:+ "]"
  | PTuple [x] => "(" +:+ py_repr x +:+ ",)"
  | PTuple l => "(" +:+ py_join ", " (map py_repr l) +:+ ")"
  end.

(** [str(v)] *)
Definition py_str (v : pyval) : string :=
  match v with
  | PStr s => s
  | PObj _ shown _ => shown
  | _ => py_repr v
  end.

(** ** Exceptions and results *)

(** A field-to-message mapping, in insertion order. *)
Definition errors_dict : Type := list (string * string).

(** The exceptions of the model.  [SystemSignal] stands for the classes that
    derive from [BaseException] but not from [Exception] (cancellation,
    keyboard interrupt, interpreter exit): an [except Exception] clause does
    not catch them. *)
Inductive exn : Type :=
| ValueError (msg : string)
| TypeError (msg : string)
| KeyError (key : string)
| FormValidationError (errors : errors_dict)
| ValidationError (msg : string) (errors : errors_dict)
| NotSupportedColumn (msg : string)
| ActionFailed (msg : string)
| OtherException (cls : string) (msg : string)
| SystemSignal (cls : string) (msg : string).

(** [isinstance(e, Exception)] *)
Definition is_Exception (e : exn) : bool :=
  match e with
  | SystemSignal _ _ => false
  | _ => true
  end.

(** [isinstance(e, tortoise.exceptions.ValidationError)] *)
Definition is_ValidationError (e : exn) : bool :=
  match e with
  | ValidationError _ _ => true
  | _ => false
  end.

Definition repr_item (kv : string * string) : string :=
  repr_str kv.1 +:+ ": " +:+ repr_str kv.2.

(** [str(e)]: the single constructor argument as [str] prints it. *)
Definition exn_str (e : exn) : string :=
  match e with
  | ValueError msg | TypeError msg | NotSupportedColumn msg | ActionFailed msg => msg
  | KeyError key => repr_str key
  | FormValidationError errors => "{" +:+ py_join ", " (map repr_item errors) +:+ "}"
  | ValidationError msg _ => msg
  | OtherException _ msg | SystemSignal _ msg => msg
  end.

Inductive res (A : Type) : Type :=
| Ok (a : A)
| Raise (e : exn).
Arguments Ok {A} a.
Arguments Raise {A} e.

Definition res_bind {A B : Type} (r : res A) (k : A -> res B) : res B :=
  match r with
  | Ok a => k a
  | Raise e => Raise e
  end.

(** A [for] loop that builds a list with [append] and stops at the first
    [raise]. *)
Fixpoint res_map {A B : Type} (f : A -> res B) (l : list A) : res (list B) :=
  match l with
  | [] => Ok []
  | x :: xs =>
      res_bind (f x) (fun y => res_bind (res_map f xs) (fun ys => Ok (y :: ys)))
  end.

(** ** Effects: a world threaded through, and exceptions *)

(** A computation reads and changes a world of type [W] and either returns
    or raises. *)
Definition M (W A : Type) : Type := W -> res A * W.

Definition ret {W A : Type} (a : A) : M W A := fun w => (Ok a, w).

Definition raise {W A : Type} (e : exn) : M W A := fun w => (Raise e, w).

Definition bind {W A B : Type} (m : M W A) (k : A -> M W B) : M W B :=
  fun w =>
    match m w with
    | (Ok a, w') => k a w'
    | (Raise e, w') => (Raise e, w')
    end.

(** A pure result, run as a computation. *)
Definition lift {W A : Type} (r : res A) : M W A := fun w => (r, w).

(** [try: m  except Exception as e: h e]: only the instances of [Exception]
    are caught. *)
Definition try_except {W A : Type} (m : M W A) (h : exn -> M W A) : M W A :=
  fun w =>
    match m w with
    | (Ok a, w') => (Ok a, w')
    | (Raise e, w') => if is_Exception e then h e w' else (Raise e, w')
    end.

(** [try: m  except ValidationError as e: h e] *)
Definition try_except_validation {W A : Type} (m : M W A) (h : exn -> M W A) : M W A :=
  fun w =>
    match m w with
    | (Ok a, w') => (Ok a, w')
    | (Raise e, w') => if is_ValidationError e then h e w' else (Raise e, w')
    end.

Declare Scope py_scope.
Delimit Scope py_scope with py.
Notation "x <- m ;; k" := (bind m (fun x => k))
  (at level 100, m at next level, right associativity) : py_scope.
Notation "m ;;; k" := (bind m (fun _ => k))
  (at level 100, right associativity) : py_scope.

(** [for x in l: body x] *)
Fixpoint for_each {W A : Type} (body : A -> M W unit) (l : list A) : M W unit :=
  match l with
  | [] => ret tt
  | x :: xs => bind (body x) (fun _ => for_each body xs)
  end.

(** A loop that carries an accumulator. *)
Fixpoint for_fold {W A S : Type} (body : S -> A -> M W S) (l : list A) (acc : S) : M W S :=
  match l with
  | [] => ret acc
  | x :: xs => bind (body acc x) (fun acc' => for_fold body xs acc')
  end.

(** ** Query predicates *)

(** The ORM's [Q] node as its constructor fills it: the child nodes given
    positionally, the join type (AND when not given) and the keyword
    filters. *)
Inductive join_type : Type := AND | OR.

Inductive Q : Type :=
| MkQ (children : list Q) (join : join_type) (filters : list (string * pyval)).

(** [Q()] *)
Definition Q_empty : Q := MkQ [] AND [].

(** A node with the one keyword filter [key=value]. *)
Definition Q_filter (key : string) (value : pyval) : Q := MkQ [] AND [(key, value)].

(** A node with the given child nodes, joined by [j], and no filter. *)
Definition Q_join (j : join_type) (queries : list Q) : Q := MkQ queries j [].

(** ** Dictionaries *)

(** A Python [dict] with string keys: the items in insertion order, every
    key at most once. *)
Definition dict : Type := list (string * pyval).

(** [d.get(key)] as an option, [key in d], [d[key]]. *)
Fixpoint dict_get (d : dict) (key : string) : option pyval :=
  match d with
  | [] => None
  | (k, v) :: d' => if String.eqb k key then Some v else dict_get d' key
  end.

Definition dict_contains (d : dict) (key : string) : bool :=
  match dict_get d key with Some _ => true | None => false end.

Definition dict_subscript (d : dict) (key : string) : res pyval :=
  match dict_get d key with
  | Some v => Ok v
  | None => Raise (KeyError key)
  end.

(** [d[key] = value]: a key already there keeps its place. *)
Fixpoint dict_set (d : dict) (key : string) (value : pyval) : dict :=
  match d with
  | [] => [(key, value)]
  | (k, v) :: d' =>
      if String.eqb k key then (k, value) :: d' else (k, v) :: dict_set d' key value
  end.

(** What is left of [d] after [d.pop(key)]: no item under [key]. *)
Fixpoint dict_remove (d : dict) (key : string) : dict :=
  match d with
  | [] => []
  | (k, v) :: d' =>
      if String.eqb k key then dict_remove d' key else (k, v) :: dict_remove d' key
  end.

(** ** The ORM and the host framework, as the views see them *)

(** The views call into the ORM, into the hooks of the host framework
    ([before_create], [after_create], ...) and into the views of related
    models.  None of that code is in this repository; it is modelled by what
    the views rely on: every such call is recorded, an oracle decides whether
    it raises, a save that returns has stored the row of the instance, a
    delete that returns has removed it, and a hook that returns has changed
    nothing. *)
Module orm.

(** The classes of ORM fields the views test for with [isinstance]. *)
Inductive field_class : Type :=
| DataField
| ForeignKeyField
| OneToOneField
| BackwardFKRelation
| ManyToManyField.

(** [isinstance(field, relational.RelationalField)] *)
Definition is_RelationalField (f : field_class) : bool :=
  match f with DataField => false | _ => true end.

(** [isinstance(field, relational.ManyToManyField)] *)
Definition is_ManyToManyField (f : field_class) : bool :=
  match f with ManyToManyField => true | _ => false end.

(** [model._meta.fields_map], in its iteration order. *)
Definition fields_map : Type := list (string * field_class).

Fixpoint fields_map_get (fm : fields_map) (key : string) : option field_class :=
  match fm with
  | [] => None
  | (k, f) :: fm' => if String.eqb k key then Some f else fields_map_get fm' key
  end.

Definition fields_map_subscript (fm : fields_map) (key : string) : res field_class :=
  match fields_map_get fm key with
  | Some f => Ok f
  | None => Raise (KeyError key)
  end.

(** A model instance in memory: its primary key once it has one, and its
    attributes. *)
Record instance : Type := { inst_pk : option pyval; inst_attrs : dict }.

(** The fields of the host framework the views test for. *)
Inductive ui_kind : Type :=
| RelationField (identity : string) (multiple : bool)
| FileField (multiple : bool)
| PlainField.

Record ui_field : Type := { name : string; kind : ui_kind }.

(** [request.state.action] *)
Inductive RequestAction : Type := LIST | DETAIL | CREATE | EDIT.

(** Every call that leaves the view: into the ORM, into the hooks of the
    host framework, into the view of a related model. *)
Inductive call : Type :=
| CValidate (data : dict)
| CNew (data : dict)
| CCreate (data : dict)
| CSave (inst : instance)
| CDelete (inst : instance)
| CSetattr (inst : instance) (attr : string) (value : pyval)
| CRelAdd (inst : instance) (attr : string) (values : list pyval)
| CRelClear (inst : instance) (attr : string)
| CGet (pk : pyval)
| CFilter (pks : list pyval)
| CFilterDelete (pks : list pyval)
| CBeforeCreate (data : dict) (inst : instance)
| CAfterCreate (inst : instance)
| CBeforeEdit (data : dict) (inst : instance)
| CAfterEdit (inst : instance)
| CBeforeDelete (inst : instance)
| CAfterDelete (inst : instance)
| CFindForeignModel (identity : string)
| CForeignFindByPk (identity : string) (pk : pyval)
| CForeignFindByPks (identity : string) (pks : pyval).

(** The store and the calls made so far, oldest first. *)
Record world : Type := {
  rows : list (pyval * dict);
  links : list (pyval * string * pyval);
  next_pk : Z;
  calls : list call
}.

(** What the outside decides: whether a call raises, given the world it is
    made in, and what a lookup in a related view returns. *)
Record oracle : Type := {
  fails : call -> world -> option exn;
  answer : call -> world -> pyval
}.

(** Keys compared as the store compares them: same kind, same content. *)
Fixpoint same_key (a b : pyval) : bool :=
  match a, b with
  | PNone, PNone => true
  | PBool x, PBool y => Bool.eqb x y
  | PInt x, PInt y => Z.eqb x y
  | PStr x, PStr y => String.eqb x y
  | PObj c s q, PObj c' s' q' => String.eqb c c' && String.eqb s s' && String.eqb q q'
  | PList l, PList l' | PTuple l, PTuple l' =>
      (fix go (l l' : list pyval) : bool :=
         match l, l' with
         | [], [] => true
         | x :: xs, y :: ys => same_key x y && go xs ys
         | _, _ => false
         end) l l'
  | _, _ => false
  end.

Definition log (c : call) (w : world) : world :=
  {| rows := rows w; links := links w; next_pk := next_pk w; calls := calls w ++ [c] |}.

Section Calls.
  Variable env : oracle.

(** A call: recorded, then it raises if the outside says so. *)
Definition ext (c : call) : M world unit :=
  fun w =>
    match fails env c w with
    | Some e => (Raise e, log c w)
    | None => (Ok tt, log c w)
    end.

(** A call that returns what the outside answers. *)
Definition ask (c : call) : M world pyval :=
  fun w =>
    match fails env c w with
    | Some e => (Raise e, log c w)
    | None => (Ok (answer env c w), log c w)
    end.

(** What a successful [save] does to the store: a first save inserts a
    row under a fresh key, a later one rewrites the row of the key. *)
Definition persist (inst : instance) : M world instance :=
  fun w =>
    match inst_pk inst with
    | None =>
        let pk := PInt (next_pk w) in
        (Ok {| inst_pk := Some pk; inst_attrs := inst_attrs inst |},
         {| rows := rows w ++ [(pk, inst_attrs inst)]; links := links w;
            next_pk := next_pk w + 1; calls := calls w |})
    | Some pk =>
        (Ok inst,
         {| rows := map (fun r => if same_key r.1 pk then (pk, inst_attrs inst) else r)
                        (rows w);
            links := links w; next_pk := next_pk w; calls := calls w |})
    end.

(** [await instance.save()] *)
Definition save (inst : instance) : M world instance :=
  bind (ext (CSave inst)) (fun _ => persist inst).

(** [setattr(instance, attr, value)] *)
Definition setattr (inst : instance) (attr : string) (value : pyval) : M world instance :=
  bind (ext (CSetattr inst attr value))
       (fun _ => ret {| inst_pk := inst_pk inst;
                        inst_attrs := dict_set (inst_attrs inst) attr value |}).

(** The positional arguments [*value] unpacks to; the wording of the
    [TypeError] is the interpreter's and varies with its version. *)
Definition star_args (value : pyval) : res (list pyval) :=
  match value with
  | PList l | PTuple l => Ok l
  | PStr s => Ok (map (fun c => PStr (String c EmptyString)) (list_ascii_of_string s))
  | _ => Raise (TypeError ("Value after * must be an iterable, not " +:+ type_name value))
  end.

Definition pk_of (inst : instance) : pyval :=
  match inst_pk inst with Some pk => pk | None => PNone end.

(** [await getattr(instance, attr).add( *value )] *)
Definition rel_add (inst : instance) (attr : string) (value : pyval) : M world unit :=
  bind (lift (star_args value)) (fun values =>
  bind (ext (CRelAdd inst attr values)) (fun _ =>
  fun w =>
    (Ok tt,
     {| rows := rows w;
        links := links w ++ map (fun v => (pk_of inst, attr, v)) values;
        next_pk := next_pk w; calls := calls w |}))).

(** [await rel.clear()] *)
Definition rel_clear (inst : instance) (attr : string) : M world unit :=
  bind (ext (CRelClear inst attr)) (fun _ =>
  fun w =>
    (Ok tt,
     {| rows := rows w;
        links := filter (fun l => negb (same_key l.1.1 (pk_of inst) && String.eqb l.1.2 attr))
                        (links w);
        next_pk := next_pk w; calls := calls w |})).

Definition remove_rows (gone : pyval -> bool) : M world unit :=
  fun w =>
    (Ok tt,
     {| rows := filter (fun r => negb (gone r.1)) (rows w);
        links := links w; next_pk := next_pk w; calls := calls w |}).

Definition instance_of_row (r : pyval * dict) : instance :=
  {| inst_pk := Some r.1; inst_attrs := r.2 |}.

(** [await self.model.get(pk=pk)], relations prefetched. *)
Definition model_get (pk : pyval) : M world instance :=
  bind (ext (CGet pk)) (fun _ =>
  fun w =>
    match find (fun r => same_key r.1 pk) (rows w) with
    | Some r => (Ok (instance_of_row r), w)
    | None => (Raise (OtherException "DoesNotExist" "Object does not exist"), w)
    end).

(** [await self.model.filter(pk__in=pks)], relations prefetched. *)
Definition model_filter (pks : list pyval) : M world (list instance) :=
  bind (ext (CFilter pks)) (fun _ =>
  fun w =>
    (Ok (map instance_of_row
             (filter (fun r => existsb (same_key r.1) pks) (rows w))), w)).

(** [find_by_pk], the same in both generations: any failure of the
    lookup gives [None]. *)
Definition find_by_pk (pk : pyval) : M world (option instance) :=
  try_except (bind (model_get pk) (fun inst => ret (Some inst)))
             (fun _ => ret None).

(** [find_by_pks], the same in both generations. *)
Definition find_by_pks (pks : list pyval) : M world (list instance) :=
  model_filter pks.

(** The loop that moves the relational fields present in [data] to
    [relations] ([relations[field_name] = data.pop(field_name)] when the
    field is relational and [field_name in data]): what is left of [data],
    and [relations]. *)
Fixpoint split_relations (fm : fields_map) (data relations : dict) : dict * dict :=
  match fm with
  | [] => (data, relations)
  | (field_name, field) :: fm' =>
      match dict_get data field_name with
      | Some value =>
          if is_RelationalField field
          then split_relations fm' (dict_remove data field_name)
                               (dict_set relations field_name value)
          else split_relations fm' data relations
      | None => split_relations fm' data relations
      end
  end.

(** One turn of the loop [# Set relations] of [create]. *)
Definition set_relation (fm : fields_map) (inst : instance) (item : string * pyval)
  : M world instance :=
  let (field_name, value) := item in
  bind (lift (fields_map_subscript fm field_name)) (fun field =>
  if is_ManyToManyField field
  then bind (rel_add inst field_name value) (fun _ => ret inst)
  else bind (setattr inst field_name value) (fun inst' => save inst')).

(** One turn of the loop [# Update relations] of [edit]. *)
Definition update_relation (fm : fields_map) (inst : instance) (item : string * pyval)
  : M world instance :=
  let (field_name, value) := item in
  bind (lift (fields_map_subscript fm field_name)) (fun field =>
  if is_ManyToManyField field
  then bind (rel_clear inst field_name) (fun _ =>
       bind (rel_add inst field_name value) (fun _ => ret inst))
  else bind (setattr inst field_name value) (fun inst' => save inst')).

End Calls.

End orm.

(** ** [contrib/tortoise]: the first generation *)

Module tortoise.

(** [helpers.py] *)

(** The body of the loop of [normalize_list], for one element [v]. *)
Definition normalize_entry (is_default_sort_list : bool) (v : pyval) : res pyval :=
  if is_str v then
    if is_default_sort_list then Ok (PTuple [v; PBool false]) else Ok v
  else if is_tuple v && is_default_sort_list then
    match v with
    | PTuple [PStr s; PBool b] => Ok (PTuple [PStr s; PBool b])
    | _ => Raise (ValueError "Invalid argument, Expected Tuple[str, bool]")
    end
  else Raise (ValueError ("Expected str, got " +:+ type_name v)).

(** [normalize_list(arr, is_default_sort_list)]: [None] stays [None]. *)
Definition normalize_list (arr : option (list pyval)) (is_default_sort_list : bool)
  : res (option (list pyval)) :=
  match arr with
  | None => Ok None
  | Some l => res_bind (res_map (normalize_entry is_default_sort_list) l) (fun l' => Ok (Some l'))
  end.

(** [fields.py] *)
Module MultiplePKField.

(** [serialize_value]: the request and the action are not read. *)
Definition serialize_value (value : pyval) : string :=
  match value with
  | PList l | PTuple l => py_join "," (map py_str l)
  | _ => py_str value
  end.

(** [parse_value] *)
Definition parse_value (value : pyval) : pyval :=
  match value with
  | PStr s => if char_in "," s then PList (map PStr (py_split "," s)) else value
  | _ => value
  end.

End MultiplePKField.

(** [view.py] *)
Module ModelView.
Section View.
  Import orm.
  Variable env : oracle.
  (** [self.model._meta.fields_map] and [self.searchable_fields]. *)
  Variable model_fields_map : fields_map.
  Variable searchable_fields : option (list string).

(** The handler of all three operations:
    [except Exception as e: raise FormValidationError({"error": str(e)})]. *)
Definition wrap_error {A : Type} (e : exn) : M world A :=
  raise (FormValidationError [("error", exn_str e)]).

(** The [try] block of [create]. *)
Definition create_body (data : dict) : M world instance :=
  let (data, relations) := split_relations model_fields_map data [] in
  bind (ext env (CCreate data)) (fun _ =>
  bind (persist {| inst_pk := None; inst_attrs := data |}) (fun instance =>
  for_fold (set_relation env model_fields_map) relations instance)).

Definition create (data : dict) : M world instance :=
  try_except (create_body data) wrap_error.

(** The [try] block of [edit]. *)
Definition edit_body (pk : pyval) (data : dict) : M world instance :=
  bind (find_by_pk env pk) (fun found =>
  match found with
  | None => raise (FormValidationError [("error", "Record not found")])
  | Some instance =>
      let (data, relations) := split_relations model_fields_map data [] in
      bind (for_fold (fun inst '(key, value) => setattr env inst key value) data instance)
           (fun instance =>
      bind (save env instance) (fun instance =>
      for_fold (update_relation env model_fields_map) relations instance))
  end).

Definition edit (pk : pyval) (data : dict) : M world instance :=
  try_except (edit_body pk data) wrap_error.

(** The [try] block of [delete]: the count the ORM reports is the number
    of rows removed. *)
Definition delete_body (pks : list pyval) : M world nat :=
  bind (ext env (CFilterDelete pks)) (fun _ =>
  fun w =>
    let gone := fun k => existsb (same_key k) pks in
    bind (remove_rows gone) (fun _ => ret (length (filter (fun r => gone r.1) (rows w)))) w).

Definition delete (pks : list pyval) : M world nat :=
  try_except (delete_body pks) wrap_error.

(** [get_search_query(request, term)] *)
Definition get_search_query (term : string) : Q :=
  let search_fields := match searchable_fields with Some l => l | None => [] end in
  match search_fields with
  | [] => Q_empty
  | _ => Q_join OR (map (fun field => Q_filter (field +:+ "__icontains") (PStr term))
                        search_fields)
  end.

End View.
End ModelView.

End tortoise.

(** ** [contrib/tortoise_admin]: the second generation *)

Module tortoise_admin.

(** [helpers.py] *)

(** [normalize_list(value, is_default_sort_list)]: any value is accepted and
    nothing is raised. *)
Definition normalize_list (value : pyval) (is_default_sort_list : bool) : list pyval :=
  match value with
  | PNone => []
  | PList l | PTuple l =>
      if is_default_sort_list
      then map (fun v => if is_str v then PTuple [v; PBool false] else v) l
      else l
  | _ =>
      if is_default_sort_list
      then (if is_str value then [PTuple [value; PBool false]] else [value])
      else [value]
  end.

(** [build_search_query(term, fields)] *)
Definition build_search_query (term : string) (fields : list string) : Q :=
  if is_nil fields || String.eqb term "" then Q_empty
  else Q_join OR (map (fun field => Q_filter (field +:+ "__icontains") (PStr term)) fields).

(** One turn of the loop of [build_order_query]: the unpacking of the split
    raises unless it gives two parts. *)
Definition order_clause (value : string) : res string :=
  match py_split_ws_max1 (py_strip value) with
  | [field; direction] =>
      if String.eqb (py_lower direction) "desc" then Ok ("-" +:+ field) else Ok field
  | [] => Raise (ValueError "not enough values to unpack (expected 2, got 0)")
  | [_] => Raise (ValueError "not enough values to unpack (expected 2, got 1)")
  | _ => Raise (ValueError "too many values to unpack (expected 2)")
  end.

(** [build_order_query(order_by)] *)
Definition build_order_query (order_by : list string) : res (list string) :=
  res_map order_clause order_by.

(** [build_filter_query(where, model)]: the model is not read. *)
Definition build_filter_query (where_ : list (string * pyval)) : Q :=
  if is_nil where_ then Q_empty
  else Q_join AND
         (map (fun '(field, value) =>
                 match value with
                 | PList _ | PTuple _ => Q_filter (field +:+ "__in") value
                 | _ => Q_filter field value
                 end) where_).

(** [converters.py] *)

(** A class, as the lookup reads it: [__module__] and [__name__]. *)
Record py_class : Type := { cls_module : string; cls_name : string }.

(** An ORM field object: the method-resolution order of its class (the class
    itself first) and what [str] prints for the object. *)
Record orm_field_obj : Type := { fld_mro : list py_class; fld_str : string }.

Module BaseTortoiseModelConverter.
Section Converter.
  (** The converter callables are not inspected. *)
  Context {C : Type}.
  Variable converters : gmap string C.

(** [find_converter_for_field_type(field_type)], given
    [field_type.__mro__]. *)
Fixpoint find_converter_for_field_type (mro : list py_class) : option C :=
  match mro with
  | [] => None
  | base :: bases =>
      let type_string := cls_module base +:+ "." +:+ cls_name base in
      match converters !! type_string with
      | Some c => Some c
      | None =>
          match converters !! cls_name base with
          | Some c => Some c
          | None => find_converter_for_field_type bases
          end
      end
  end.

(** [get_converter(field_type)]: the argument is the field object. *)
Definition get_converter (field_type : orm_field_obj) : res C :=
  match find_converter_for_field_type (fld_mro field_type) with
  | Some converter => Ok converter
  | None =>
      Raise (NotSupportedColumn
               ("Field " +:+ fld_str field_type +:+ " cannot be converted automatically. "
                +:+ "Find the appropriate field manually or provide your custom converter"))
  end.

End Converter.
End BaseTortoiseModelConverter.

(** [fields.py] *)
Module MultiplePKField.

(** [parse_obj], applied to the attribute value [getattr(obj, self.name)]. *)
Definition parse_obj (value : pyval) : pyval :=
  match value with
  | PList l | PTuple l => PTuple l
  | _ => value
  end.

(** [serialize_value]: the UUID branch and the last line both return
    [str(value)]. *)
Definition serialize_value (value : pyval) : string :=
  match value with
  | PNone => ""
  | PList l | PTuple l => py_join "," (map py_str l)
  | _ => py_str value
  end.

(** [parse_value], for the field called [name]. *)
Definition parse_value (name : string) (value : pyval) : res pyval :=
  if negb (py_truthy value) then Ok PNone
  else match value with
       | PStr s =>
           if char_in "," s then
             let parts := py_split "," s in
             if forallb nonempty parts then Ok (PTuple (map PStr parts))
             else Raise (FormValidationError
                           [(name, "All parts of composite primary key must be provided")])
           else Ok value
       | _ => Ok value
       end.

End MultiplePKField.

(** [middleware.py] *)
Module TortoiseMiddleware.

Inductive event : Type :=
| EInit
| EGenerateSchemas
| ECallNext
| EGet (conn_name : string)
| ERollback (conn_name : string)
| ECloseConnections.

(** The middleware object and the calls it has made, oldest first. *)
Record world : Type := { _initialized : bool; trace : list event }.

(** The surroundings of one request: the configuration, what the ORM calls
    do ([None]: they return), what the rest of the application answers, and
    the names in [connections.db_config]. *)
Record env (Response : Type) : Type := {
  generate_schemas : bool;
  tortoise_init : option exn;
  tortoise_generate_schemas : option exn;
  call_next : res Response;
  db_config : list string;
  connections_get : string -> option exn;
  conn_rollback : string -> option exn;
  close_connections : option exn
}.
Arguments generate_schemas {Response} _.
Arguments tortoise_init {Response} _.
Arguments tortoise_generate_schemas {Response} _.
Arguments call_next {Response} _.
Arguments db_config {Response} _.
Arguments connections_get {Response} _ _.
Arguments conn_rollback {Response} _ _.
Arguments close_connections {Response} _.

Definition record (ev : event) (w : world) : world :=
  {| _initialized := _initialized w; trace := trace w ++ [ev] |}.

Definition call (ev : event) (outcome : option exn) : M world unit :=
  fun w =>
    match outcome with
    | Some e => (Raise e, record ev w)
    | None => (Ok tt, record ev w)
    end.

Definition set_initialized (b : bool) : M world unit :=
  fun w => (Ok tt, {| _initialized := b; trace := trace w |}).

Section Middleware.
  Context {Response : Type}.
  Variable e : env Response.

(** [initialize] *)
Definition initialize : M world unit :=
  fun w =>
    if negb (_initialized w) then
      bind (call EInit (tortoise_init e)) (fun _ =>
      bind (if generate_schemas e
            then call EGenerateSchemas (tortoise_generate_schemas e)
            else ret tt) (fun _ =>
      set_initialized true)) w
    else (Ok tt, w).

(** The body of the loop over [connections.db_config]:
    [try: conn = connections.get(conn_name); await conn.rollback()]
    [except Exception: pass]. *)
Definition rollback_attempt (conn_name : string) : M world unit :=
  try_except
    (bind (call (EGet conn_name) (connections_get e conn_name)) (fun _ =>
     call (ERollback conn_name) (conn_rollback e conn_name)))
    (fun _ => ret tt).

(** [dispatch]: in the handler, the bare [raise] raises the exception that
    was caught. *)
Definition dispatch : M world Response :=
  bind initialize (fun _ =>
  try_except
    (fun w => (call_next e, record ECallNext w))
    (fun exc => bind (for_each rollback_attempt (db_config e)) (fun _ => raise exc))).

(** [shutdown] *)
Definition shutdown : M world unit :=
  fun w =>
    if _initialized w then
      bind (call ECloseConnections (close_connections e)) (fun _ =>
      set_initialized false) w
    else (Ok tt, w).

End Middleware.
End TortoiseMiddleware.

(** [view.py] *)
Module ModelView.
Section View.
  Import orm.
  Variable env : oracle.
  (** [self.model._meta.fields_map], [self.get_fields_list(request, action)]
      and [self.searchable_fields]. *)
  Variable model_fields_map : fields_map.
  Variable get_fields_list : RequestAction -> list ui_field.
  Variable searchable_fields : list string.

(** [handle_exception] *)
Definition handle_exception {A : Type} (exc : exn) : M world A :=
  match exc with
  | ValidationError _ errors => raise (FormValidationError errors)
  | _ => raise exc
  end.

(** [validate]: only the ORM's [ValidationError] is converted. *)
Definition validate (data : dict) : M world unit :=
  try_except_validation
    (ext env (CValidate data))
    (fun exc => match exc with
              | ValidationError _ errors => raise (FormValidationError errors)
              | _ => raise exc
              end).

Definition is_None (v : pyval) : bool := match v with PNone => true | _ => false end.

(** One turn of the loop of [_arrange_data]. *)
Definition arrange_field (data arranged_data : dict) (field : ui_field) : M world dict :=
  bind (lift (dict_subscript data (name field))) (fun value =>
  match kind field with
  | RelationField identity multiple =>
      if negb (is_None value) then
        bind (ext env (CFindForeignModel identity)) (fun _ =>
        bind (if negb multiple
              then ask env (CForeignFindByPk identity value)
              else ask env (CForeignFindByPks identity value)) (fun found =>
        ret (dict_set arranged_data (name field) found)))
      else ret (dict_set arranged_data (name field) value)
  | _ => ret (dict_set arranged_data (name field) value)
  end).

(** [_arrange_data]: [is_edit] is not read. *)
Definition _arrange_data (action : RequestAction) (data : dict) (is_edit : bool)
  : M world dict :=
  for_fold (arrange_field data) (get_fields_list action) [].

(** [value, should_be_deleted = value] *)
Definition unpack2 (v : pyval) : res (pyval * pyval) :=
  match v with
  | PList [a; b] | PTuple [a; b] => Ok (a, b)
  | PStr (String a (String b EmptyString)) =>
      Ok (PStr (String a EmptyString), PStr (String b EmptyString))
  | PList l | PTuple l =>
      Raise (ValueError (if Nat.ltb (length l) 2
                         then "not enough values to unpack (expected 2, got "
                              +:+ str_of_Z (Z.of_nat (length l)) +:+ ")"
                         else "too many values to unpack (expected 2)"))
  | PStr s =>
      Raise (ValueError (if Nat.ltb (String.length s) 2
                         then "not enough values to unpack (expected 2, got "
                              +:+ str_of_Z (Z.of_nat (String.length s)) +:+ ")"
                         else "too many values to unpack (expected 2)"))
  | _ => Raise (TypeError ("cannot unpack non-iterable " +:+ type_name v +:+ " object"))
  end.

Definition is_nonempty_list (v : pyval) : bool :=
  match v with PList (_ :: _) => true | _ => false end.

(** One turn of the loop of [_populate_obj]. *)
Definition populate_field (data : dict) (obj : instance) (field : ui_field)
  : M world instance :=
  let value := match dict_get data (name field) with Some v => v | None => PNone end in
  match kind field with
  | FileField multiple =>
      bind (lift (unpack2 value)) (fun '(value, should_be_deleted) =>
      if py_truthy should_be_deleted then setattr env obj (name field) PNone
      else if (negb multiple && negb (is_None value)) || (multiple && is_nonempty_list value)
      then setattr env obj (name field) value
      else ret obj)
  | _ => setattr env obj (name field) value
  end.

(** [_populate_obj]: [is_edit] is not read. *)
Definition _populate_obj (action : RequestAction) (obj : instance) (data : dict)
           (is_edit : bool) : M world instance :=
  for_fold (populate_field data) (get_fields_list action) obj.

(** The [try] block of [create], up to and including the first
    [await instance.save()]: the saved instance and the relations still to
    be set. *)
Definition create_persist (action : RequestAction) (data : dict)
  : M world (instance * dict) :=
  bind (_arrange_data action data false) (fun data =>
  bind (validate data) (fun _ =>
  let (data, relations) := split_relations model_fields_map data [] in
  bind (ext env (CNew data)) (fun _ =>
  let instance := {| inst_pk := None; inst_attrs := data |} in
  bind (ext env (CBeforeCreate data instance)) (fun _ =>
  bind (save env instance) (fun instance =>
  ret (instance, relations)))))).

(** The rest of the [try] block: the loop [# Set relations] and the
    [after_create] hook. *)
Definition create_attach (saved : instance) (relations : dict) : M world instance :=
  bind (for_fold (set_relation env model_fields_map) relations saved) (fun instance =>
  bind (ext env (CAfterCreate instance)) (fun _ =>
  ret instance)).

Definition create_body (action : RequestAction) (data : dict) : M world instance :=
  bind (create_persist action data) (fun '(instance, relations) =>
  create_attach instance relations).

(** [create]: [action] is [request.state.action]. *)
Definition create (action : RequestAction) (data : dict) : M world instance :=
  try_except (create_body action data) handle_exception.

(** The [try] block of [edit], up to and including the first
    [await instance.save()]: the saved instance and the relations still to
    be updated. *)
Definition edit_persist (action : RequestAction) (pk : pyval) (data : dict)
  : M world (instance * dict) :=
  bind (_arrange_data action data true) (fun data =>
  bind (validate data) (fun _ =>
  bind (find_by_pk env pk) (fun found =>
  match found with
  | None => raise (FormValidationError [("error", "Record not found")])
  | Some instance =>
      let (data, relations) := split_relations model_fields_map data [] in
      bind (_populate_obj action instance data true) (fun instance =>
      bind (ext env (CBeforeEdit data instance)) (fun _ =>
      bind (save env instance) (fun instance =>
      ret (instance, relations))))
  end))).

(** The rest of the [try] block: the loop [# Update relations] and the
    [after_edit] hook. *)
Definition edit_attach (saved : instance) (relations : dict) : M world instance :=
  bind (for_fold (update_relation env model_fields_map) relations saved) (fun instance =>
  bind (ext env (CAfterEdit instance)) (fun _ =>
  ret instance)).

Definition edit_body (action : RequestAction) (pk : pyval) (data : dict)
  : M world instance :=
  bind (edit_persist action pk data) (fun '(instance, relations) =>
  edit_attach instance relations).

Definition edit (action : RequestAction) (pk : pyval) (data : dict) : M world instance :=
  try_except (edit_body action pk data) handle_exception.

(** The [try] block of [delete]. *)
Definition delete_body (pks : list pyval) : M world nat :=
  bind (find_by_pks env pks) (fun objs =>
  bind (for_each (fun obj =>
                    bind (ext env (CBeforeDelete obj)) (fun _ =>
                    bind (ext env (CDelete obj)) (fun _ =>
                    remove_rows (fun k => same_key k (pk_of obj))))) objs) (fun _ =>
  bind (for_each (fun obj => ext env (CAfterDelete obj)) objs) (fun _ =>
  ret (length objs)))).

Definition delete (pks : list pyval) : M world nat :=
  try_except (delete_body pks) handle_exception.

(** [get_search_query(request, term)] *)
Definition get_search_query (term : string) : Q :=
  build_search_query term searchable_fields.

End View.
End ModelView.

End tortoise_admin.

(** ** The vocabulary of the properties *)

(** *** Composite keys *)

Definition is_field_error (r : res pyval) : Prop :=
  exists errors, r = Raise (FormValidationError errors).

(** A string with a comma in it, one of whose comma-separated parts is
    empty. *)
Definition has_empty_part (s : string) : Prop :=
  char_in "," s = true /\ In "" (py_split "," s).

(** The round trip of a composite-key field, for a field given by its
    [serialize_value] and its [parse_value]. *)
Definition composite_key_round_trip
    (serialize : pyval -> string) (parse : pyval -> res pyval) : Prop :=
  serialize (PTuple [PStr "1"; PStr "2"]) = "1,2"
  /\ parse (PStr "1,2") = Ok (PTuple [PStr "1"; PStr "2"])
  /\ parse (PStr "") = Ok PNone
  /\ parse PNone = Ok PNone
  /\ is_field_error (parse (PStr "1,"))
  /\ (forall s, has_empty_part s -> is_field_error (parse (PStr s)))
  /\ serialize PNone = "".

(** *** List normalization *)

(** A well-formed entry of a default-sort list: a name, or a pair of a name
    and a flag; and its canonical form. *)
Definition sort_entry_ok (v : pyval) : bool :=
  match v with
  | PStr _ => true
  | PTuple [PStr _; PBool _] => true
  | _ => false
  end.

Definition sort_entry_canon (v : pyval) : pyval :=
  match v with
  | PStr s => PTuple [PStr s; PBool false]
  | _ => v
  end.

(** *** Predicates on rows *)

(** A row of text columns; [None] is SQL's NULL. *)
Definition row : Type := list (string * option string).

Fixpoint row_get (r : row) (column : string) : option (option string) :=
  match r with
  | [] => None
  | (k, v) :: r' => if String.eqb k column then Some v else row_get r' column
  end.

(** [s] without the suffix [suffix], when it ends with it. *)
Fixpoint strip_suffix (suffix s : string) : option string :=
  if String.eqb s suffix then Some EmptyString
  else match s with
       | EmptyString => None
       | String c s' => option_map (String c) (strip_suffix suffix s')
       end.

(** The column holds a text that contains [term], letter case apart.  NULL
    contains nothing. *)
Definition icontains (r : row) (column term : string) : bool :=
  match row_get r column with
  | Some (Some text) => py_contains (py_lower term) (py_lower text)
  | _ => false
  end.

(** One keyword filter on a row: [column__icontains], [column__in] or plain
    equality. *)
Definition filter_holds (r : row) (kv : string * pyval) : bool :=
  let (key, value) := kv in
  match strip_suffix "__icontains" key with
  | Some column =>
      match value with
      | PStr term => icontains r column term
      | _ => false
      end
  | None =>
      match strip_suffix "__in" key with
      | Some column =>
          match row_get r column, value with
          | Some (Some text), (PList l | PTuple l) => existsb (orm.same_key (PStr text)) l
          | _, _ => false
          end
      | None =>
          match row_get r key, value with
          | Some (Some text), PStr s => String.eqb text s
          | Some None, PNone => true
          | _, _ => false
          end
      end
  end.

(** How the ORM reads a node on a row: the conditions of the node (its child
    nodes, then its filters) are joined by its join type; a node with no
    condition holds of every row. *)
Fixpoint Q_holds (r : row) (q : Q) : bool :=
  match q with
  | MkQ children join filters =>
      let conditions := map (Q_holds r) children ++ map (filter_holds r) filters in
      match conditions with
      | [] => true
      | _ => match join with
             | AND => forallb id conditions
             | OR => existsb id conditions
             end
      end
  end.

(** *** Order clauses *)

(** [s.split()]: the whitespace-separated tokens of [s]. *)
Fixpoint py_split_ws (s : string) : list string :=
  match s with
  | EmptyString => []
  | String c s' =>
      if py_isspace c then py_split_ws s'
      else match s' with
           | EmptyString => [String c EmptyString]
           | String c' _ =>
               if py_isspace c' then String c EmptyString :: py_split_ws s'
               else match py_split_ws s' with
                    | t :: ts => String c t :: ts
                    | [] => [String c EmptyString]
                    end
           end
  end.

(** The ordering key of one entry, read off its tokens: fewer than two
    tokens raise; two tokens give the field, marked when the direction is
    [desc] in any letter case; with more than two the field stands
    unmarked. *)
Definition order_key (value : string) : res string :=
  match py_split_ws value with
  | [] => Raise (ValueError "not enough values to unpack (expected 2, got 0)")
  | [_] => Raise (ValueError "not enough values to unpack (expected 2, got 1)")
  | [field; direction] =>
      Ok (if String.eqb (py_lower direction) "desc" then "-" +:+ field else field)
  | field :: _ :: _ :: _ => Ok field
  end.

Definition has_space (s : string) : bool :=
  existsb py_isspace (list_ascii_of_string s).

(** *** Converter lookup *)

(** The keys the lookup tries, in order: for each class of the resolution
    order, its qualified name, then its bare name. *)
Definition lookup_keys (mro : list tortoise_admin.py_class) : list string :=
  flat_map (fun base =>
              [tortoise_admin.cls_module base +:+ "." +:+ tortoise_admin.cls_name base;
               tortoise_admin.cls_name base]) mro.

(** The value of the first key that is registered. *)
Fixpoint first_hit {C : Type} (converters : gmap string C) (keys : list string) : option C :=
  match keys with
  | [] => None
  | k :: ks =>
      match converters !! k with
      | Some c => Some c
      | None => first_hit converters ks
      end
  end.

Definition not_supported_message (field : tortoise_admin.orm_field_obj) : string :=
  "Field " +:+ tortoise_admin.fld_str field
  +:+ " cannot be converted automatically. Find the appropriate field manually or provide your custom converter".

(** *** The connection middleware *)

(** The connections an attempt was started for, and those whose rollback
    was called, in the order of the trace. *)
Definition attempted (tr : list tortoise_admin.TortoiseMiddleware.event) : list string :=
  omap (fun ev => match ev with
                  | tortoise_admin.TortoiseMiddleware.EGet conn_name => Some conn_name
                  | _ => None
                  end) tr.

Definition rolled_back (tr : list tortoise_admin.TortoiseMiddleware.event) : list string :=
  omap (fun ev => match ev with
                  | tortoise_admin.TortoiseMiddleware.ERollback conn_name => Some conn_name
                  | _ => None
                  end) tr.

Definition returns (outcome : option exn) : bool :=
  match outcome with None => true | Some _ => false end.

(** Every exception an outcome raises is an instance of [Exception]. *)
Definition raises_only_Exception (outcome : string -> option exn) : Prop :=
  forall conn_name exc, outcome conn_name = Some exc -> is_Exception exc = true.

(** The failure path as the specification words it: whatever the downstream
    handler raises, one rollback attempt per known connection is made and
    the exception is raised again. *)
Definition failure_path_any_exception : Prop :=
  forall (e : tortoise_admin.TortoiseMiddleware.env unit)
         (w : tortoise_admin.TortoiseMiddleware.world) (exc : exn),
    (tortoise_admin.TortoiseMiddleware.initialize e w).1 = Ok tt ->
    tortoise_admin.TortoiseMiddleware.call_next e = Raise exc ->
    exists w',
      tortoise_admin.TortoiseMiddleware.dispatch e w = (Raise exc, w')
      /\ attempted (tortoise_admin.TortoiseMiddleware.trace w')
         = attempted (tortoise_admin.TortoiseMiddleware.trace w)
           ++ tortoise_admin.TortoiseMiddleware.db_config e.

(** A request that fails with [exc] downstream, on two connections whose
    rollback raises [on_rollback]. *)
Definition failing_request (exc on_rollback : exn)
  : tortoise_admin.TortoiseMiddleware.env unit :=
  {| tortoise_admin.TortoiseMiddleware.generate_schemas := false;
     tortoise_admin.TortoiseMiddleware.tortoise_init := None;
     tortoise_admin.TortoiseMiddleware.tortoise_generate_schemas := None;
     tortoise_admin.TortoiseMiddleware.call_next := Raise exc;
     tortoise_admin.TortoiseMiddleware.db_config := ["default"; "replica"];
     tortoise_admin.TortoiseMiddleware.connections_get := fun _ => None;
     tortoise_admin.TortoiseMiddleware.conn_rollback := fun _ => Some on_rollback;
     tortoise_admin.TortoiseMiddleware.close_connections := None |}.

Definition fresh_middleware : tortoise_admin.TortoiseMiddleware.world :=
  {| tortoise_admin.TortoiseMiddleware._initialized := false;
     tortoise_admin.TortoiseMiddleware.trace := [] |}.

(** *** The views *)

(** What [handle_exception] makes of an exception: the ORM's validation
    error becomes the validation error of the form, with the same per-field
    mapping; anything else stays what it is. *)
Definition normalized (e : exn) : exn :=
  match e with
  | ValidationError _ errors => FormValidationError errors
  | _ => e
  end.







(** A computation seen from outside: how the world it ends in relates to
    the world it starts in, and what holds of the value it returns. *)
Definition triple {A : Type} (R : orm.world -> orm.world -> Prop) (Q : A -> Prop)
    (m : M orm.world A) : Prop :=
  forall w r w', m w = (r, w') -> R w w' /\ forall a, r = Ok a -> Q a.

(** The calls made between two worlds are all in [P]. *)
Definition calls_within (P : orm.call -> Prop) (w w' : orm.world) : Prop :=
  exists l, orm.calls w' = orm.calls w ++ l /\ Forall P l.

(** The store is the same. *)
Definition store_kept (w w' : orm.world) : Prop :=
  orm.rows w' = orm.rows w /\ orm.links w' = orm.links w
  /\ orm.next_pk w' = orm.next_pk w.

Definition quiet (P : orm.call -> Prop) (w w' : orm.world) : Prop :=
  store_kept w w' /\ calls_within P w w'.

(** A row is stored under the key [pk]. *)
Definition stored (pk : pyval) (w : orm.world) : Prop :=
  exists attrs, In (pk, attrs) (orm.rows w).

(** No row was added or removed, and the row under [pk] is still there. *)
Definition keeps_row (pk : pyval) (P : orm.call -> Prop) (w w' : orm.world) : Prop :=
  length (orm.rows w') = length (orm.rows w)
  /\ (stored pk w -> stored pk w')
  /\ calls_within P w w'.

(** The calls that attach a relation or run the post-create hook. *)
Definition is_attachment (c : orm.call) : bool :=
  match c with
  | orm.CSetattr _ _ _ | orm.CRelAdd _ _ _ | orm.CRelClear _ _ | orm.CAfterCreate _ => true
  | _ => false
  end.

(** A relation add for the attribute [attr]. *)
Definition is_add_of (attr : string) (c : orm.call) : Prop :=
  exists inst values, c = orm.CRelAdd inst attr values.

(** An assignment of [value] to the attribute [attr] directly followed by a
    save. *)
Definition assigns_and_saves (attr : string) (value : pyval) (l : list orm.call) : Prop :=
  exists pre inst inst' post,
    l = pre ++ orm.CSetattr inst attr value :: orm.CSave inst' :: post.

(** The edge-case policy as the specification words it, for [create]: a
    relation field present with [None] sees no add and no assignment
    followed by a save. *)
Definition none_relation_left_alone : Prop :=
  forall (env : orm.oracle) (fm : orm.fields_map)
         (fields : orm.RequestAction -> list orm.ui_field)
         (data : dict) (w : orm.world) (attr identity : string) (multiple : bool),
    In {| orm.name := attr; orm.kind := orm.RelationField identity multiple |}
       (fields orm.CREATE) ->
    dict_get data attr = Some PNone ->
    forall l,
      orm.calls (tortoise_admin.ModelView.create env fm fields orm.CREATE data w).2
      = orm.calls w ++ l ->
      ~ Exists (is_add_of attr) l /\ ~ assigns_and_saves attr PNone l.

(** *** Worlds and oracles of the examples *)

Definition empty_world : orm.world :=
  {| orm.rows := []; orm.links := []; orm.next_pk := 1; orm.calls := [] |}.

(** An outside where no call raises. *)
Definition calm : orm.oracle :=
  {| orm.fails := fun _ _ => None;
     orm.answer := fun _ _ => PObj "User" "<User: 7>" "<User: 7>" |}.


(** An outside where the post-create hook raises. *)
Definition hook_fails : orm.oracle :=
  {| orm.fails := fun c _ =>
       match c with
       | orm.CAfterCreate _ => Some (OtherException "RuntimeError" "hook failed")
       | _ => None
       end;
     orm.answer := fun _ _ => PNone |}.

(** A model with a name and a to-one relation [owner], and the two fields
    of its form. *)
Definition pet_fields_map : orm.fields_map :=
  [("id", orm.DataField); ("name", orm.DataField); ("owner", orm.ForeignKeyField)].

Definition pet_form (action : orm.RequestAction) : list orm.ui_field :=
  [{| orm.name := "name"; orm.kind := orm.PlainField |};
   {| orm.name := "owner"; orm.kind := orm.RelationField "user" false |}].

Definition pet_data : dict := [("name", PStr "Rex"); ("owner", PNone)].

(** The calls [_arrange_data] makes: the lookups in the views of the related
    models. *)
Definition is_lookup (c : orm.call) : bool :=
  match c with
  | orm.CFindForeignModel _ | orm.CForeignFindByPk _ _ | orm.CForeignFindByPks _ _ => true
  | _ => false
  end.

(** The calls made before an instance is first saved or changed. *)
Definition is_preparation (c : orm.call) : bool :=
  match c with
  | orm.CValidate _ | orm.CNew _ | orm.CBeforeCreate _ _ | orm.CGet _ => true
  | _ => is_lookup c
  end.

(** The saved instance and the worlds of [create] on the pet of the
    examples, when the post-create hook raises. *)
Definition saved_pet : orm.instance :=
  {| orm.inst_pk := Some (PInt 1); orm.inst_attrs := [("name", PStr "Rex")] |}.

Definition pet_saved_world : orm.world :=
  (tortoise_admin.ModelView.create_persist hook_fails pet_fields_map pet_form
     orm.CREATE pet_data empty_world).2.

Definition pet_failed_world : orm.world :=
  (tortoise_admin.ModelView.create_attach hook_fails pet_fields_map saved_pet
     [("owner", PNone)] pet_saved_world).2.

(** A relation add, for whatever attribute. *)
Definition is_rel_add (c : orm.call) : bool :=
  match c with
  | orm.CRelAdd _ _ _ => true
  | _ => false
  end.

(** The items of a dictionary under [attr], if any, hold [None]. *)
Definition only_None_under (attr : string) (d : dict) : Prop :=
  forall v, In (attr, v) d -> v = PNone.

(** The relation adds that the items of [relations] can lead to are all
    in [P]. *)
Definition adds_within (P : orm.call -> Prop) (relations : dict) : Prop :=
  forall field_name value i values,
    In (field_name, value) relations -> orm.star_args value = Ok values ->
    P (orm.CRelAdd i field_name values).

(** The calls of [create] on the pet of the examples, when nothing raises. *)
Definition pet_unsaved : orm.instance :=
  {| orm.inst_pk := None; orm.inst_attrs := [("name", PStr "Rex")] |}.

Definition pet_with_owner : orm.instance :=
  {| orm.inst_pk := Some (PInt 1);
     orm.inst_attrs := [("name", PStr "Rex"); ("owner", PNone)] |}.

Definition pet_create_calls : list orm.call :=
  [orm.CValidate pet_data;
   orm.CNew [("name", PStr "Rex")];
   orm.CBeforeCreate [("name", PStr "Rex")] pet_unsaved;
   orm.CSave pet_unsaved;
   orm.CSetattr saved_pet "owner" PNone;
   orm.CSave pet_with_owner;
   orm.CAfterCreate pet_with_owner].

(** What the code does with a relation field [attr] of the form that the
    input holds [None] for: [_arrange_data] makes no lookup for it and leaves
    the [None]; neither [create] nor [edit] makes a relation add for it; and
    when the model has it as a relation other than many-to-many, [create] and
    [edit], when they return, have assigned it [None] and saved. *)
Definition none_relation_policy (env : orm.oracle) (fm : orm.fields_map)
    (fields : orm.RequestAction -> list orm.ui_field) (action : orm.RequestAction)
    (data : dict) (attr identity : string) (multiple : bool) : Prop :=
  (forall arranged w,
      tortoise_admin.ModelView.arrange_field env data arranged
        {| orm.name := attr; orm.kind := orm.RelationField identity multiple |} w
      = (Ok (dict_set arranged attr PNone), w))
  /\ (forall w,
        calls_within (fun c => ~ is_add_of attr c) w
          (tortoise_admin.ModelView.create env fm fields action data w).2)
  /\ (forall pk w,
        calls_within (fun c => ~ is_add_of attr c) w
          (tortoise_admin.ModelView.edit env fm fields action pk data w).2)
  /\ (forall fc,
        orm.fields_map_get fm attr = Some fc ->
        orm.is_RelationalField fc = true ->
        orm.is_ManyToManyField fc = false ->
        (forall w inst w',
            tortoise_admin.ModelView.create env fm fields action data w = (Ok inst, w') ->
            exists l, orm.calls w' = orm.calls w ++ l /\ assigns_and_saves attr PNone l)
        /\ (forall pk w inst w',
              tortoise_admin.ModelView.edit env fm fields action pk data w
              = (Ok inst, w') ->
              exists l, orm.calls w' = orm.calls w ++ l
                        /\ assigns_and_saves attr PNone l)).

(** The number of times [Tortoise.init] was called. *)
Definition init_count (tr : list tortoise_admin.TortoiseMiddleware.event) : nat :=
  length (omap (fun ev => match ev with
                          | tortoise_admin.TortoiseMiddleware.EInit => Some tt
                          | _ => None
                          end) tr).

(** The initialization of a configuration does not raise. *)
Definition initializes {Response : Type}
    (e : tortoise_admin.TortoiseMiddleware.env Response) : Prop :=
  tortoise_admin.TortoiseMiddleware.tortoise_init e = None
  /\ (tortoise_admin.TortoiseMiddleware.generate_schemas e = true ->
      tortoise_admin.TortoiseMiddleware.tortoise_generate_schemas e = None).

(** A request that is answered, on a configuration that generates the
    schemas. *)
Definition answered_request : tortoise_admin.TortoiseMiddleware.env unit :=
  {| tortoise_admin.TortoiseMiddleware.generate_schemas := true;
     tortoise_admin.TortoiseMiddleware.tortoise_init := None;
     tortoise_admin.TortoiseMiddleware.tortoise_generate_schemas := None;
     tortoise_admin.TortoiseMiddleware.call_next := Ok tt;
     tortoise_admin.TortoiseMiddleware.db_config := ["default"];
     tortoise_admin.TortoiseMiddleware.connections_get := fun _ => None;
     tortoise_admin.TortoiseMiddleware.conn_rollback := fun _ => None;
     tortoise_admin.TortoiseMiddleware.close_connections := None |}.

(** A configuration whose schema generation raises. *)
Definition broken_schemas : tortoise_admin.TortoiseMiddleware.env unit :=
  {| tortoise_admin.TortoiseMiddleware.generate_schemas := true;
     tortoise_admin.TortoiseMiddleware.tortoise_init := None;
     tortoise_admin.TortoiseMiddleware.tortoise_generate_schemas :=
       Some (OtherException "OperationalError" "no such table");
     tortoise_admin.TortoiseMiddleware.call_next := Ok tt;
     tortoise_admin.TortoiseMiddleware.db_config := ["default"];
     tortoise_admin.TortoiseMiddleware.connections_get := fun _ => None;
     tortoise_admin.TortoiseMiddleware.conn_rollback := fun _ => None;
     tortoise_admin.TortoiseMiddleware.close_connections := None |}.

Definition running_middleware : tortoise_admin.TortoiseMiddleware.world :=
  {| tortoise_admin.TortoiseMiddleware._initialized := true;
     tortoise_admin.TortoiseMiddleware.trace :=
       [tortoise_admin.TortoiseMiddleware.EInit] |}.

(** The message of the validation error of a composite key. *)
Definition missing_part_message : string :=
  "All parts of composite primary key must be provided".

(** A registry with the one converter of character fields, and the
    resolution order of a character field. *)
Definition char_registry : gmap string nat := {["CharField" := 1%nat]}.

Definition char_field_mro : list tortoise_admin.py_class :=
  [{| tortoise_admin.cls_module := "tortoise.fields.data";
      tortoise_admin.cls_name := "CharField" |};
   {| tortoise_admin.cls_module := "tortoise.fields.base";
      tortoise_admin.cls_name := "Field" |};
   {| tortoise_admin.cls_module := "builtins";
      tortoise_admin.cls_name := "object" |}].

(** A class of an application that derives from the character field. *)
Definition slug_field_class : tortoise_admin.py_class :=
  {| tortoise_admin.cls_module := "app.fields"; tortoise_admin.cls_name := "SlugField" |}.

(** *** Deletion *)

(** The rows a list of keys selects. *)
Definition selected (pks : list pyval) (r : pyval * dict) : bool :=
  existsb (orm.same_key r.1) pks.

(** The instances [find_by_pks] loads for the keys. *)
Definition loaded (pks : list pyval) (w : orm.world) : list orm.instance :=
  map orm.instance_of_row (filter (selected pks) (orm.rows w)).

(** The calls of a deletion that goes through: the query, the pre-delete
    hook and the deletion of each instance in turn, then the post-delete
    hooks. *)
Definition delete_calls (pks : list pyval) (objs : list orm.instance) : list orm.call :=
  orm.CFilter pks
  :: flat_map (fun obj => [orm.CBeforeDelete obj; orm.CDelete obj]) objs
  ++ map orm.CAfterDelete objs.

(** A store with three pets. *)
Definition three_pets : orm.world :=
  {| orm.rows := [(PInt 1, [("name", PStr "Rex")]);
                  (PInt 2, [("name", PStr "Tom")]);
                  (PInt 3, [("name", PStr "Ada")])];
     orm.links := []; orm.next_pk := 4; orm.calls := [] |}.

(** Rows are only removed between two worlds, and none that [keep] holds
    for. *)
Definition spares (keep : pyval * dict -> bool) (w w' : orm.world) : Prop :=
  exists gone : pyval * dict -> bool,
    (forall r, gone r = true -> keep r = false)
    /\ orm.rows w' = filter (fun r => negb (gone r)) (orm.rows w).

Definition is_after_delete (c : orm.call) : bool :=
  match c with
  | orm.CAfterDelete _ => true
  | _ => false
  end.

(** An outside where the pre-delete hook refuses the pet Ada. *)
Definition ada_guarded : orm.oracle :=
  {| orm.fails := fun c _ =>
       match c with
       | orm.CBeforeDelete {| orm.inst_pk := Some (PInt 3) |} =>
           Some (OtherException "PermissionError" "Ada stays")
       | _ => None
       end;
     orm.answer := fun _ _ => PNone |}.

(** *** Saved instances *)

(** The rows under another key than [pk]. *)
Definition others (pk : pyval) (r : pyval * dict) : bool := negb (orm.same_key r.1 pk).

(** The instance has the key [pk] and the store holds it as it is in
    memory. *)
Definition in_store (pk : pyval) (inst : orm.instance) (w : orm.world) : Prop :=
  orm.inst_pk inst = Some pk /\ In (pk, orm.inst_attrs inst) (orm.rows w).

(** As many rows as before, and the same rows under the other keys. *)
Definition same_but (pk : pyval) (w w' : orm.world) : Prop :=
  length (orm.rows w') = length (orm.rows w)
  /\ filter (others pk) (orm.rows w') = filter (others pk) (orm.rows w).

(** The error of [edit] for a key without a record. *)
Definition record_not_found : exn := FormValidationError [("error", "Record not found")].

(** The pet Rex with an owner, as a form sends it, and the store it is
    in. *)
Definition rex_data : dict := [("name", PStr "Rex"); ("owner", PInt 7)].

Definition rex_world : orm.world :=
  {| orm.rows := [(PInt 1, [("name", PStr "Rex"); ("owner", PNone)])];
     orm.links := []; orm.next_pk := 2; orm.calls := [] |}.

(** The names of the fields of a form. *)
Definition form_names (fields : list orm.ui_field) : list string := map orm.name fields.

Definition is_FileField (field : orm.ui_field) : bool :=
  match orm.kind field with
  | orm.FileField _ => true
  | _ => false
  end.

(** Rex as the creations return it: the second generation has looked the
    owner up, the first has not. *)
Definition rex_created : orm.instance :=
  {| orm.inst_pk := Some (PInt 2);
     orm.inst_attrs := [("name", PStr "Rex"); ("owner", PObj "User" "<User: 7>" "<User: 7>")] |}.

Definition rex_created_first : orm.instance :=
  {| orm.inst_pk := Some (PInt 2);
     orm.inst_attrs := [("name", PStr "Rex"); ("owner", PInt 7)] |}.

(** What [data.get(name, None)] gives. *)
Definition dict_get_default (d : dict) (key : string) : pyval :=
  match dict_get d key with Some v => v | None => PNone end.

Definition is_RelationField (field : orm.ui_field) : bool :=
  match orm.kind field with
  | orm.RelationField _ _ => true
  | _ => false
  end.

(** The lookup of a key finds nothing: the query raises an instance of
    [Exception], or it goes through and the store has no row under the
    key. *)
Definition lookup_misses (env : orm.oracle) (pk : pyval) (w : orm.world) : Prop :=
  match orm.fails env (orm.CGet pk) w with
  | Some e => is_Exception e = true
  | None => find (fun r => orm.same_key r.1 pk) (orm.rows w) = None
  end.

(** Rex after an edition that gives it an owner. *)
Definition rex_edited : orm.instance :=
  {| orm.inst_pk := Some (PInt 1);
     orm.inst_attrs := [("name", PStr "Rex"); ("owner", PObj "User" "<User: 7>" "<User: 7>")] |}.

(** An outside where the database is down for lookups by key. *)
Definition lookups_down : orm.oracle :=
  {| orm.fails := fun c _ =>
       match c with
       | orm.CGet _ => Some (OtherException "OperationalError" "connection lost")
       | _ => None
       end;
     orm.answer := fun _ _ => PObj "User" "<User: 7>" "<User: 7>" |}.

(** The pet of [saved_pet] after [_populate_obj] with a new name and nothing
    for the owner. *)
Definition rex_populated : orm.instance :=
  {| orm.inst_pk := Some (PInt 1);
     orm.inst_attrs := [("name", PStr "Max"); ("owner", PNone)] |}.

(** * The conversion of model fields, [tortoise_admin/converters.py] *)

Module converters.

(** A field object of [model._meta.fields_map], as the conversion reads it:
    the class the [isinstance] tests see, the resolution order of its type
    and what [str] prints for it, and its attributes.  [max_length],
    [minimum] and [maximum] are [None] here when [hasattr] is false. *)
Record field_obj : Type := {
  fo_class : orm.field_class;
  fo_type : tortoise_admin.orm_field_obj;
  related_model_name : string;
  model_field_name : string;
  description : pyval;
  null : bool;
  generated : bool;
  max_length : option pyval;
  minimum : option pyval;
  maximum : option pyval
}.

(** A field of the host framework, as it is constructed: its class and the
    keyword arguments of the constructor ([HasOne] and [HasMany] take the
    name first). *)
Record base_field : Type := { bf_class : string; bf_kwargs : dict }.

(** An entry of the list to convert: a field of the host framework already,
    or the name of a field of the model. *)
Inductive field_spec : Type :=
| Given (field : base_field)
| Named (name : string).

(** A converter, called with [name=] and [field=]. *)
Definition converter : Type := string -> field_obj -> res base_field.

Definition meta_fields : Type := list (string * field_obj).

(** [model._meta.fields_map.get(field)] *)
Fixpoint meta_fields_get (fm : meta_fields) (key : string) : option field_obj :=
  match fm with
  | [] => None
  | (k, f) :: fm' => if String.eqb k key then Some f else meta_fields_get fm' key
  end.

(** [isinstance(field_obj, (fields.ForeignKeyField, fields.OneToOneField))] *)
Definition is_to_one (c : orm.field_class) : bool :=
  match c with
  | orm.ForeignKeyField | orm.OneToOneField => true
  | _ => false
  end.

(** What the sequence to convert is: a list or a tuple. *)
Inductive sequence_kind : Type := a_list | a_tuple.

Definition sequence_type_name (kind : sequence_kind) : string :=
  match kind with
  | a_list => "list"
  | a_tuple => "tuple"
  end.

(** [fields.RelationalField] as [convert_fields_list] evaluates it.  The
    keyword parameter [fields] of the method, the sequence to convert, hides
    the module [fields] of the ORM in its body, and the sequence has no
    attribute of that name: the lookup raises. *)
Definition fields_attribute {A : Type} (kind : sequence_kind) (attr : string) : res A :=
  Raise (OtherException "AttributeError"
           ("'" +:+ sequence_type_name kind +:+ "' object has no attribute '"
            +:+ attr +:+ "'")).

Section BaseTortoiseModelConverter.
  (** [self.converters], and [slugify_class_name] of the host framework. *)
  Variable converters : gmap string converter.
  Variable slugify_class_name : string -> string.

(** [convert( *args, **kwargs )], called with [name=] and [field=]. *)
Definition convert (name : string) (field : field_obj) : res base_field :=
  res_bind (tortoise_admin.BaseTortoiseModelConverter.get_converter converters (fo_type field))
           (fun conv => conv name field).

(** The field of the host framework for a relation of the model. *)
Definition relation_field (field_obj : field_obj) : base_field :=
  let identity := slugify_class_name (related_model_name field_obj) in
  {| bf_class := if is_to_one (fo_class field_obj) then "HasOne" else "HasMany";
     bf_kwargs := [("name", PStr (model_field_name field_obj));
                   ("identity", PStr identity)] |}.

(** One turn of the loop of [convert_fields_list], on a sequence of the
    given kind: the class [fields.RelationalField] is looked up before
    [isinstance] is called. *)
Definition convert_field (kind : sequence_kind) (fm : meta_fields) (field : field_spec)
  : res base_field :=
  match field with
  | Given field => Ok field
  | Named field =>
      match meta_fields_get fm field with
      | None => Raise (ValueError ("Can't find field with name " +:+ field))
      | Some field_obj =>
          res_bind (fields_attribute kind "RelationalField") (fun _ : unit =>
          if orm.is_RelationalField (fo_class field_obj)
          then Ok (relation_field field_obj)
          else convert field field_obj)
      end
  end.

(** [convert_fields_list(fields=fields, model=model)], given what kind of
    sequence [fields] is and [model._meta.fields_map]. *)
Definition convert_fields_list (kind : sequence_kind) (fields : list field_spec)
    (fm : meta_fields) : res (list base_field) :=
  res_map (convert_field kind fm) fields.

End BaseTortoiseModelConverter.

(** [ModelConverter] *)

Definition _field_common (name : string) (field : field_obj) : dict :=
  [("name", PStr name);
   ("help_text", description field);
   ("required", PBool (negb (null field) && negb (generated field)))].

Definition _string_common (field : field_obj) : dict :=
  match max_length field with
  | Some length => if py_truthy length then [("maxlength", length)] else []
  | None => []
  end.

Definition conv_string : converter := fun name field =>
  Ok {| bf_class := "StringField";
        bf_kwargs := _field_common name field ++ _string_common field |}.

Definition conv_text : converter := fun name field =>
  Ok {| bf_class := "TextAreaField";
        bf_kwargs := _field_common name field ++ _string_common field |}.

Definition conv_boolean : converter := fun name field =>
  Ok {| bf_class := "BooleanField"; bf_kwargs := _field_common name field |}.

Definition conv_datetime : converter := fun name field =>
  Ok {| bf_class := "DateTimeField"; bf_kwargs := _field_common name field |}.

Definition conv_date : converter := fun name field =>
  Ok {| bf_class := "DateField"; bf_kwargs := _field_common name field |}.

Definition conv_time : converter := fun name field =>
  Ok {| bf_class := "TimeField"; bf_kwargs := _field_common name field |}.

Definition conv_integer : converter := fun name field =>
  let extra := _field_common name field in
  let extra := match minimum field with
               | Some v => dict_set extra "min" v
               | None => extra
               end in
  let extra := match maximum field with
               | Some v => dict_set extra "max" v
               | None => extra
               end in
  Ok {| bf_class := "IntegerField"; bf_kwargs := extra |}.

Definition conv_float : converter := fun name field =>
  Ok {| bf_class := "FloatField"; bf_kwargs := _field_common name field |}.

Definition conv_decimal : converter := fun name field =>
  Ok {| bf_class := "DecimalField"; bf_kwargs := _field_common name field |}.

Definition conv_json : converter := fun name field =>
  Ok {| bf_class := "JSONField"; bf_kwargs := _field_common name field |}.

Definition conv_email : converter := fun name field =>
  Ok {| bf_class := "EmailField";
        bf_kwargs := _field_common name field ++ _string_common field |}.

Definition conv_url : converter := fun name field =>
  Ok {| bf_class := "URLField";
        bf_kwargs := _field_common name field ++ _string_common field |}.

(** The names the [converts] decorations of [ModelConverter] give, each with
    the method it decorates. *)
Definition decorated : list (string * converter) :=
  [("CharField", conv_string); ("UUIDField", conv_string);
   ("TextField", conv_text);
   ("BooleanField", conv_boolean);
   ("DatetimeField", conv_datetime);
   ("DateField", conv_date);
   ("TimeField", conv_time);
   ("IntField", conv_integer); ("SmallIntField", conv_integer);
   ("BigIntField", conv_integer);
   ("FloatField", conv_float);
   ("DecimalField", conv_decimal);
   ("JSONField", conv_json);
   ("EmailField", conv_email);
   ("URLField", conv_url)].

(** The converters of a [ModelConverter] made without converters of the
    caller's: the decorated methods, under their names. *)
Definition ModelConverter_converters : gmap string converter := list_to_map decorated.

End converters.

(** *** Conversion *)

(** The attributes every converter of [ModelConverter] gives a field. *)
Definition common_attributes (name : string) (field : converters.field_obj)
    (ui : converters.base_field) : Prop :=
  dict_get (converters.bf_kwargs ui) "name" = Some (PStr name)
  /\ dict_get (converters.bf_kwargs ui) "help_text" = Some (converters.description field)
  /\ dict_get (converters.bf_kwargs ui) "required"
     = Some (PBool (negb (converters.null field) && negb (converters.generated field))).

(** The error of the lookup of [RelationalField] on the sequence to
    convert. *)
Definition shadowed_fields_error (kind : converters.sequence_kind) : exn :=
  OtherException "AttributeError"
    (match kind with
     | converters.a_list => "'list' object has no attribute 'RelationalField'"
     | converters.a_tuple => "'tuple' object has no attribute 'RelationalField'"
     end).

(** * Properties *)

(** ** Composite primary keys *)

Lemma char_in_truthy (c : ascii) (s : string) :
  char_in c s = true -> py_truthy (PStr s) = true.
Proof. destruct s; [discriminate | reflexivity]. Qed.

Lemma forallb_nonempty_false (parts : list string) :
  In "" parts -> forallb nonempty parts = false.
Proof.
  induction parts as [|p ps IH]; simpl; [tauto |].
  intros [-> | Hin]; [reflexivity |].
  rewrite (IH Hin). apply andb_false_r.
Qed.

Lemma parse_value_empty_part (name s : string) :
  has_empty_part s ->
  tortoise_admin.MultiplePKField.parse_value name (PStr s)
  = Raise (FormValidationError
             [(name, "All parts of composite primary key must be provided")]).
Proof.
  intros [Hcomma Hpart]. unfold tortoise_admin.MultiplePKField.parse_value.
  rewrite (char_in_truthy _ _ Hcomma). simpl. rewrite Hcomma.
  by rewrite (forallb_nonempty_false _ Hpart).
Qed.

(** C1, as the code has it.  The field of [tortoise_admin] makes the round
    trip: the tuple ("1", "2") is shown as "1,2", "1,2" is read back as that
    tuple, the empty string and [None] are read as [None], a string with a
    comma and an empty part ("1," among them) raises the validation error of
    the field, and [None] is shown as the empty string.  The field of
    [tortoise] shows the tuple the same way, but reads "1,2" as a list, gives
    the empty string back, reads "1," as the list of "1" and the empty string
    without raising, and shows [None] as the text None. *)
Theorem composite_key_field_round_trip (name : string) :
  composite_key_round_trip
    tortoise_admin.MultiplePKField.serialize_value
    (tortoise_admin.MultiplePKField.parse_value name)
  /\ tortoise_admin.MultiplePKField.parse_value name (PStr "1,")
     = Raise (FormValidationError
                [(name, "All parts of composite primary key must be provided")])
  /\ tortoise.MultiplePKField.serialize_value (PTuple [PStr "1"; PStr "2"]) = "1,2"
  /\ tortoise.MultiplePKField.parse_value (PStr "1,2") = PList [PStr "1"; PStr "2"]
  /\ tortoise.MultiplePKField.parse_value (PStr "") = PStr ""
  /\ tortoise.MultiplePKField.parse_value PNone = PNone
  /\ tortoise.MultiplePKField.parse_value (PStr "1,") = PList [PStr "1"; PStr ""]
  /\ tortoise.MultiplePKField.serialize_value PNone = "None".
Proof.
  split; [| repeat split].
  unfold composite_key_round_trip. repeat split; try reflexivity.
  - eexists. reflexivity.
  - intros s Hs. eexists. by apply parse_value_empty_part.
Qed.

(** C1 fails on the field of [tortoise]: it reads the empty string as the
    empty string, not as [None]. *)
Lemma first_generation_field_no_round_trip :
  ~ composite_key_round_trip
      tortoise.MultiplePKField.serialize_value
      (fun value => Ok (tortoise.MultiplePKField.parse_value value)).
Proof.
  intros (_ & _ & Hempty & _). vm_compute in Hempty. discriminate.
Qed.

Lemma char_in_cons (c a : ascii) (s : string) :
  char_in c (String a s) = Ascii.eqb c a || char_in c s.
Proof. reflexivity. Qed.

Lemma py_split_cons (sep c : ascii) (s : string) :
  py_split sep (String c s)
  = if Ascii.eqb c sep then EmptyString :: py_split sep s
    else match py_split sep s with
         | [] => [String c EmptyString]
         | p :: ps => String c p :: ps
         end.
Proof. reflexivity. Qed.

Lemma py_split_before (sep : ascii) (p rest : string) :
  char_in sep p = false ->
  py_split sep (p +:+ String sep rest) = p :: py_split sep rest.
Proof.
  induction p as [|c p IH]; intros Hp.
  - change (EmptyString +:+ String sep rest) with (String sep rest).
    by rewrite py_split_cons, Ascii.eqb_refl.
  - rewrite char_in_cons in Hp. apply orb_false_elim in Hp as [Hc Hp].
    change (String c p +:+ String sep rest) with (String c (p +:+ String sep rest)).
    rewrite py_split_cons, (IH Hp).
    rewrite Ascii.eqb_sym in Hc. by rewrite Hc.
Qed.

Lemma py_split_whole (sep : ascii) (p : string) :
  char_in sep p = false -> py_split sep p = [p].
Proof.
  induction p as [|c p IH]; intros Hp; [reflexivity |].
  rewrite char_in_cons in Hp. apply orb_false_elim in Hp as [Hc Hp].
  rewrite py_split_cons, (IH Hp). rewrite Ascii.eqb_sym in Hc. by rewrite Hc.
Qed.

Lemma py_split_join (sep : ascii) (parts : list string) :
  parts <> [] ->
  Forall (fun p => char_in sep p = false) parts ->
  py_split sep (py_join (String sep EmptyString) parts) = parts.
Proof.
  induction parts as [|p parts IH]; [done |]. intros _ Hall.
  apply Forall_cons in Hall as [Hp Hall].
  destruct parts as [|q parts]; [by apply py_split_whole |].
  change (py_join (String sep EmptyString) (p :: q :: parts))
    with (p +:+ String sep (py_join (String sep EmptyString) (q :: parts))).
  rewrite (py_split_before _ _ _ Hp), IH; done.
Qed.

Lemma char_in_append (c : ascii) (p rest : string) :
  char_in c (p +:+ String c rest) = true.
Proof.
  induction p as [|a p IH].
  - change (EmptyString +:+ String c rest) with (String c rest).
    by rewrite char_in_cons, Ascii.eqb_refl.
  - change (String a p +:+ String c rest) with (String a (p +:+ String c rest)).
    rewrite char_in_cons, IH. apply orb_true_r.
Qed.

(** What is shown for two or more parts, none of them empty or with a comma
    in it, is read back as the tuple of the parts. *)
Lemma shown_parts_read_back (name : string) (parts : list string) :
  (2 <= length parts)%nat ->
  Forall (fun p => char_in "," p = false) parts ->
  forallb nonempty parts = true ->
  tortoise_admin.MultiplePKField.parse_value name (PStr (py_join "," parts))
  = Ok (PTuple (map PStr parts)).
Proof.
  intros Hlen Hcomma Hnonempty.
  destruct parts as [|p [|q parts]]; [cbn in Hlen; lia | cbn in Hlen; lia |].
  assert (Hin : char_in "," (py_join "," (p :: q :: parts)) = true)
    by apply char_in_append.
  unfold tortoise_admin.MultiplePKField.parse_value.
  rewrite (char_in_truthy _ _ Hin). cbn [negb]. rewrite Hin.
  cbv zeta. rewrite (py_split_join "," (p :: q :: parts)) by done.
  by rewrite Hnonempty.
Qed.

Lemma forallb_texts (f : string -> bool) (parts : list pyval) :
  forallb f (map py_str parts) = forallb (fun p => f (py_str p)) parts.
Proof.
  induction parts as [|p parts IH]; [reflexivity |]. cbn [map forallb]. by rewrite IH.
Qed.

Lemma texts_are_parts (parts : list pyval) :
  map (fun p => PStr (py_str p)) parts = parts <-> forallb is_str parts = true.
Proof.
  induction parts as [|p parts IH]; [done |]. cbn [map forallb]. split.
  - intros [= Hp Hparts]. apply andb_true_intro. split; [| by apply IH].
    by destruct p.
  - intros H. apply andb_prop in H as [Hp Hparts]. f_equal; [| by apply IH].
    by destruct p.
Qed.

(** X5.  The round trip in general.  A key of two or more parts, the text of
    none of them empty or with a comma in it, is read back from what it is
    shown as, as the tuple of the texts of its parts: that is the key itself
    exactly when every part is a string, and the key (1, 2) is read back as
    ("1", "2"). *)
Lemma composite_key_parts_round_trip (name : string) (parts : list pyval) :
  (2 <= length parts)%nat ->
  Forall (fun p => char_in "," (py_str p) = false) parts ->
  forallb (fun p => nonempty (py_str p)) parts = true ->
  tortoise_admin.MultiplePKField.parse_value name
    (PStr (tortoise_admin.MultiplePKField.serialize_value (PTuple parts)))
  = Ok (PTuple (map (fun p => PStr (py_str p)) parts))
  /\ (tortoise_admin.MultiplePKField.parse_value name
        (PStr (tortoise_admin.MultiplePKField.serialize_value (PTuple parts)))
      = Ok (PTuple parts)
      <-> forallb is_str parts = true).
Proof.
  intros Hlen Hcomma Hnonempty.
  assert (Hread : tortoise_admin.MultiplePKField.parse_value name
                    (PStr (tortoise_admin.MultiplePKField.serialize_value (PTuple parts)))
                  = Ok (PTuple (map (fun p => PStr (py_str p)) parts))).
  { unfold tortoise_admin.MultiplePKField.serialize_value.
    rewrite shown_parts_read_back.
    - by rewrite map_map.
    - by rewrite length_map.
    - apply List.Forall_map. exact Hcomma.
    - by rewrite forallb_texts. }
  split; [exact Hread |]. rewrite Hread, <- texts_are_parts. split.
  - by intros [= ->].
  - by intros ->.
Qed.

(** ** List normalization *)

Lemma res_map_plain (l : list pyval) :
  res_map (tortoise.normalize_entry false) l
  = match find (fun v => negb (is_str v)) l with
    | None => Ok l
    | Some v => Raise (ValueError ("Expected str, got " +:+ type_name v))
    end.
Proof.
  induction l as [|v l IH]; [reflexivity |].
  simpl. unfold tortoise.normalize_entry at 1.
  destruct (is_str v) eqn:Hv; simpl.
  - rewrite IH. by destruct (find _ l).
  - by rewrite andb_false_r.
Qed.

(** C4, as the code has it.  In plain mode, [normalize_list] of [tortoise]
    gives a list of strings back as it is and, when an element is not a
    string, raises the error that names the type of the first such element;
    [normalize_list] of [tortoise_admin] checks nothing and gives every list
    back as it is. *)
Theorem plain_mode_normalization (l : list pyval) :
  tortoise.normalize_list (Some l) false
  = match find (fun v => negb (is_str v)) l with
    | None => Ok (Some l)
    | Some v => Raise (ValueError ("Expected str, got " +:+ type_name v))
    end
  /\ tortoise_admin.normalize_list (PList l) false = l
  /\ tortoise_admin.normalize_list (PTuple l) false = l.
Proof.
  repeat split. unfold tortoise.normalize_list. rewrite res_map_plain.
  by destruct (find _ l).
Qed.

(** C4 fails on [normalize_list] of [tortoise_admin]: the list [[1]] has an
    element that is not a string and is returned, nothing is raised. *)
Lemma second_generation_plain_mode_accepts_non_strings :
  tortoise_admin.normalize_list (PList [PInt 1]) false = [PInt 1]
  /\ ~ (forall l : list pyval,
          forallb is_str l = false ->
          exists e, Ok (tortoise_admin.normalize_list (PList l) false) = Raise e).
Proof.
  split; [reflexivity |].
  intros H. destruct (H [PInt 1] eq_refl) as [e He]. discriminate.
Qed.

Lemma normalize_entry_sort (v : pyval) :
  tortoise.normalize_entry true v
  = if sort_entry_ok v then Ok (sort_entry_canon v)
    else Raise (ValueError (if is_tuple v
                            then "Invalid argument, Expected Tuple[str, bool]"
                            else "Expected str, got " +:+ type_name v)).
Proof.
  destruct v as [| | | |? ? ?|?|l]; try reflexivity.
  destruct l as [|[] [|[] [|? ?]]]; reflexivity.
Qed.

Lemma res_map_sort (l : list pyval) :
  res_map (tortoise.normalize_entry true) l
  = match find (fun v => negb (sort_entry_ok v)) l with
    | None => Ok (map sort_entry_canon l)
    | Some v => Raise (ValueError (if is_tuple v
                                   then "Invalid argument, Expected Tuple[str, bool]"
                                   else "Expected str, got " +:+ type_name v))
    end.
Proof.
  induction l as [|v l IH]; [reflexivity |].
  cbn [res_map find map]. rewrite normalize_entry_sort.
  destruct (sort_entry_ok v); simpl; [| reflexivity].
  rewrite IH. by destruct (find _ l).
Qed.

(** C5, as the code has it.  In default-sort mode, [normalize_list] of
    [tortoise] turns each bare name into the pair of the name and [False],
    leaves each pair of a name and a flag as it is, and raises a
    [ValueError] at the first element of any other shape;
    [normalize_list] of [tortoise_admin] pairs the bare names with [False]
    and leaves every other element as it is, whatever its shape. *)
Theorem default_sort_normalization (l : list pyval) :
  tortoise.normalize_list (Some l) true
  = match find (fun v => negb (sort_entry_ok v)) l with
    | None => Ok (Some (map sort_entry_canon l))
    | Some v => Raise (ValueError (if is_tuple v
                                   then "Invalid argument, Expected Tuple[str, bool]"
                                   else "Expected str, got " +:+ type_name v))
    end
  /\ tortoise_admin.normalize_list (PList l) true = map sort_entry_canon l
  /\ tortoise_admin.normalize_list (PTuple l) true = map sort_entry_canon l.
Proof.
  assert (Hmap : map (fun v => if is_str v then PTuple [v; PBool false] else v) l
                 = map sort_entry_canon l).
  { apply map_ext. by intros []. }
  repeat split; try exact Hmap.
  unfold tortoise.normalize_list. rewrite res_map_sort. by destruct (find _ l).
Qed.

(** C5 fails on [normalize_list] of [tortoise_admin]: the element [1] is
    neither a name nor a pair and is returned, nothing is raised. *)
Lemma second_generation_default_sort_accepts_any_shape :
  tortoise_admin.normalize_list (PList [PInt 1]) true = [PInt 1]
  /\ ~ (forall l : list pyval,
          forallb sort_entry_ok l = false ->
          exists e, Ok (tortoise_admin.normalize_list (PList l) true) = Raise e).
Proof.
  split; [reflexivity |].
  intros H. destruct (H [PInt 1] eq_refl) as [e He]. discriminate.
Qed.

(** ** Search predicates *)

Lemma string_length_append (s t : string) :
  String.length (s +:+ t) = (String.length s + String.length t)%nat.
Proof. induction s as [|c s IH]; simpl; [reflexivity | by rewrite IH]. Qed.

Lemma strip_suffix_append (suffix s : string) :
  strip_suffix suffix (s +:+ suffix) = Some s.
Proof.
  induction s as [|c s IH].
  - change (EmptyString +:+ suffix) with suffix.
    destruct suffix; cbn [strip_suffix]; by rewrite String.eqb_refl.
  - change (strip_suffix suffix (String c s +:+ suffix))
      with (if String.eqb (String c (s +:+ suffix)) suffix then Some EmptyString
            else option_map (String c) (strip_suffix suffix (s +:+ suffix))).
    destruct (String.eqb_spec (String c (s +:+ suffix)) suffix) as [Heq | _].
    + apply (f_equal String.length) in Heq. simpl in Heq.
      rewrite string_length_append in Heq. lia.
    + by rewrite IH.
Qed.

Lemma Q_holds_filter (r : row) (key : string) (value : pyval) :
  Q_holds r (Q_filter key value) = filter_holds r (key, value).
Proof. unfold Q_filter. cbn -[filter_holds]. apply andb_true_r. Qed.

Lemma Q_holds_icontains (r : row) (column term : string) :
  Q_holds r (Q_filter (column +:+ "__icontains") (PStr term)) = icontains r column term.
Proof.
  rewrite Q_holds_filter. unfold filter_holds. by rewrite strip_suffix_append.
Qed.

Lemma existsb_id_map {A : Type} (g : A -> bool) (l : list A) :
  existsb id (map g l) = existsb g l.
Proof. induction l as [|x l IH]; [reflexivity |]. simpl. by rewrite IH. Qed.

Lemma Q_holds_any (r : row) (term : string) (fields : list string) :
  Q_holds r (Q_join OR (map (fun field => Q_filter (field +:+ "__icontains") (PStr term))
                            fields))
  = if is_nil fields then true
    else existsb (fun field => icontains r field term) fields.
Proof.
  unfold Q_join. cbn [Q_holds]. rewrite app_nil_r, map_map.
  rewrite (map_ext _ (fun field => icontains r field term))
    by (intros; apply Q_holds_icontains).
  destruct fields as [|f fs]; [reflexivity |].
  rewrite <- (existsb_id_map (fun field => icontains r field term) (f :: fs)).
  reflexivity.
Qed.

(** C6, as the code has it.  [build_search_query] of [tortoise_admin]
    returns the empty node, which holds of every row, when there is no field
    or the term is empty, and otherwise the OR of one [icontains] filter per
    field, which holds of a row exactly when some field contains the term,
    letter case apart.  [get_search_query] of [tortoise] returns the empty
    node only when there is no field; with fields it returns the OR of the
    filters for every term, the empty one too. *)
Theorem search_predicate (term : string) (fields : list string) (r : row) :
  tortoise_admin.build_search_query term fields
  = (if is_nil fields || String.eqb term "" then Q_empty
     else Q_join OR (map (fun field => Q_filter (field +:+ "__icontains") (PStr term))
                         fields))
  /\ Q_holds r (tortoise_admin.build_search_query term fields)
     = (if is_nil fields || String.eqb term "" then true
        else existsb (fun field => icontains r field term) fields)
  /\ tortoise_admin.ModelView.get_search_query fields term
     = tortoise_admin.build_search_query term fields
  /\ tortoise.ModelView.get_search_query None term = Q_empty
  /\ tortoise.ModelView.get_search_query (Some fields) term
     = (if is_nil fields then Q_empty
        else Q_join OR (map (fun field => Q_filter (field +:+ "__icontains") (PStr term))
                            fields))
  /\ Q_holds r (tortoise.ModelView.get_search_query (Some fields) term)
     = (if is_nil fields then true
        else existsb (fun field => icontains r field term) fields).
Proof.
  split; [reflexivity |]. split.
  { unfold tortoise_admin.build_search_query.
    destruct (is_nil fields || String.eqb term "") eqn:Hguard;
      [reflexivity |].
    rewrite Q_holds_any. apply orb_false_elim in Hguard as [-> _]. reflexivity. }
  split; [reflexivity |]. split; [reflexivity |].
  assert (Hshape : tortoise.ModelView.get_search_query (Some fields) term
    = (if is_nil fields then Q_empty
       else Q_join OR (map (fun field => Q_filter (field +:+ "__icontains") (PStr term))
                           fields))).
  { by destruct fields. }
  split; [exact Hshape |].
  rewrite Hshape. destruct fields as [|f fs] eqn:Hf; [reflexivity |].
  cbn [is_nil]. by rewrite Q_holds_any.
Qed.

(** C6 fails on [get_search_query] of [tortoise]: with the field [name] and
    the empty term the result is not the empty node, and it does not hold of
    a row whose [name] is NULL. *)
Lemma first_generation_search_empty_term :
  tortoise.ModelView.get_search_query (Some ["name"]) "" <> Q_empty
  /\ Q_holds [("name", None)] (tortoise.ModelView.get_search_query (Some ["name"]) "") = false
  /\ Q_holds [("name", None)] Q_empty = true.
Proof. repeat split. discriminate. Qed.

(** ** Converter lookup *)

Lemma find_converter_first_hit {C : Type} (converters : gmap string C)
    (mro : list tortoise_admin.py_class) :
  tortoise_admin.BaseTortoiseModelConverter.find_converter_for_field_type converters mro
  = first_hit converters (lookup_keys mro).
Proof.
  induction mro as [|base bases IH]; [reflexivity |].
  cbn [tortoise_admin.BaseTortoiseModelConverter.find_converter_for_field_type
       lookup_keys flat_map app first_hit].
  rewrite IH. reflexivity.
Qed.

(** C9.  The lookup returns the converter registered under the first key,
    among the qualified name and then the bare name of each class of the
    resolution order, that is registered; [get_converter] returns it, and
    raises [NotSupportedColumn] with the field in its message when no key is
    registered. *)
Theorem converter_lookup {C : Type} (converters : gmap string C)
    (field : tortoise_admin.orm_field_obj) :
  tortoise_admin.BaseTortoiseModelConverter.find_converter_for_field_type
    converters (tortoise_admin.fld_mro field)
  = first_hit converters (lookup_keys (tortoise_admin.fld_mro field))
  /\ tortoise_admin.BaseTortoiseModelConverter.get_converter converters field
     = match first_hit converters (lookup_keys (tortoise_admin.fld_mro field)) with
       | Some converter => Ok converter
       | None => Raise (NotSupportedColumn (not_supported_message field))
       end.
Proof.
  split; [apply find_converter_first_hit |].
  unfold tortoise_admin.BaseTortoiseModelConverter.get_converter.
  rewrite find_converter_first_hit. reflexivity.
Qed.

(** ** Order clauses *)

Lemma lstrip_split_ws (s : string) : py_split_ws (py_lstrip s) = py_split_ws s.
Proof.
  induction s as [|c s IH]; [reflexivity |].
  cbn [py_lstrip]. destruct (py_isspace c) eqn:Hc; [| reflexivity].
  rewrite IH. cbn [py_split_ws]. by rewrite Hc.
Qed.

Lemma lstrip_head (s : string) (c : ascii) (t : string) :
  py_lstrip s = String c t -> py_isspace c = false.
Proof.
  induction s as [|a s IH]; [discriminate |].
  cbn [py_lstrip]. destruct (py_isspace a) eqn:Ha; [exact IH |].
  intros [= <- _]. exact Ha.
Qed.

Lemma lstrip_fixed (c : ascii) (s : string) :
  py_isspace c = false -> py_lstrip (String c s) = String c s.
Proof. intros Hc. cbn [py_lstrip]. by rewrite Hc. Qed.

Lemma rstrip_cons (c : ascii) (s : string) :
  py_rstrip (String c s)
  = match py_rstrip s with
    | EmptyString => if py_isspace c then EmptyString else String c EmptyString
    | r => String c r
    end.
Proof. reflexivity. Qed.

Lemma rstrip_head (s : string) (c : ascii) (t : string) :
  py_rstrip s = String c t -> exists s', s = String c s'.
Proof.
  destruct s as [|a s]; [discriminate |].
  rewrite rstrip_cons. destruct (py_rstrip s); [destruct (py_isspace a) |];
    intros [= <- _]; eauto.
Qed.

Lemma rstrip_idem (s : string) : py_rstrip (py_rstrip s) = py_rstrip s.
Proof.
  induction s as [|c s IH]; [reflexivity |].
  rewrite rstrip_cons. destruct (py_rstrip s) as [|a r] eqn:Hr.
  - destruct (py_isspace c) eqn:Hc; [reflexivity |].
    rewrite rstrip_cons. cbn [py_rstrip]. by rewrite Hc.
  - rewrite rstrip_cons, IH. reflexivity.
Qed.

Lemma rstrip_tail (c : ascii) (s : string) :
  py_rstrip (String c s) = String c s -> py_rstrip s = s.
Proof.
  rewrite rstrip_cons. destruct (py_rstrip s) as [|a r] eqn:Hr.
  - destruct (py_isspace c); [discriminate |]. by intros [= <-].
  - by intros [= <-].
Qed.

Lemma rstrip_lstrip (s : string) :
  py_rstrip s = s -> py_rstrip (py_lstrip s) = py_lstrip s.
Proof.
  induction s as [|c s IH]; [reflexivity |].
  intros Hs. cbn [py_lstrip]. destruct (py_isspace c); [| exact Hs].
  apply IH. by apply rstrip_tail in Hs.
Qed.

Lemma rstrip_split_ws (s : string) : py_split_ws (py_rstrip s) = py_split_ws s.
Proof.
  induction s as [|c s IH]; [reflexivity |].
  rewrite rstrip_cons. destruct (py_rstrip s) as [|a r] eqn:Hr.
  - cbn [py_split_ws] in IH |- *.
    destruct (py_isspace c) eqn:Hc; [exact IH |].
    cbn [py_split_ws]. rewrite Hc.
    destruct s as [|c' s']; [reflexivity |].
    destruct (py_isspace c'); by rewrite <- IH.
  - destruct (rstrip_head _ _ _ Hr) as [s' ->].
    cbn [py_split_ws] in IH |- *.
    destruct (py_isspace c); [exact IH |].
    destruct (py_isspace a); by rewrite IH.
Qed.

Lemma split_ws_nil_rstrip (s : string) : py_split_ws s = [] -> py_rstrip s = "".
Proof.
  induction s as [|c s IH]; [reflexivity |].
  cbn [py_split_ws]. destruct (py_isspace c) eqn:Hc.
  - intros Hs. rewrite rstrip_cons, (IH Hs), Hc. reflexivity.
  - destruct s as [|c' s']; [discriminate |].
    destruct (py_isspace c'); [discriminate |].
    destruct (py_split_ws (String c' s')); discriminate.
Qed.

Lemma take_token_cons (c : ascii) (s : string) :
  take_token (String c s)
  = if py_isspace c then (EmptyString, String c s)
    else let (tok, rest) := take_token s in (String c tok, rest).
Proof. reflexivity. Qed.

Lemma split_ws_cons (c : ascii) (s : string) :
  py_split_ws (String c s)
  = if py_isspace c then py_split_ws s
    else match s with
         | EmptyString => [String c EmptyString]
         | String c' _ =>
             if py_isspace c' then String c EmptyString :: py_split_ws s
             else match py_split_ws s with
                  | t :: ts => String c t :: ts
                  | [] => [String c EmptyString]
                  end
         end.
Proof. reflexivity. Qed.

Lemma take_token_split_ws (s : string) (c : ascii) (tok rest : string) :
  py_isspace c = false ->
  take_token (String c s) = (tok, rest) ->
  py_split_ws (String c s) = tok :: py_split_ws rest.
Proof.
  revert c tok rest. induction s as [|c' s IH]; intros c tok rest Hc.
  - rewrite take_token_cons, Hc. cbn. intros [= <- <-]. by rewrite Hc.
  - rewrite take_token_cons, Hc, split_ws_cons, Hc.
    destruct (py_isspace c') eqn:Hc'.
    + rewrite take_token_cons, Hc'. by intros [= <- <-].
    + destruct (take_token (String c' s)) as [tok' rest'] eqn:Htok.
      intros [= <- <-]. by rewrite (IH _ _ _ Hc' Htok).
Qed.

Lemma take_token_rstrip (s tok rest : string) :
  take_token s = (tok, rest) -> py_rstrip s = s -> py_rstrip rest = rest.
Proof.
  revert tok rest. induction s as [|c s IH]; intros tok rest.
  - by intros [= <- <-].
  - rewrite take_token_cons. destruct (py_isspace c).
    + by intros [= <- <-].
    + destruct (take_token s) as [tok' rest'] eqn:Htok. intros [= <- <-] Hs.
      eapply IH; [reflexivity |]. by apply rstrip_tail in Hs.
Qed.

Lemma has_space_cons (c : ascii) (s : string) :
  has_space (String c s) = py_isspace c || has_space s.
Proof. reflexivity. Qed.

Lemma take_token_has_space (s tok rest : string) :
  take_token s = (tok, rest) -> has_space s = has_space rest.
Proof.
  revert tok rest. induction s as [|c s IH]; intros tok rest.
  - by intros [= <- <-].
  - rewrite take_token_cons. destruct (py_isspace c) eqn:Hc.
    + by intros [= <- <-].
    + destruct (take_token s) as [tok' rest'] eqn:Htok. intros [= <- <-].
      rewrite has_space_cons, Hc. simpl. by eapply IH.
Qed.

Lemma take_token_no_space (s tok rest : string) :
  take_token s = (tok, rest) -> has_space s = false -> tok = s /\ rest = "".
Proof.
  revert tok rest. induction s as [|c s IH]; intros tok rest.
  - by intros [= <- <-].
  - rewrite take_token_cons, has_space_cons.
    destruct (py_isspace c); [intros _ [=] |].
    destruct (take_token s) as [tok' rest'] eqn:Htok. intros [= <- <-] Hs.
    destruct (IH _ _ eq_refl Hs) as [-> ->]. done.
Qed.

(** A stripped string without whitespace is its own single token; with
    whitespace inside it has at least two tokens. *)
Lemma stripped_tokens (c : ascii) (s : string) :
  py_isspace c = false ->
  py_rstrip (String c s) = String c s ->
  if has_space (String c s)
  then exists a b l, py_split_ws (String c s) = a :: b :: l
  else py_split_ws (String c s) = [String c s].
Proof.
  intros Hc Hfix.
  destruct (take_token (String c s)) as [tok rest] eqn:Htok.
  rewrite (take_token_split_ws _ _ _ _ Hc Htok).
  destruct (has_space (String c s)) eqn:Hsp.
  - pose proof (take_token_rstrip _ _ _ Htok Hfix) as Hrest.
    rewrite (take_token_has_space _ _ _ Htok) in Hsp.
    destruct (py_split_ws rest) as [|b l] eqn:Hsplit; [| eauto].
    apply split_ws_nil_rstrip in Hsplit. rewrite Hrest in Hsplit.
    subst rest. discriminate.
  - by destruct (take_token_no_space _ _ _ Htok Hsp) as [-> ->].
Qed.

Lemma lower_char_space (c : ascii) : py_isspace (lower_char c) = py_isspace c.
Proof. destruct c as [[] [] [] [] [] [] [] []]; reflexivity. Qed.

Lemma lower_has_space (s : string) : has_space (py_lower s) = has_space s.
Proof.
  induction s as [|c s IH]; [reflexivity |].
  cbn [py_lower]. by rewrite !has_space_cons, lower_char_space, IH.
Qed.

Lemma order_clause_key (value : string) :
  tortoise_admin.order_clause value = order_key value.
Proof.
  unfold tortoise_admin.order_clause, order_key, py_split_ws_max1.
  rewrite <- (lstrip_split_ws value), <- (rstrip_split_ws (py_lstrip value)).
  fold (py_strip value).
  assert (Hfix : py_rstrip (py_strip value) = py_strip value) by apply rstrip_idem.
  destruct (py_strip value) as [|c t] eqn:Ht; [reflexivity |].
  assert (Hc : py_isspace c = false).
  { unfold py_strip in Ht. destruct (rstrip_head _ _ _ Ht) as [s' Hs'].
    by apply lstrip_head in Hs'. }
  rewrite (lstrip_fixed _ _ Hc).
  destruct (take_token (String c t)) as [tok rest] eqn:Htok.
  rewrite (take_token_split_ws _ _ _ _ Hc Htok), <- (lstrip_split_ws rest).
  pose proof (rstrip_lstrip _ (take_token_rstrip _ _ _ Htok Hfix)) as Hrest.
  destruct (py_lstrip rest) as [|c2 r2] eqn:Hr; [reflexivity |].
  pose proof (stripped_tokens c2 r2 (lstrip_head _ _ _ Hr) Hrest) as Htokens.
  destruct (has_space (String c2 r2)) eqn:Hsp.
  - destruct Htokens as (a & b & l & ->).
    destruct (String.eqb_spec (py_lower (String c2 r2)) "desc") as [Heq | _];
      [| reflexivity].
    apply (f_equal has_space) in Heq. rewrite lower_has_space, Hsp in Heq.
    discriminate.
  - rewrite Htokens. by destruct (String.eqb _ _).
Qed.

(** C7, as the code has it.  [build_order_query] turns each entry into its
    ordering key and stops at the first entry that raises: an entry of two
    whitespace-separated tokens gives the field with a leading [-] when the
    direction is [desc] in any letter case, and the plain field otherwise;
    an entry of fewer than two tokens raises; an entry of more than two
    tokens is accepted and gives the plain field. *)
Theorem order_clause_builder (order_by : list string) :
  tortoise_admin.build_order_query order_by = res_map order_key order_by.
Proof.
  unfold tortoise_admin.build_order_query.
  induction order_by as [|value order_by IH]; [reflexivity |].
  cbn [res_map]. by rewrite order_clause_key, IH.
Qed.

(** C7 fails on an entry of three tokens: it is not exactly two tokens, and
    it is accepted as an ascending key. *)
Lemma three_token_entry_accepted :
  py_split_ws "price desc nulls" = ["price"; "desc"; "nulls"]
  /\ tortoise_admin.build_order_query ["price desc nulls"] = Ok ["price"]
  /\ ~ (forall value : string,
          length (py_split_ws value) <> 2%nat ->
          exists e, tortoise_admin.build_order_query [value] = Raise e).
Proof.
  split; [reflexivity |]. split; [reflexivity |].
  intros H. destruct (H "price desc nulls") as [e He]; [simpl; lia |].
  discriminate.
Qed.

(** ** The connection middleware *)

Section MiddlewareFacts.
Import tortoise_admin.TortoiseMiddleware.
Context {Response : Type}.
Variable e : env Response.

Lemma attempted_app (tr tr' : list event) :
  attempted (tr ++ tr') = attempted tr ++ attempted tr'.
Proof. apply omap_app. Qed.

Lemma rolled_back_app (tr tr' : list event) :
  rolled_back (tr ++ tr') = rolled_back tr ++ rolled_back tr'.
Proof. apply omap_app. Qed.

(** One attempt never raises, as long as what it meets is an [Exception]. *)
Lemma rollback_attempt_swallows (conn_name : string) (w : world) :
  raises_only_Exception (connections_get e) ->
  raises_only_Exception (conn_rollback e) ->
  exists w',
    rollback_attempt e conn_name w = (Ok tt, w')
    /\ attempted (trace w') = attempted (trace w) ++ [conn_name]
    /\ rolled_back (trace w')
       = rolled_back (trace w)
         ++ (if returns (connections_get e conn_name) then [conn_name] else []).
Proof.
  intros Hget Hrb. unfold rollback_attempt, try_except, bind, call.
  destruct (connections_get e conn_name) as [exc|] eqn:Hg.
  - rewrite (Hget _ _ Hg). eexists. split; [reflexivity |].
    cbn. rewrite attempted_app, rolled_back_app. cbn. by rewrite app_nil_r.
  - destruct (conn_rollback e conn_name) as [exc|] eqn:Hr.
    + rewrite (Hrb _ _ Hr). eexists. split; [reflexivity |].
      cbn. rewrite !attempted_app, !rolled_back_app. cbn.
      by rewrite !app_nil_r.
    + eexists. split; [reflexivity |].
      cbn. rewrite !attempted_app, !rolled_back_app. cbn.
      by rewrite !app_nil_r.
Qed.

Lemma rollback_loop (names : list string) (w : world) :
  raises_only_Exception (connections_get e) ->
  raises_only_Exception (conn_rollback e) ->
  exists w',
    for_each (rollback_attempt e) names w = (Ok tt, w')
    /\ attempted (trace w') = attempted (trace w) ++ names
    /\ rolled_back (trace w')
       = rolled_back (trace w)
         ++ filter (fun conn_name => returns (connections_get e conn_name)) names.
Proof.
  intros Hget Hrb. revert w. induction names as [|n names IH]; intros w.
  - exists w. cbn. by rewrite !app_nil_r.
  - destruct (rollback_attempt_swallows n w Hget Hrb) as (w1 & Hrun & Hatt & Hrol).
    destruct (IH w1) as (w2 & Hrun2 & Hatt2 & Hrol2).
    exists w2. split; [| split].
    + cbn [for_each]. unfold bind at 1. rewrite Hrun. exact Hrun2.
    + rewrite Hatt2, Hatt, <- app_assoc. reflexivity.
    + rewrite Hrol2, Hrol, <- app_assoc. f_equal.
      rewrite filter_cons. by destruct (returns (connections_get e n)).
Qed.

Lemma initialize_no_attempt (w w' : world) (r : res unit) :
  initialize e w = (r, w') ->
  attempted (trace w') = attempted (trace w)
  /\ rolled_back (trace w') = rolled_back (trace w).
Proof.
  unfold initialize, bind, call, set_initialized, ret.
  destruct (_initialized w); cbn; [by intros [= _ <-] |].
  destruct (tortoise_init e); [intros [= _ <-]; cbn;
    by rewrite attempted_app, rolled_back_app, !app_nil_r |].
  destruct (generate_schemas e); [destruct (tortoise_generate_schemas e) |];
    intros [= _ <-]; cbn;
    rewrite ?attempted_app, ?rolled_back_app; cbn; by rewrite ?app_nil_r.
Qed.
End MiddlewareFacts.

(** C8, as the code has it.  When the downstream handler raises and what
    the rollback attempts raise are instances of [Exception]: the middleware
    raises the very exception of the handler; if that exception is an
    instance of [Exception], one attempt was made for each known
    connection, in order, and the rollback was called on those the registry
    returned; if it is not (a cancellation, an interrupt), no attempt was
    made. *)
Theorem dispatch_failure_path {Response : Type}
    (e : tortoise_admin.TortoiseMiddleware.env Response)
    (w : tortoise_admin.TortoiseMiddleware.world) (exc : exn) :
  (tortoise_admin.TortoiseMiddleware.initialize e w).1 = Ok tt ->
  tortoise_admin.TortoiseMiddleware.call_next e = Raise exc ->
  raises_only_Exception (tortoise_admin.TortoiseMiddleware.connections_get e) ->
  raises_only_Exception (tortoise_admin.TortoiseMiddleware.conn_rollback e) ->
  exists w',
    tortoise_admin.TortoiseMiddleware.dispatch e w = (Raise exc, w')
    /\ attempted (tortoise_admin.TortoiseMiddleware.trace w')
       = attempted (tortoise_admin.TortoiseMiddleware.trace w)
         ++ (if is_Exception exc
             then tortoise_admin.TortoiseMiddleware.db_config e else [])
    /\ rolled_back (tortoise_admin.TortoiseMiddleware.trace w')
       = rolled_back (tortoise_admin.TortoiseMiddleware.trace w)
         ++ (if is_Exception exc
             then filter (fun conn_name =>
                            returns (tortoise_admin.TortoiseMiddleware.connections_get
                                       e conn_name))
                         (tortoise_admin.TortoiseMiddleware.db_config e)
             else []).
Proof.
  intros Hinit Hnext Hget Hrb.
  destruct (tortoise_admin.TortoiseMiddleware.initialize e w) as [r w1] eqn:Hrun.
  cbn in Hinit. subst r.
  destruct (initialize_no_attempt e _ _ _ Hrun) as [Hatt1 Hrol1].
  unfold tortoise_admin.TortoiseMiddleware.dispatch, bind at 1. rewrite Hrun.
  unfold try_except. rewrite Hnext.
  destruct (is_Exception exc).
  - destruct (rollback_loop e (tortoise_admin.TortoiseMiddleware.db_config e)
                (tortoise_admin.TortoiseMiddleware.record
                   tortoise_admin.TortoiseMiddleware.ECallNext w1) Hget Hrb)
      as (w2 & Hloop & Hatt2 & Hrol2).
    exists w2. unfold bind. rewrite Hloop. split; [reflexivity |].
    rewrite Hatt2, Hrol2. cbn [tortoise_admin.TortoiseMiddleware.record
                               tortoise_admin.TortoiseMiddleware.trace].
    rewrite attempted_app, rolled_back_app, Hatt1, Hrol1. cbn.
    by rewrite !app_nil_r.
  - eexists. split; [reflexivity |].
    cbn [tortoise_admin.TortoiseMiddleware.record
         tortoise_admin.TortoiseMiddleware.trace].
    rewrite attempted_app, rolled_back_app, Hatt1, Hrol1. cbn.
    by rewrite !app_nil_r.
Qed.

(** The failure path on a request that fails with a [RuntimeError] while
    the rollback of both connections fails too. *)
Lemma dispatch_failure_path_example :
  exists w',
    tortoise_admin.TortoiseMiddleware.dispatch
      (failing_request (OtherException "RuntimeError" "boom")
                       (OtherException "AttributeError" "rollback"))
      fresh_middleware
    = (Raise (OtherException "RuntimeError" "boom"), w')
    /\ attempted (tortoise_admin.TortoiseMiddleware.trace w')
       = [] ++ ["default"; "replica"]
    /\ rolled_back (tortoise_admin.TortoiseMiddleware.trace w')
       = [] ++ ["default"; "replica"].
Proof.
  apply (dispatch_failure_path
           (failing_request (OtherException "RuntimeError" "boom")
                            (OtherException "AttributeError" "rollback"))
           fresh_middleware (OtherException "RuntimeError" "boom")).
  - reflexivity.
  - reflexivity.
  - intros conn_name exc. discriminate.
  - intros conn_name exc [= <-]. reflexivity.
Defined.

(** C8 fails on what is not an instance of [Exception]: a cancellation
    raised downstream goes through with no rollback attempt, and one raised
    by a rollback replaces the exception of the handler. *)
Lemma cancellation_skips_rollback :
  ~ failure_path_any_exception
  /\ tortoise_admin.TortoiseMiddleware.dispatch
       (failing_request (SystemSignal "CancelledError" "")
                        (OtherException "AttributeError" "rollback"))
       fresh_middleware
     = (Raise (SystemSignal "CancelledError" ""),
        {| tortoise_admin.TortoiseMiddleware._initialized := true;
           tortoise_admin.TortoiseMiddleware.trace :=
             [tortoise_admin.TortoiseMiddleware.EInit;
              tortoise_admin.TortoiseMiddleware.ECallNext] |})
  /\ (tortoise_admin.TortoiseMiddleware.dispatch
        (failing_request (OtherException "RuntimeError" "boom")
                         (SystemSignal "CancelledError" ""))
        fresh_middleware).1
     = Raise (SystemSignal "CancelledError" "").
Proof.
  split; [| split; reflexivity].
  intros H.
  destruct (H (failing_request (SystemSignal "CancelledError" "")
                               (OtherException "AttributeError" "rollback"))
              fresh_middleware (SystemSignal "CancelledError" "")
              eq_refl eq_refl) as (w' & Hrun & Hatt).
  cbn in Hrun. injection Hrun as <-. discriminate.
Qed.

(** ** The views *)

(** *** The exception taxonomy *)

Lemma handle_exception_normalizes {A : Type} (e : exn) (w : orm.world) :
  @tortoise_admin.ModelView.handle_exception A e w = (Raise (normalized e), w).
Proof. by destruct e. Qed.






(** *** Computations seen from outside *)

Section Triples.
Variable R : orm.world -> orm.world -> Prop.
Hypothesis R_refl : forall w, R w w.
Hypothesis R_trans : forall w1 w2 w3, R w1 w2 -> R w2 w3 -> R w1 w3.

Lemma triple_ret {A : Type} (Q : A -> Prop) (a : A) : Q a -> triple R Q (ret a).
Proof. intros Ha w r w' [= <- <-]. split; [apply R_refl | by intros ? [= <-]]. Qed.

Lemma triple_raise {A : Type} (Q : A -> Prop) (e : exn) : triple R Q (raise e).
Proof. intros w r w' [= <- <-]. split; [apply R_refl | discriminate]. Qed.

Lemma triple_lift {A : Type} (Q : A -> Prop) (r : res A) :
  (forall a, r = Ok a -> Q a) -> triple R Q (lift r).
Proof. intros Hr w r' w' [= <- <-]. split; [apply R_refl | exact Hr]. Qed.

Lemma triple_bind {A B : Type} (Q1 : A -> Prop) (Q2 : B -> Prop) (m : M orm.world A)
    (k : A -> M orm.world B) :
  triple R Q1 m -> (forall a, Q1 a -> triple R Q2 (k a)) -> triple R Q2 (bind m k).
Proof.
  intros Hm Hk w r w'. unfold bind.
  destruct (m w) as [[a|e] w1] eqn:Hrun; destruct (Hm _ _ _ Hrun) as [HR HQ].
  - intros Hrun2. destruct (Hk a (HQ a eq_refl) _ _ _ Hrun2) as [HR2 HQ2].
    split; [by eapply R_trans | exact HQ2].
  - intros [= <- <-]. split; [exact HR | discriminate].
Qed.

Lemma triple_try_except {A : Type} (Q : A -> Prop) (m : M orm.world A) (h : exn -> M orm.world A) :
  triple R Q m -> (forall e, triple R Q (h e)) -> triple R Q (try_except m h).
Proof.
  intros Hm Hh w r w'. unfold try_except.
  destruct (m w) as [[a|e] w1] eqn:Hrun; destruct (Hm _ _ _ Hrun) as [HR HQ].
  - intros [= <- <-]. by split.
  - destruct (is_Exception e).
    + intros Hrun2. destruct (Hh e _ _ _ Hrun2) as [HR2 HQ2].
      split; [by eapply R_trans | exact HQ2].
    + intros [= <- <-]. split; [exact HR | discriminate].
Qed.

Lemma triple_try_except_validation {A : Type} (Q : A -> Prop) (m : M orm.world A)
    (h : exn -> M orm.world A) :
  triple R Q m -> (forall e, triple R Q (h e)) -> triple R Q (try_except_validation m h).
Proof.
  intros Hm Hh w r w'. unfold try_except_validation.
  destruct (m w) as [[a|e] w1] eqn:Hrun; destruct (Hm _ _ _ Hrun) as [HR HQ].
  - intros [= <- <-]. by split.
  - destruct (is_ValidationError e).
    + intros Hrun2. destruct (Hh e _ _ _ Hrun2) as [HR2 HQ2].
      split; [by eapply R_trans | exact HQ2].
    + intros [= <- <-]. split; [exact HR | discriminate].
Qed.

Lemma triple_for_fold {A B : Type} (I : B -> Prop) (body : B -> A -> M orm.world B) (l : list A)
    (acc : B) :
  (forall acc x, In x l -> I acc -> triple R I (body acc x)) ->
  I acc -> triple R I (for_fold body l acc).
Proof.
  revert acc. induction l as [|x l IH]; intros acc Hbody Hacc.
  - by apply triple_ret.
  - cbn [for_fold]. intros w r w'. unfold bind.
    destruct (body acc x w) as [[acc'|e] w1] eqn:Hrun;
      destruct (Hbody acc x (or_introl eq_refl) Hacc _ _ _ Hrun) as [HR HQ].
    + intros Hrun2.
      destruct (IH acc' (fun a y Hy => Hbody a y (or_intror Hy)) (HQ _ eq_refl)
                   _ _ _ Hrun2) as [HR2 HQ2].
      split; [by eapply R_trans | exact HQ2].
    + intros [= <- <-]. split; [exact HR | discriminate].
Qed.

Lemma triple_for_each {A : Type} (body : A -> M orm.world unit) (l : list A) :
  (forall x, In x l -> triple R (fun _ => True) (body x)) ->
  triple R (fun _ : unit => True) (for_each body l).
Proof.
  induction l as [|x l IH]; intros Hbody w r w'.
  - intros [= <- <-]. split; [apply R_refl | done].
  - cbn [for_each]. unfold bind.
    destruct (body x w) as [[[]|e] w1] eqn:Hrun;
      destruct (Hbody x (or_introl eq_refl) _ _ _ Hrun) as [HR _].
    + intros Hrun2.
      destruct (IH (fun y Hy => Hbody y (or_intror Hy)) _ _ _ Hrun2) as [HR2 _].
      split; [by eapply R_trans | done].
    + intros [= <- <-]. split; [exact HR | done].
Qed.
End Triples.

Lemma triple_weaken {A : Type} (R R' : orm.world -> orm.world -> Prop)
    (Q Q' : A -> Prop) (m : M orm.world A) :
  (forall w w', R w w' -> R' w w') -> (forall a, Q a -> Q' a) ->
  triple R Q m -> triple R' Q' m.
Proof.
  intros HR HQ Hm w r w' Hrun. destruct (Hm _ _ _ Hrun) as [H1 H2].
  split; [by apply HR | intros a Ha; by apply HQ, H2].
Qed.

(** *** The two relations between worlds *)

Lemma calls_within_refl (P : orm.call -> Prop) (w : orm.world) : calls_within P w w.
Proof. exists []. by rewrite app_nil_r. Qed.

Lemma calls_within_same (P : orm.call -> Prop) (w w' : orm.world) :
  orm.calls w' = orm.calls w -> calls_within P w w'.
Proof. intros H. exists []. by rewrite app_nil_r. Qed.

Lemma calls_within_trans (P : orm.call -> Prop) (w1 w2 w3 : orm.world) :
  calls_within P w1 w2 -> calls_within P w2 w3 -> calls_within P w1 w3.
Proof.
  intros (l1 & H1 & HP1) (l2 & H2 & HP2). exists (l1 ++ l2).
  split; [by rewrite H2, H1, app_assoc | by apply Forall_app].
Qed.

Lemma calls_within_weaken (P P' : orm.call -> Prop) (w w' : orm.world) :
  (forall c, P c -> P' c) -> calls_within P w w' -> calls_within P' w w'.
Proof.
  intros HP (l & Hl & Hall). exists l. split; [exact Hl |].
  eapply Forall_impl; [exact Hall | exact HP].
Qed.

Lemma quiet_refl (P : orm.call -> Prop) (w : orm.world) : quiet P w w.
Proof. split; [done | apply calls_within_refl]. Qed.

Lemma quiet_trans (P : orm.call -> Prop) (w1 w2 w3 : orm.world) :
  quiet P w1 w2 -> quiet P w2 w3 -> quiet P w1 w3.
Proof.
  intros [(Ha & Hb & Hc) H1] [(Ha' & Hb' & Hc') H2].
  split; [| by eapply calls_within_trans].
  repeat split; congruence.
Qed.

Lemma keeps_row_refl (pk : pyval) (P : orm.call -> Prop) (w : orm.world) :
  keeps_row pk P w w.
Proof. repeat split; [done | apply calls_within_refl]. Qed.

Lemma keeps_row_trans (pk : pyval) (P : orm.call -> Prop) (w1 w2 w3 : orm.world) :
  keeps_row pk P w1 w2 -> keeps_row pk P w2 w3 -> keeps_row pk P w1 w3.
Proof.
  intros (Ha & Hb & Hc) (Ha' & Hb' & Hc').
  repeat split; [congruence | tauto | by eapply calls_within_trans].
Qed.

Lemma quiet_keeps_row (pk : pyval) (P : orm.call -> Prop) (w w' : orm.world) :
  quiet P w w' -> keeps_row pk P w w'.
Proof.
  intros [(Ha & _ & _) H]. unfold keeps_row, stored. rewrite Ha. by repeat split.
Qed.

(** *** The calls that leave the view *)

Section CallFacts.
Variable env : orm.oracle.

Lemma ext_quiet (P : orm.call -> Prop) (c : orm.call) :
  P c -> triple (quiet P) (fun _ => True) (orm.ext env c).
Proof.
  intros Hc w r w'. unfold orm.ext.
  destruct (orm.fails env c w); intros [= <- <-]; (split; [| done]);
    (split; [done |]); exists [c]; by split; [| apply Forall_singleton].
Qed.

Lemma ask_quiet (P : orm.call -> Prop) (c : orm.call) :
  P c -> triple (quiet P) (fun _ => True) (orm.ask env c).
Proof.
  intros Hc w r w'. unfold orm.ask.
  destruct (orm.fails env c w); intros [= <- <-]; (split; [| done]);
    (split; [done |]); exists [c]; by split; [| apply Forall_singleton].
Qed.
End CallFacts.

(** *** [create] up to the first save, and after it *)

Lemma bind_Ok {A B : Type} (m : M orm.world A) (k : A -> M orm.world B)
    (w w' : orm.world) (b : B) :
  bind m k w = (Ok b, w') ->
  exists a w1, m w = (Ok a, w1) /\ k a w1 = (Ok b, w').
Proof.
  unfold bind. destruct (m w) as [[a|e] w1]; [eauto | discriminate].
Qed.

Section CreateFacts.
Variable env : orm.oracle.
Variable fm : orm.fields_map.
Variable fields : orm.RequestAction -> list orm.ui_field.

Lemma arrange_field_quiet (data arranged : dict) (field : orm.ui_field) :
  triple (quiet (fun c => is_lookup c = true)) (fun _ => True)
         (tortoise_admin.ModelView.arrange_field env data arranged field).
Proof.
  unfold tortoise_admin.ModelView.arrange_field.
  apply (triple_bind _ (quiet_trans _) (fun _ => True));
    [apply triple_lift; [apply quiet_refl | done] |].
  intros value _.
  destruct (orm.kind field) as [identity multiple| |];
    try (apply triple_ret; [apply quiet_refl | done]).
  destruct (negb (tortoise_admin.ModelView.is_None value));
    [| apply triple_ret; [apply quiet_refl | done]].
  apply (triple_bind _ (quiet_trans _) (fun _ => True)); [by apply ext_quiet |].
  intros _ _.
  apply (triple_bind _ (quiet_trans _) (fun _ => True)).
  - destruct (negb multiple); by apply ask_quiet.
  - intros found _. apply triple_ret; [apply quiet_refl | done].
Qed.

Lemma arrange_data_quiet (action : orm.RequestAction) (data : dict) (is_edit : bool) :
  triple (quiet (fun c => is_lookup c = true)) (fun _ => True)
         (tortoise_admin.ModelView._arrange_data env fields action data is_edit).
Proof.
  unfold tortoise_admin.ModelView._arrange_data.
  apply (triple_for_fold _ (quiet_refl _) (quiet_trans _) (fun _ => True)); [| done].
  intros acc field _ _. apply arrange_field_quiet.
Qed.

Lemma validate_quiet (data : dict) :
  triple (quiet (fun c => is_preparation c = true)) (fun _ => True)
         (tortoise_admin.ModelView.validate env data).
Proof.
  unfold tortoise_admin.ModelView.validate.
  apply (triple_try_except_validation _ (quiet_trans _)); [by apply ext_quiet |].
  intros e. destruct e; apply triple_raise; apply quiet_refl.
Qed.

Lemma lookup_is_preparation (c : orm.call) :
  is_lookup c = true -> is_preparation c = true.
Proof. by destruct c. Qed.

Lemma preparation_not_attachment (c : orm.call) :
  is_preparation c = true -> is_attachment c = false.
Proof. by destruct c. Qed.

(** A first save inserts one row, under the next key. *)
Lemma first_save (attrs : dict) (w w' : orm.world) (inst : orm.instance) :
  orm.save env {| orm.inst_pk := None; orm.inst_attrs := attrs |} w = (Ok inst, w') ->
  inst = {| orm.inst_pk := Some (PInt (orm.next_pk w)); orm.inst_attrs := attrs |}
  /\ orm.rows w' = orm.rows w ++ [(PInt (orm.next_pk w), attrs)]
  /\ orm.calls w'
     = orm.calls w ++ [orm.CSave {| orm.inst_pk := None; orm.inst_attrs := attrs |}].
Proof.
  unfold orm.save, bind, orm.ext.
  destruct (orm.fails env _ w); [discriminate |].
  cbn. intros [= <- <-]. by repeat split.
Qed.

(** Up to the first save, [create] leaves the store alone and attaches
    nothing; the save then inserts the row of the new instance. *)
Lemma create_persist_saves (action : orm.RequestAction) (data : dict)
    (w w1 : orm.world) (inst : orm.instance) (relations : dict) :
  tortoise_admin.ModelView.create_persist env fm fields action data w
  = (Ok (inst, relations), w1) ->
  exists pre,
    orm.inst_pk inst = Some (PInt (orm.next_pk w))
    /\ orm.rows w1 = orm.rows w ++ [(PInt (orm.next_pk w), orm.inst_attrs inst)]
    /\ orm.calls w1
       = orm.calls w ++ pre
         ++ [orm.CSave {| orm.inst_pk := None; orm.inst_attrs := orm.inst_attrs inst |}]
    /\ Forall (fun c => is_attachment c = false) pre.
Proof.
  unfold tortoise_admin.ModelView.create_persist. intros Hrun.
  apply bind_Ok in Hrun as (arranged & wa & Harr & Hrun).
  apply bind_Ok in Hrun as ([] & wv & Hval & Hrun).
  destruct (orm.split_relations fm arranged []) as [scalars rels].
  apply bind_Ok in Hrun as ([] & wn & Hnew & Hrun).
  apply bind_Ok in Hrun as ([] & wb & Hbefore & Hrun).
  apply bind_Ok in Hrun as (saved & ws & Hsave & Hret).
  injection Hret as -> -> ->.
  apply first_save in Hsave as (-> & Hrows & Hcalls).
  assert (Hquiet : quiet (fun c => is_preparation c = true) w wb).
  { eapply quiet_trans; [| eapply quiet_trans; [| eapply quiet_trans]].
    - destruct (arrange_data_quiet _ _ _ _ _ _ Harr) as [[Hs Hc] _].
      split; [exact Hs |].
      eapply calls_within_weaken; [apply lookup_is_preparation | exact Hc].
    - apply (validate_quiet _ _ _ _ Hval).
    - apply (ext_quiet env (fun c => is_preparation c = true) (orm.CNew scalars)
               eq_refl _ _ _ Hnew).
    - apply (ext_quiet env (fun c => is_preparation c = true)
               (orm.CBeforeCreate scalars _) eq_refl _ _ _ Hbefore). }
  destruct Hquiet as [(Hr & _ & Hn) (pre & Hpre & Hall)].
  exists pre. cbn [orm.inst_pk orm.inst_attrs].
  rewrite Hrows, Hcalls, Hpre, Hr, Hn, <- app_assoc.
  repeat split.
  eapply Forall_impl; [exact Hall | apply preparation_not_attachment].
Qed.

(** Saving an instance that has the key [n] again keeps its row. *)
Lemma persist_keeps_row (n : Z) (inst : orm.instance) :
  orm.inst_pk inst = Some (PInt n) ->
  triple (keeps_row (PInt n) (fun _ => True))
         (fun inst' => orm.inst_pk inst' = Some (PInt n))
         (orm.persist inst).
Proof.
  intros Hpk w r w'. unfold orm.persist. rewrite Hpk. intros [= <- <-].
  split; [| by intros ? [= <-]].
  split; [| split]; cbn.
  - apply length_map.
  - intros [attrs Hin].
    exists (orm.inst_attrs inst).
    apply in_map_iff. exists (PInt n, attrs). split; [| exact Hin].
    cbn. by rewrite Z.eqb_refl.
  - by apply calls_within_same.
Qed.

Lemma ext_keeps_row (pk : pyval) (c : orm.call) :
  triple (keeps_row pk (fun _ => True)) (fun _ => True) (orm.ext env c).
Proof.
  eapply triple_weaken; [apply quiet_keeps_row | | by apply (ext_quiet env (fun _ => True))].
  done.
Qed.

Lemma save_keeps_row (n : Z) (inst : orm.instance) :
  orm.inst_pk inst = Some (PInt n) ->
  triple (keeps_row (PInt n) (fun _ => True))
         (fun inst' => orm.inst_pk inst' = Some (PInt n))
         (orm.save env inst).
Proof.
  intros Hpk. unfold orm.save.
  apply (triple_bind _ (keeps_row_trans _ _) (fun _ => True)); [apply ext_keeps_row |].
  intros _ _. by apply persist_keeps_row.
Qed.

Lemma setattr_keeps_row (n : Z) (inst : orm.instance) (attr : string) (value : pyval) :
  orm.inst_pk inst = Some (PInt n) ->
  triple (keeps_row (PInt n) (fun _ => True))
         (fun inst' => orm.inst_pk inst' = Some (PInt n))
         (orm.setattr env inst attr value).
Proof.
  intros Hpk. unfold orm.setattr.
  apply (triple_bind _ (keeps_row_trans _ _) (fun _ => True)); [apply ext_keeps_row |].
  intros _ _. apply triple_ret; [apply keeps_row_refl | exact Hpk].
Qed.

Lemma rel_add_keeps_row (pk : pyval) (inst : orm.instance) (attr : string) (value : pyval) :
  triple (keeps_row pk (fun _ => True)) (fun _ => True)
         (orm.rel_add env inst attr value).
Proof.
  unfold orm.rel_add.
  apply (triple_bind _ (keeps_row_trans _ _) (fun _ => True));
    [apply triple_lift; [apply keeps_row_refl | done] |].
  intros values _.
  apply (triple_bind _ (keeps_row_trans _ _) (fun _ => True)); [apply ext_keeps_row |].
  intros _ _ w r w' [= <- <-]. split; [| done].
  repeat split; [done | by apply calls_within_same].
Qed.

Lemma set_relation_keeps_row (n : Z) (inst : orm.instance) (item : string * pyval) :
  orm.inst_pk inst = Some (PInt n) ->
  triple (keeps_row (PInt n) (fun _ => True))
         (fun inst' => orm.inst_pk inst' = Some (PInt n))
         (orm.set_relation env fm inst item).
Proof.
  intros Hpk. destruct item as [field_name value]. unfold orm.set_relation.
  apply (triple_bind _ (keeps_row_trans _ _) (fun _ => True));
    [apply triple_lift; [apply keeps_row_refl | done] |].
  intros field _. destruct (orm.is_ManyToManyField field).
  - apply (triple_bind _ (keeps_row_trans _ _) (fun _ => True));
      [apply rel_add_keeps_row |].
    intros _ _. apply triple_ret; [apply keeps_row_refl | exact Hpk].
  - apply (triple_bind _ (keeps_row_trans _ _)
                       (fun inst' => orm.inst_pk inst' = Some (PInt n)));
      [by apply setattr_keeps_row |].
    intros inst' Hpk'. by apply save_keeps_row.
Qed.

(** After the first save, [create] adds and removes no row and keeps the
    row of the instance. *)
Lemma create_attach_keeps_row (n : Z) (inst : orm.instance) (relations : dict) :
  orm.inst_pk inst = Some (PInt n) ->
  triple (keeps_row (PInt n) (fun _ => True)) (fun _ => True)
         (tortoise_admin.ModelView.create_attach env fm inst relations).
Proof.
  intros Hpk. unfold tortoise_admin.ModelView.create_attach.
  apply (triple_bind _ (keeps_row_trans _ _)
                     (fun inst' => orm.inst_pk inst' = Some (PInt n))).
  - apply (triple_for_fold _ (keeps_row_refl _ _) (keeps_row_trans _ _)); [| exact Hpk].
    intros acc item _ Hacc. by apply set_relation_keeps_row.
  - intros inst' _.
    apply (triple_bind _ (keeps_row_trans _ _) (fun _ => True)); [apply ext_keeps_row |].
    intros _ _. apply triple_ret; [apply keeps_row_refl | done].
Qed.
End CreateFacts.

(** C10.  In [create] of [tortoise_admin] the instance is saved before any
    relation is attached and before the post-create hook runs: no attachment
    call comes before the save.  When the attachment of the relations or the
    hook then raises, [create] raises that exception ([handle_exception]
    turns the ORM's validation error into the validation error of the form),
    and the row of the instance is still in the store, which holds one row
    more than before the call. *)
Theorem create_not_atomic
    (env : orm.oracle) (fm : orm.fields_map)
    (fields : orm.RequestAction -> list orm.ui_field)
    (action : orm.RequestAction) (data : dict) (w w1 w2 : orm.world)
    (inst : orm.instance) (relations : dict) (e : exn) :
  tortoise_admin.ModelView.create_persist env fm fields action data w
  = (Ok (inst, relations), w1) ->
  tortoise_admin.ModelView.create_attach env fm inst relations w1 = (Raise e, w2) ->
  tortoise_admin.ModelView.create env fm fields action data w = (Raise (normalized e), w2)
  /\ (exists pk, orm.inst_pk inst = Some pk /\ stored pk w1 /\ stored pk w2)
  /\ length (orm.rows w2) = S (length (orm.rows w))
  /\ exists pre saved post,
       orm.calls w1 = orm.calls w ++ pre ++ [orm.CSave saved]
       /\ orm.calls w2 = orm.calls w1 ++ post
       /\ Forall (fun c => is_attachment c = false) pre.
Proof.
  intros Hpersist Hattach.
  destruct (create_persist_saves _ _ _ _ _ _ _ _ _ Hpersist)
    as (pre & Hpk & Hrows & Hcalls & Hpre).
  destruct (create_attach_keeps_row env fm _ _ relations Hpk _ _ _ Hattach)
    as [(Hlen & Hkeep & post & Hpost & _) _].
  assert (Hstored : stored (PInt (orm.next_pk w)) w1).
  { exists (orm.inst_attrs inst). rewrite Hrows. apply in_or_app. right. by left. }
  split; [| split; [| split]].
  - unfold tortoise_admin.ModelView.create, try_except,
      tortoise_admin.ModelView.create_body, bind.
    rewrite Hpersist, Hattach. by destruct e.
  - exists (PInt (orm.next_pk w)). auto.
  - rewrite Hlen, Hrows, length_app. cbn. lia.
  - by exists pre, {| orm.inst_pk := None; orm.inst_attrs := orm.inst_attrs inst |}, post.
Qed.

(** [create] on the pet of the examples, when the post-create hook raises:
    the [RuntimeError] comes out and the pet stays in the store. *)
Lemma create_not_atomic_example :
  tortoise_admin.ModelView.create hook_fails pet_fields_map pet_form orm.CREATE
    pet_data empty_world
  = (Raise (normalized (OtherException "RuntimeError" "hook failed")), pet_failed_world)
  /\ (exists pk, orm.inst_pk saved_pet = Some pk
                 /\ stored pk pet_saved_world /\ stored pk pet_failed_world)
  /\ length (orm.rows pet_failed_world) = S (length (orm.rows empty_world))
  /\ exists pre saved post,
       orm.calls pet_saved_world = orm.calls empty_world ++ pre ++ [orm.CSave saved]
       /\ orm.calls pet_failed_world = orm.calls pet_saved_world ++ post
       /\ Forall (fun c => is_attachment c = false) pre.
Proof.
  apply (create_not_atomic hook_fails pet_fields_map pet_form orm.CREATE pet_data
           empty_world pet_saved_world pet_failed_world saved_pet [("owner", PNone)]
           (OtherException "RuntimeError" "hook failed")).
  - reflexivity.
  - reflexivity.
Defined.

(** *** Relation fields that hold [None] *)

Lemma dict_get_set (d : dict) (k g : string) (v : pyval) :
  dict_get (dict_set d k v) g = if String.eqb k g then Some v else dict_get d g.
Proof.
  induction d as [|[k' v'] d IH]; [reflexivity |].
  cbn [dict_set]. destruct (String.eqb_spec k' k) as [-> | Hne]; cbn [dict_get].
  - by destruct (String.eqb k g).
  - rewrite IH. destruct (String.eqb_spec k' g) as [-> | _]; [| reflexivity].
    destruct (String.eqb_spec k g) as [-> | _]; [done | reflexivity].
Qed.

Lemma dict_get_remove (d : dict) (k g : string) :
  dict_get (dict_remove d k) g = if String.eqb k g then None else dict_get d g.
Proof.
  induction d as [|[k' v'] d IH]; [by destruct (String.eqb k g) |].
  cbn [dict_remove]. destruct (String.eqb_spec k' k) as [-> | Hne]; cbn [dict_get].
  - rewrite IH. by destruct (String.eqb k g).
  - rewrite IH. destruct (String.eqb_spec k' g) as [-> | _]; [| reflexivity].
    destruct (String.eqb_spec k g) as [-> | _]; [done | reflexivity].
Qed.

Lemma dict_get_In (d : dict) (g : string) (v : pyval) :
  dict_get d g = Some v -> In (g, v) d.
Proof.
  induction d as [|[k' v'] d IH]; [discriminate |].
  cbn [dict_get]. destruct (String.eqb_spec k' g) as [-> | _].
  - intros [= ->]. by left.
  - intros H. right. by apply IH.
Qed.

Lemma In_dict_set (d : dict) (k g : string) (v v' : pyval) :
  In (g, v) (dict_set d k v') -> (g = k /\ v = v') \/ In (g, v) d.
Proof.
  induction d as [|[k0 v0] d IH]; cbn [dict_set].
  - intros [[= <- <-] | []]. by left.
  - destruct (String.eqb_spec k0 k) as [-> | _].
    + intros [[= <- <-] | Hin]; [by left | right; by right].
    + intros [Heq | Hin]; [right; by left |].
      destruct (IH Hin) as [? | ?]; [by left | right; by right].
Qed.

Section NoneRelation.
Variable env : orm.oracle.
Variable fm : orm.fields_map.
Variable fields : orm.RequestAction -> list orm.ui_field.
Variable attr : string.

(** [_arrange_data] makes no lookup for the field and leaves its [None]. *)
Lemma arrange_field_skips (data arranged : dict) (identity : string) (multiple : bool)
    (w : orm.world) :
  dict_get data attr = Some PNone ->
  tortoise_admin.ModelView.arrange_field env data arranged
    {| orm.name := attr; orm.kind := orm.RelationField identity multiple |} w
  = (Ok (dict_set arranged attr PNone), w).
Proof.
  intros Hdata. unfold tortoise_admin.ModelView.arrange_field, bind, lift, dict_subscript.
  cbn. by rewrite Hdata.
Qed.

(** A turn of the loop of [_arrange_data] sets the item of the field, and for
    the field [attr] it sets [None]. *)
Lemma arrange_field_sets (data arranged arranged' : dict) (field : orm.ui_field)
    (w w' : orm.world) :
  dict_get data attr = Some PNone ->
  tortoise_admin.ModelView.arrange_field env data arranged field w = (Ok arranged', w') ->
  exists x, arranged' = dict_set arranged (orm.name field) x
            /\ (orm.name field = attr -> x = PNone).
Proof.
  intros Hdata. unfold tortoise_admin.ModelView.arrange_field. intros Hrun.
  apply bind_Ok in Hrun as (value & w1 & Hval & Hrun).
  unfold lift, dict_subscript in Hval.
  destruct (dict_get data (orm.name field)) as [v|] eqn:Hget; [| discriminate].
  injection Hval as <- <-.
  assert (Hattr : orm.name field = attr -> v = PNone).
  { intros Heq. rewrite Heq, Hdata in Hget. congruence. }
  destruct (orm.kind field) as [identity multiple| |].
  - destruct (tortoise_admin.ModelView.is_None v) eqn:Hnone; cbn [negb] in Hrun.
    + injection Hrun as <- <-. eauto.
    + apply bind_Ok in Hrun as ([] & w2 & _ & Hrun).
      apply bind_Ok in Hrun as (found & w3 & _ & [= <- <-]).
      exists found. split; [reflexivity |].
      intros Heq. rewrite (Hattr Heq) in Hnone. discriminate.
  - injection Hrun as <- <-. eauto.
  - injection Hrun as <- <-. eauto.
Qed.

Lemma arrange_loop_get (data : dict) (flds : list orm.ui_field) (acc arranged : dict)
    (w w' : orm.world) :
  dict_get data attr = Some PNone ->
  for_fold (tortoise_admin.ModelView.arrange_field env data) flds acc w
  = (Ok arranged, w') ->
  ((forall v, dict_get acc attr = Some v -> v = PNone) ->
   forall v, dict_get arranged attr = Some v -> v = PNone)
  /\ (dict_get acc attr = Some PNone
      \/ (exists field, In field flds /\ orm.name field = attr) ->
      dict_get arranged attr = Some PNone).
Proof.
  intros Hdata. revert acc w. induction flds as [|field flds IH]; intros acc w.
  - intros [= <- <-]. split; [done |]. by intros [? | (? & [] & _)].
  - cbn [for_fold]. intros Hrun.
    apply bind_Ok in Hrun as (acc1 & w1 & Hstep & Hrest).
    destruct (arrange_field_sets _ _ _ _ _ _ Hdata Hstep) as (x & -> & Hx).
    destruct (IH _ _ Hrest) as [Hinv Hfound].
    split.
    + intros Hacc. apply Hinv. intros v. rewrite dict_get_set.
      destruct (String.eqb_spec (orm.name field) attr) as [Heq | _];
        [intros [= <-]; by apply Hx | apply Hacc].
    + intros Hcase. apply Hfound. rewrite dict_get_set.
      destruct (String.eqb_spec (orm.name field) attr) as [Heq | Hne].
      * left. by rewrite (Hx Heq).
      * destruct Hcase as [Hacc | (f & [<- | Hin] & Hname)];
          [by left | done | right; eauto].
Qed.

(** The split of the relations keeps [None] under [attr], and moves the item
    of [attr] to the relations when the model has it as a relation. *)
Lemma split_relations_None (fmap : orm.fields_map) (data relations : dict) :
  (forall v, dict_get data attr = Some v -> v = PNone) ->
  only_None_under attr relations ->
  only_None_under attr (orm.split_relations fmap data relations).2.
Proof.
  revert data relations. induction fmap as [|[field_name field] fmap IH];
    intros data relations Hdata Hrel; [exact Hrel |].
  cbn [orm.split_relations].
  destruct (dict_get data field_name) as [value|] eqn:Hget; [| by apply IH].
  destruct (orm.is_RelationalField field); [| by apply IH].
  apply IH.
  - intros v. rewrite dict_get_remove.
    destruct (String.eqb field_name attr); [discriminate | apply Hdata].
  - intros v Hin. apply In_dict_set in Hin as [[-> ->] | Hin]; [| by apply Hrel].
    by apply Hdata.
Qed.

Lemma split_relations_moves (fmap : orm.fields_map) (data relations : dict)
    (fc : orm.field_class) :
  orm.is_RelationalField fc = true ->
  (dict_get relations attr = Some PNone /\ dict_get data attr = None)
  \/ (dict_get data attr = Some PNone /\ orm.fields_map_get fmap attr = Some fc) ->
  dict_get (orm.split_relations fmap data relations).2 attr = Some PNone.
Proof.
  intros Hfc. revert data relations.
  induction fmap as [|[field_name field] fmap IH]; intros data relations Hcase.
  - destruct Hcase as [[Hrel _] | [_ Hfm]]; [exact Hrel | discriminate].
  - cbn [orm.split_relations].
    destruct (String.eqb_spec field_name attr) as [-> | Hne].
    + destruct Hcase as [[Hrel Hdata] | [Hdata Hfm]].
      * rewrite Hdata. apply IH. by left.
      * cbn [orm.fields_map_get] in Hfm. rewrite String.eqb_refl in Hfm.
        injection Hfm as ->. rewrite Hdata, Hfc. apply IH. left.
        by rewrite dict_get_set, dict_get_remove, String.eqb_refl.
    + assert (Hfm : orm.fields_map_get ((field_name, field) :: fmap) attr
                    = orm.fields_map_get fmap attr).
      { cbn [orm.fields_map_get]. by destruct (String.eqb_spec field_name attr). }
      rewrite Hfm in Hcase.
      destruct (dict_get data field_name) as [value|] eqn:Hget; [| by apply IH].
      destruct (orm.is_RelationalField field); [| by apply IH].
      apply IH. rewrite dict_get_set, dict_get_remove.
      by destruct (String.eqb_spec field_name attr).
Qed.
End NoneRelation.

Lemma triple_post {A : Type} (R : orm.world -> orm.world -> Prop) (Q Q' : A -> Prop)
    (m : M orm.world A) :
  triple R Q m -> (forall w a w', m w = (Ok a, w') -> Q' a) -> triple R Q' m.
Proof.
  intros Hm Hpost w r w' Hrun. destruct (Hm _ _ _ Hrun) as [HR _].
  split; [exact HR |]. intros a ->. by eapply Hpost.
Qed.

(** *** The calls of the views *)

Section ViewCalls.
Variable env : orm.oracle.
Variable fm : orm.fields_map.
Variable fields : orm.RequestAction -> list orm.ui_field.
(** A property that every call other than a relation add has. *)
Variable P : orm.call -> Prop.
Hypothesis P_other : forall c, is_rel_add c = false -> P c.

Local Abbreviation R := (calls_within P).
Local Abbreviation R_refl := (calls_within_refl P).
Local Abbreviation R_trans := (calls_within_trans P).

Lemma ext_calls (c : orm.call) :
  is_rel_add c = false -> triple R (fun _ => True) (orm.ext env c).
Proof.
  intros Hc. eapply triple_weaken; [| | apply (ext_quiet env P c (P_other c Hc))];
    [by intros w w' [_ H] | done].
Qed.

Lemma ask_calls (c : orm.call) :
  is_rel_add c = false -> triple R (fun _ => True) (orm.ask env c).
Proof.
  intros Hc. eapply triple_weaken; [| | apply (ask_quiet env P c (P_other c Hc))];
    [by intros w w' [_ H] | done].
Qed.

Lemma persist_calls (inst : orm.instance) :
  triple R (fun _ => True) (orm.persist inst).
Proof.
  intros w r w'. unfold orm.persist.
  destruct (orm.inst_pk inst); intros [= <- <-]; (split; [| done]);
    by apply calls_within_same.
Qed.

Lemma save_calls (inst : orm.instance) : triple R (fun _ => True) (orm.save env inst).
Proof.
  unfold orm.save. apply (triple_bind _ R_trans (fun _ => True)); [by apply ext_calls |].
  intros _ _. apply persist_calls.
Qed.

Lemma setattr_calls (inst : orm.instance) (a : string) (v : pyval) :
  triple R (fun _ => True) (orm.setattr env inst a v).
Proof.
  unfold orm.setattr. apply (triple_bind _ R_trans (fun _ => True)); [by apply ext_calls |].
  intros _ _. apply triple_ret; [apply R_refl | done].
Qed.

Lemma rel_add_calls (inst : orm.instance) (a : string) (v : pyval) :
  (forall values, orm.star_args v = Ok values -> P (orm.CRelAdd inst a values)) ->
  triple R (fun _ => True) (orm.rel_add env inst a v).
Proof.
  intros Hadd. unfold orm.rel_add.
  apply (triple_bind _ R_trans (fun values => orm.star_args v = Ok values));
    [apply triple_lift; [apply R_refl | done] |].
  intros values Hvalues.
  apply (triple_bind _ R_trans (fun _ => True)).
  - eapply triple_weaken; [| | apply (ext_quiet env P _ (Hadd _ Hvalues))];
      [by intros w w' [_ H] | done].
  - intros _ _ w r w' [= <- <-]. split; [by apply calls_within_same | done].
Qed.

Lemma rel_clear_calls (inst : orm.instance) (a : string) :
  triple R (fun _ => True) (orm.rel_clear env inst a).
Proof.
  unfold orm.rel_clear. apply (triple_bind _ R_trans (fun _ => True));
    [by apply ext_calls |].
  intros _ _ w r w' [= <- <-]. split; [by apply calls_within_same | done].
Qed.

Lemma set_relation_calls (inst : orm.instance) (item : string * pyval) :
  (forall i values, orm.star_args item.2 = Ok values -> P (orm.CRelAdd i item.1 values)) ->
  triple R (fun _ => True) (orm.set_relation env fm inst item).
Proof.
  destruct item as [field_name value]. cbn [fst snd]. intros Hadd.
  unfold orm.set_relation.
  apply (triple_bind _ R_trans (fun _ => True));
    [apply triple_lift; [apply R_refl | done] |].
  intros field _. destruct (orm.is_ManyToManyField field).
  - apply (triple_bind _ R_trans (fun _ => True)); [apply rel_add_calls; intros; by apply Hadd |].
    intros _ _. apply triple_ret; [apply R_refl | done].
  - apply (triple_bind _ R_trans (fun _ => True)); [apply setattr_calls |].
    intros inst' _. apply save_calls.
Qed.

Lemma update_relation_calls (inst : orm.instance) (item : string * pyval) :
  (forall i values, orm.star_args item.2 = Ok values -> P (orm.CRelAdd i item.1 values)) ->
  triple R (fun _ => True) (orm.update_relation env fm inst item).
Proof.
  destruct item as [field_name value]. cbn [fst snd]. intros Hadd.
  unfold orm.update_relation.
  apply (triple_bind _ R_trans (fun _ => True));
    [apply triple_lift; [apply R_refl | done] |].
  intros field _. destruct (orm.is_ManyToManyField field).
  - apply (triple_bind _ R_trans (fun _ => True)); [apply rel_clear_calls |].
    intros _ _.
    apply (triple_bind _ R_trans (fun _ => True)); [apply rel_add_calls; intros; by apply Hadd |].
    intros _ _. apply triple_ret; [apply R_refl | done].
  - apply (triple_bind _ R_trans (fun _ => True)); [apply setattr_calls |].
    intros inst' _. apply save_calls.
Qed.

Lemma set_relations_calls (relations : dict) (inst : orm.instance) :
  adds_within P relations ->
  triple R (fun _ => True) (for_fold (orm.set_relation env fm) relations inst).
Proof.
  intros Hadd. apply (triple_for_fold _ R_refl R_trans (fun _ => True)); [| done].
  intros acc [field_name value] Hin _. apply set_relation_calls.
  intros i values Hv. by eapply Hadd.
Qed.

Lemma update_relations_calls (relations : dict) (inst : orm.instance) :
  adds_within P relations ->
  triple R (fun _ => True) (for_fold (orm.update_relation env fm) relations inst).
Proof.
  intros Hadd. apply (triple_for_fold _ R_refl R_trans (fun _ => True)); [| done].
  intros acc [field_name value] Hin _. apply update_relation_calls.
  intros i values Hv. by eapply Hadd.
Qed.

Lemma arrange_data_calls (action : orm.RequestAction) (data : dict) (is_edit : bool) :
  triple R (fun _ => True)
         (tortoise_admin.ModelView._arrange_data env fields action data is_edit).
Proof.
  eapply triple_weaken; [| | apply arrange_data_quiet]; [| done].
  intros w w' [_ H]. eapply calls_within_weaken; [| exact H].
  intros c Hc. apply P_other. by destruct c.
Qed.

Lemma validate_calls (data : dict) :
  triple R (fun _ => True) (tortoise_admin.ModelView.validate env data).
Proof.
  eapply triple_weaken; [| | apply validate_quiet]; [| done].
  intros w w' [_ H]. eapply calls_within_weaken; [| exact H].
  intros c Hc. apply P_other. by destruct c.
Qed.

Lemma find_by_pk_calls (pk : pyval) : triple R (fun _ => True) (orm.find_by_pk env pk).
Proof.
  unfold orm.find_by_pk.
  apply (triple_try_except _ R_trans).
  - apply (triple_bind _ R_trans (fun _ => True)).
    + unfold orm.model_get.
      apply (triple_bind _ R_trans (fun _ => True)); [by apply ext_calls |].
      intros _ _ w r w'. destruct (find _ _); intros [= <- <-];
        (split; [apply R_refl | done]).
    + intros inst _. apply triple_ret; [apply R_refl | done].
  - intros e. apply triple_ret; [apply R_refl | done].
Qed.

Lemma populate_obj_calls (action : orm.RequestAction) (obj : orm.instance)
    (data : dict) (is_edit : bool) :
  triple R (fun _ => True)
         (tortoise_admin.ModelView._populate_obj env fields action obj data is_edit).
Proof.
  unfold tortoise_admin.ModelView._populate_obj.
  apply (triple_for_fold _ R_refl R_trans (fun _ => True)); [| done].
  intros acc field _ _. unfold tortoise_admin.ModelView.populate_field.
  destruct (orm.kind field) as [identity multiple|multiple|]; try apply setattr_calls.
  apply (triple_bind _ R_trans (fun _ => True));
    [apply triple_lift; [apply R_refl | done] |].
  intros [value should_be_deleted] _.
  destruct (py_truthy should_be_deleted); [apply setattr_calls |].
  destruct (_ || _); [apply setattr_calls | apply triple_ret; [apply R_refl | done]].
Qed.

Lemma create_persist_calls (action : orm.RequestAction) (data : dict) :
  triple R (fun _ => True)
         (tortoise_admin.ModelView.create_persist env fm fields action data).
Proof.
  unfold tortoise_admin.ModelView.create_persist.
  apply (triple_bind _ R_trans (fun _ => True)); [apply arrange_data_calls |].
  intros arranged _.
  apply (triple_bind _ R_trans (fun _ => True)); [apply validate_calls |].
  intros _ _. destruct (orm.split_relations fm arranged []) as [scalars relations].
  apply (triple_bind _ R_trans (fun _ => True)); [by apply ext_calls |].
  intros _ _.
  apply (triple_bind _ R_trans (fun _ => True)); [by apply ext_calls |].
  intros _ _.
  apply (triple_bind _ R_trans (fun _ => True)); [apply save_calls |].
  intros inst _. apply triple_ret; [apply R_refl | done].
Qed.

Lemma create_attach_calls (inst : orm.instance) (relations : dict) :
  adds_within P relations ->
  triple R (fun _ => True)
         (tortoise_admin.ModelView.create_attach env fm inst relations).
Proof.
  intros Hadd. unfold tortoise_admin.ModelView.create_attach.
  apply (triple_bind _ R_trans (fun _ => True)); [by apply set_relations_calls |].
  intros inst' _.
  apply (triple_bind _ R_trans (fun _ => True)); [by apply ext_calls |].
  intros _ _. apply triple_ret; [apply R_refl | done].
Qed.

Lemma handle_exception_calls {A : Type} (e : exn) :
  triple R (fun _ : A => True) (tortoise_admin.ModelView.handle_exception e).
Proof. destruct e; apply triple_raise; apply R_refl. Qed.
End ViewCalls.

(** *** What happens to a relation field that holds [None] *)

Lemma try_handle_Ok {A : Type} (body : M orm.world A) (w w' : orm.world) (a : A) :
  try_except body (@tortoise_admin.ModelView.handle_exception A) w = (Ok a, w') ->
  body w = (Ok a, w').
Proof.
  unfold try_except. destruct (body w) as [[a'|e] w1]; [done |].
  destruct (is_Exception e); [| discriminate]. by destruct e.
Qed.

Lemma assigns_and_saves_app (attr : string) (value : pyval) (l1 l2 l3 : list orm.call) :
  assigns_and_saves attr value l2 -> assigns_and_saves attr value (l1 ++ l2 ++ l3).
Proof.
  intros (pre & inst & inst' & post & ->).
  exists (l1 ++ pre), inst, inst', (post ++ l3).
  by rewrite <- !app_assoc.
Qed.

Lemma not_add_other (attr : string) (c : orm.call) :
  is_rel_add c = false -> ~ is_add_of attr c.
Proof. intros Hc (inst & values & ->). discriminate. Qed.

Lemma only_None_adds_within (attr : string) (relations : dict) :
  only_None_under attr relations ->
  adds_within (fun c => ~ is_add_of attr c) relations.
Proof.
  intros Hnone field_name value i values Hin Hstar (inst & values' & [= _ -> _]).
  rewrite (Hnone _ Hin) in Hstar. discriminate.
Qed.

Lemma adds_within_True (relations : dict) : adds_within (fun _ => True) relations.
Proof. by intros ? ? ? ? _ _. Qed.

Section NoneRelationCalls.
Variable env : orm.oracle.
Variable fm : orm.fields_map.
Variable fields : orm.RequestAction -> list orm.ui_field.
Variable attr : string.
Variable data : dict.
Hypothesis data_None : dict_get data attr = Some PNone.

Lemma arrange_data_None (action : orm.RequestAction) (is_edit : bool)
    (w w' : orm.world) (arranged : dict) :
  tortoise_admin.ModelView._arrange_data env fields action data is_edit w
  = (Ok arranged, w') ->
  (forall v, dict_get arranged attr = Some v -> v = PNone)
  /\ ((exists field, In field (fields action) /\ orm.name field = attr) ->
      dict_get arranged attr = Some PNone).
Proof.
  intros Hrun. destruct (arrange_loop_get env attr _ _ _ _ _ _ data_None Hrun)
    as [Hinv Hfound].
  split; [apply Hinv; discriminate | intros H; apply Hfound; by right].
Qed.

Lemma split_arranged_None (arranged : dict) :
  (forall v, dict_get arranged attr = Some v -> v = PNone) ->
  only_None_under attr (orm.split_relations fm arranged []).2.
Proof. intros H. apply split_relations_None; [exact H | by intros v []]. Qed.

(** One turn of either relation loop on the item of a to-one relation: the
    assignment, then the save. *)
Lemma relation_step_assigns (step : orm.instance -> string * pyval -> M orm.world orm.instance)
    (fc : orm.field_class) (inst inst' : orm.instance) (value : pyval)
    (w w' : orm.world) :
  step = orm.set_relation env fm \/ step = orm.update_relation env fm ->
  orm.fields_map_get fm attr = Some fc ->
  orm.is_ManyToManyField fc = false ->
  step inst (attr, value) w = (Ok inst', w') ->
  exists saved,
    orm.calls w' = orm.calls w ++ [orm.CSetattr inst attr value; orm.CSave saved].
Proof.
  intros Hstep Hfm Hm2m Hrun.
  assert (Hrun' : bind (orm.setattr env inst attr value) (fun i => orm.save env i) w
                  = (Ok inst', w')).
  { destruct Hstep as [-> | ->];
      unfold orm.set_relation, orm.update_relation, orm.fields_map_subscript in Hrun;
      rewrite Hfm in Hrun; unfold bind at 1, lift in Hrun; rewrite Hm2m in Hrun.
    all: exact Hrun. }
  clear Hrun. apply bind_Ok in Hrun' as (i1 & w1 & Hset & Hsave).
  unfold orm.setattr, bind, orm.ext, ret in Hset.
  destruct (orm.fails env _ w); [discriminate |]. injection Hset as <- <-.
  unfold orm.save, bind, orm.ext in Hsave.
  destruct (orm.fails env _ _); [discriminate |].
  exists {| orm.inst_pk := orm.inst_pk inst;
            orm.inst_attrs := dict_set (orm.inst_attrs inst) attr value |}.
  unfold orm.persist in Hsave. cbn [orm.inst_pk] in Hsave.
  destruct (orm.inst_pk inst); injection Hsave as <- <-; cbn;
    by rewrite <- app_assoc.
Qed.

Lemma relation_loop_assigns (step : orm.instance -> string * pyval -> M orm.world orm.instance)
    (fc : orm.field_class) (relations : dict) (inst inst' : orm.instance)
    (value : pyval) (w w' : orm.world) :
  step = orm.set_relation env fm \/ step = orm.update_relation env fm ->
  orm.fields_map_get fm attr = Some fc ->
  orm.is_ManyToManyField fc = false ->
  In (attr, value) relations ->
  for_fold step relations inst w = (Ok inst', w') ->
  exists l, orm.calls w' = orm.calls w ++ l /\ assigns_and_saves attr value l.
Proof.
  intros Hstep Hfm Hm2m. revert inst w.
  induction relations as [|item relations IH]; intros inst w; [intros [] |].
  intros Hin Hrun. cbn [for_fold] in Hrun.
  apply bind_Ok in Hrun as (inst1 & w1 & Hhead & Htail).
  assert (Htail_calls : calls_within (fun _ => True) w1 w').
  { destruct Hstep as [-> | ->].
    - by apply (set_relations_calls env fm (fun _ => True) (fun _ _ => I) _ _
                  (adds_within_True _) _ _ _ Htail).
    - by apply (update_relations_calls env fm (fun _ => True) (fun _ _ => I) _ _
                  (adds_within_True _) _ _ _ Htail). }
  destruct Hin as [-> | Hin].
  - destruct (relation_step_assigns _ _ _ _ _ _ _ Hstep Hfm Hm2m Hhead) as [saved Hcalls].
    destruct Htail_calls as (l2 & Hl2 & _).
    exists ([orm.CSetattr inst attr value; orm.CSave saved] ++ l2).
    split; [by rewrite Hl2, Hcalls, <- app_assoc |].
    by exists [], inst, saved, l2.
  - assert (Hhead_calls : calls_within (fun _ => True) w w1).
    { destruct Hstep as [-> | ->].
      - by apply (set_relation_calls env fm (fun _ => True) (fun _ _ => I) _ _
                    (fun _ _ _ => I) _ _ _ Hhead).
      - by apply (update_relation_calls env fm (fun _ => True) (fun _ _ => I) _ _
                    (fun _ _ _ => I) _ _ _ Hhead). }
    destruct Hhead_calls as (l1 & Hl1 & _).
    destruct (IH _ _ Hin Htail) as (l2 & Hl2 & Hassign).
    exists (l1 ++ l2). split; [by rewrite Hl2, Hl1, <- app_assoc |].
    rewrite <- (app_nil_r l2). by apply assigns_and_saves_app.
Qed.
End NoneRelationCalls.

Section NoneRelationViews.
Variable env : orm.oracle.
Variable fm : orm.fields_map.
Variable fields : orm.RequestAction -> list orm.ui_field.
Variable attr : string.
Variable data : dict.
Hypothesis data_None : dict_get data attr = Some PNone.

(** The relations [create] and [edit] are left with hold [None] under
    [attr], and they do have the item when the form has the field and the
    model has it as a relation. *)
Lemma create_persist_relations (action : orm.RequestAction) (w w1 : orm.world)
    (inst : orm.instance) (relations : dict) :
  tortoise_admin.ModelView.create_persist env fm fields action data w
  = (Ok (inst, relations), w1) ->
  only_None_under attr relations
  /\ forall fc,
       (exists field, In field (fields action) /\ orm.name field = attr) ->
       orm.fields_map_get fm attr = Some fc -> orm.is_RelationalField fc = true ->
       In (attr, PNone) relations.
Proof.
  unfold tortoise_admin.ModelView.create_persist. intros Hrun.
  apply bind_Ok in Hrun as (arranged & wa & Harr & Hrun).
  apply bind_Ok in Hrun as ([] & wv & _ & Hrun).
  destruct (arrange_data_None env fields attr data data_None _ _ _ _ _ Harr)
    as [Hinv Hfound].
  pose proof (split_arranged_None fm attr arranged Hinv) as Hnone.
  pose proof (fun fc Hfc Hfield Hfm =>
                split_relations_moves attr fm arranged [] fc Hfc
                  (or_intror (conj (Hfound Hfield) Hfm))) as Hmoves.
  destruct (orm.split_relations fm arranged []) as [scalars rels].
  apply bind_Ok in Hrun as ([] & wn & _ & Hrun).
  apply bind_Ok in Hrun as ([] & wb & _ & Hrun).
  apply bind_Ok in Hrun as (saved & ws & _ & [= _ <- _]).
  split; [exact Hnone |].
  intros fc Hfield Hfm Hfc. apply dict_get_In. by eapply Hmoves.
Qed.

Lemma edit_persist_relations (action : orm.RequestAction) (pk : pyval)
    (w w1 : orm.world) (inst : orm.instance) (relations : dict) :
  tortoise_admin.ModelView.edit_persist env fm fields action pk data w
  = (Ok (inst, relations), w1) ->
  only_None_under attr relations
  /\ forall fc,
       (exists field, In field (fields action) /\ orm.name field = attr) ->
       orm.fields_map_get fm attr = Some fc -> orm.is_RelationalField fc = true ->
       In (attr, PNone) relations.
Proof.
  unfold tortoise_admin.ModelView.edit_persist. intros Hrun.
  apply bind_Ok in Hrun as (arranged & wa & Harr & Hrun).
  apply bind_Ok in Hrun as ([] & wv & _ & Hrun).
  apply bind_Ok in Hrun as ([found|] & wf & _ & Hrun); [| discriminate].
  destruct (arrange_data_None env fields attr data data_None _ _ _ _ _ Harr)
    as [Hinv Hfound].
  pose proof (split_arranged_None fm attr arranged Hinv) as Hnone.
  pose proof (fun fc Hfc Hfield Hfm =>
                split_relations_moves attr fm arranged [] fc Hfc
                  (or_intror (conj (Hfound Hfield) Hfm))) as Hmoves.
  destruct (orm.split_relations fm arranged []) as [scalars rels].
  apply bind_Ok in Hrun as (obj & wp & _ & Hrun).
  apply bind_Ok in Hrun as ([] & wb & _ & Hrun).
  apply bind_Ok in Hrun as (saved & ws & _ & [= _ <- _]).
  split; [exact Hnone |].
  intros fc Hfield Hfm Hfc. apply dict_get_In. by eapply Hmoves.
Qed.

Lemma edit_persist_calls (P : orm.call -> Prop) (action : orm.RequestAction) (pk : pyval) :
  (forall c, is_rel_add c = false -> P c) ->
  triple (calls_within P) (fun _ => True)
         (tortoise_admin.ModelView.edit_persist env fm fields action pk data).
Proof.
  intros HP. unfold tortoise_admin.ModelView.edit_persist.
  apply (triple_bind _ (calls_within_trans P) (fun _ => True));
    [by apply arrange_data_calls |].
  intros arranged _.
  apply (triple_bind _ (calls_within_trans P) (fun _ => True));
    [by apply validate_calls |].
  intros _ _.
  apply (triple_bind _ (calls_within_trans P) (fun _ => True));
    [by apply find_by_pk_calls |].
  intros [found|] _; [| apply triple_raise; apply calls_within_refl].
  destruct (orm.split_relations fm arranged []) as [scalars relations].
  apply (triple_bind _ (calls_within_trans P) (fun _ => True));
    [by apply populate_obj_calls |].
  intros obj _.
  apply (triple_bind _ (calls_within_trans P) (fun _ => True)); [by apply ext_calls |].
  intros _ _.
  apply (triple_bind _ (calls_within_trans P) (fun _ => True)); [by apply save_calls |].
  intros inst _. apply triple_ret; [apply calls_within_refl | done].
Qed.

Lemma edit_attach_calls (P : orm.call -> Prop) (inst : orm.instance) (relations : dict) :
  (forall c, is_rel_add c = false -> P c) ->
  adds_within P relations ->
  triple (calls_within P) (fun _ => True)
         (tortoise_admin.ModelView.edit_attach env fm inst relations).
Proof.
  intros HP Hadd. unfold tortoise_admin.ModelView.edit_attach.
  apply (triple_bind _ (calls_within_trans P) (fun _ => True));
    [by apply update_relations_calls |].
  intros inst' _.
  apply (triple_bind _ (calls_within_trans P) (fun _ => True)); [by apply ext_calls |].
  intros _ _. apply triple_ret; [apply calls_within_refl | done].
Qed.

(** No relation add for [attr] in [create], nor in [edit]. *)
Lemma create_no_add (action : orm.RequestAction) :
  triple (calls_within (fun c => ~ is_add_of attr c)) (fun _ => True)
         (tortoise_admin.ModelView.create env fm fields action data).
Proof.
  unfold tortoise_admin.ModelView.create, tortoise_admin.ModelView.create_body.
  apply (triple_try_except _ (calls_within_trans _));
    [| intros e; apply handle_exception_calls].
  apply (triple_bind _ (calls_within_trans _) (fun p => only_None_under attr p.2)).
  - eapply triple_post;
      [apply (create_persist_calls env fm fields _ (not_add_other attr)) |].
    intros w [inst relations] w' Hrun.
    by destruct (create_persist_relations _ _ _ _ _ Hrun).
  - intros [inst relations] Hnone.
    apply (create_attach_calls env fm _ (not_add_other attr)).
    by apply only_None_adds_within.
Qed.

Lemma edit_no_add (action : orm.RequestAction) (pk : pyval) :
  triple (calls_within (fun c => ~ is_add_of attr c)) (fun _ => True)
         (tortoise_admin.ModelView.edit env fm fields action pk data).
Proof.
  unfold tortoise_admin.ModelView.edit, tortoise_admin.ModelView.edit_body.
  apply (triple_try_except _ (calls_within_trans _));
    [| intros e; apply handle_exception_calls].
  apply (triple_bind _ (calls_within_trans _) (fun p => only_None_under attr p.2)).
  - eapply triple_post; [apply (edit_persist_calls _ _ _ (not_add_other attr)) |].
    intros w [inst relations] w' Hrun.
    by destruct (edit_persist_relations _ _ _ _ _ _ Hrun).
  - intros [inst relations] Hnone.
    apply (edit_attach_calls _ _ _ (not_add_other attr)).
    by apply only_None_adds_within.
Qed.

(** A to-one relation under [attr] is assigned [None] and saved, in
    [create] and in [edit] alike, when they return. *)
Lemma create_assigns (action : orm.RequestAction) (fc : orm.field_class)
    (w w' : orm.world) (inst : orm.instance) :
  (exists field, In field (fields action) /\ orm.name field = attr) ->
  orm.fields_map_get fm attr = Some fc ->
  orm.is_RelationalField fc = true ->
  orm.is_ManyToManyField fc = false ->
  tortoise_admin.ModelView.create env fm fields action data w = (Ok inst, w') ->
  exists l, orm.calls w' = orm.calls w ++ l /\ assigns_and_saves attr PNone l.
Proof.
  intros Hfield Hfm Hrel Hm2m Hrun. apply try_handle_Ok in Hrun.
  unfold tortoise_admin.ModelView.create_body in Hrun.
  apply bind_Ok in Hrun as ([saved relations] & w1 & Hpersist & Hattach).
  destruct (create_persist_relations _ _ _ _ _ Hpersist) as [_ Hin].
  specialize (Hin fc Hfield Hfm Hrel).
  destruct (create_persist_calls env fm fields (fun _ => True) (fun _ _ => I)
              _ _ _ _ _ Hpersist) as [(l1 & Hl1 & _) _].
  unfold tortoise_admin.ModelView.create_attach in Hattach.
  apply bind_Ok in Hattach as (inst2 & w2 & Hloop & Hafter).
  destruct (relation_loop_assigns env fm attr _ fc _ _ _ _ _ _
              (or_introl eq_refl) Hfm Hm2m Hin Hloop) as (l2 & Hl2 & Hassign).
  apply bind_Ok in Hafter as ([] & w3 & Hhook & [= _ <-]).
  destruct (ext_calls env (fun _ => True) (fun _ _ => I) (orm.CAfterCreate inst2)
              eq_refl _ _ _ Hhook)
    as [(l3 & Hl3 & _) _].
  exists (l1 ++ l2 ++ l3). split; [| by apply assigns_and_saves_app].
  by rewrite Hl3, Hl2, Hl1, <- !app_assoc.
Qed.

Lemma edit_assigns (action : orm.RequestAction) (pk : pyval) (fc : orm.field_class)
    (w w' : orm.world) (inst : orm.instance) :
  (exists field, In field (fields action) /\ orm.name field = attr) ->
  orm.fields_map_get fm attr = Some fc ->
  orm.is_RelationalField fc = true ->
  orm.is_ManyToManyField fc = false ->
  tortoise_admin.ModelView.edit env fm fields action pk data w = (Ok inst, w') ->
  exists l, orm.calls w' = orm.calls w ++ l /\ assigns_and_saves attr PNone l.
Proof.
  intros Hfield Hfm Hrel Hm2m Hrun. apply try_handle_Ok in Hrun.
  unfold tortoise_admin.ModelView.edit_body in Hrun.
  apply bind_Ok in Hrun as ([saved relations] & w1 & Hpersist & Hattach).
  destruct (edit_persist_relations _ _ _ _ _ _ Hpersist) as [_ Hin].
  specialize (Hin fc Hfield Hfm Hrel).
  destruct (edit_persist_calls (fun _ => True) _ _ (fun _ _ => I)
              _ _ _ Hpersist) as [(l1 & Hl1 & _) _].
  unfold tortoise_admin.ModelView.edit_attach in Hattach.
  apply bind_Ok in Hattach as (inst2 & w2 & Hloop & Hafter).
  destruct (relation_loop_assigns env fm attr _ fc _ _ _ _ _ _
              (or_intror eq_refl) Hfm Hm2m Hin Hloop) as (l2 & Hl2 & Hassign).
  apply bind_Ok in Hafter as ([] & w3 & Hhook & [= _ <-]).
  destruct (ext_calls env (fun _ => True) (fun _ _ => I) (orm.CAfterEdit inst2)
              eq_refl _ _ _ Hhook)
    as [(l3 & Hl3 & _) _].
  exists (l1 ++ l2 ++ l3). split; [| by apply assigns_and_saves_app].
  by rewrite Hl3, Hl2, Hl1, <- !app_assoc.
Qed.
End NoneRelationViews.

(** C3, as the code has it.  For a relation field of the form that is
    present in the input with [None]: [_arrange_data] makes no lookup of a
    related record for it and passes the [None] on; no relation add is made
    for it, in [create] and in [edit]; but the field is not left out of the
    attachment: when the model has it as a relation other than many-to-many,
    [create] and [edit], when they return, have assigned [None] to the
    attribute and saved the instance again. *)
Theorem none_valued_relation_field
    (env : orm.oracle) (fm : orm.fields_map)
    (fields : orm.RequestAction -> list orm.ui_field) (action : orm.RequestAction)
    (data : dict) (attr identity : string) (multiple : bool) :
  dict_get data attr = Some PNone ->
  In {| orm.name := attr; orm.kind := orm.RelationField identity multiple |}
     (fields action) ->
  none_relation_policy env fm fields action data attr identity multiple.
Proof.
  intros Hdata Hin.
  assert (Hfield : exists field, In field (fields action) /\ orm.name field = attr)
    by (eexists; split; [exact Hin | reflexivity]).
  split; [| split; [| split]].
  - intros arranged w. by apply arrange_field_skips.
  - intros w.
    destruct (tortoise_admin.ModelView.create env fm fields action data w)
      as [r w'] eqn:Hrun.
    by apply (create_no_add env fm fields attr data Hdata action _ _ _ Hrun).
  - intros pk w.
    destruct (tortoise_admin.ModelView.edit env fm fields action pk data w)
      as [r w'] eqn:Hrun.
    by apply (edit_no_add env fm fields attr data Hdata action pk _ _ _ Hrun).
  - intros fc Hfm Hrel Hm2m. split.
    + intros w inst w'. by apply (create_assigns env fm fields attr data Hdata action fc).
    + intros pk w inst w'.
      by apply (edit_assigns env fm fields attr data Hdata action pk fc).
Qed.

(** The policy on the pet of the examples, whose [owner] is [None]. *)
Lemma none_valued_relation_field_example :
  none_relation_policy calm pet_fields_map pet_form orm.CREATE pet_data
    "owner" "user" false.
Proof.
  apply (none_valued_relation_field calm pet_fields_map pet_form orm.CREATE pet_data
           "owner" "user" false).
  - reflexivity.
  - right. left. reflexivity.
Defined.

(** C3 fails on a to-one relation: [create] on the pet of the examples,
    whose [owner] is [None], assigns [None] to [owner] and saves again. *)
Lemma none_relation_assigned_and_saved :
  orm.calls (tortoise_admin.ModelView.create calm pet_fields_map pet_form orm.CREATE
               pet_data empty_world).2
  = pet_create_calls
  /\ ~ none_relation_left_alone.
Proof.
  split; [reflexivity |].
  intros H.
  destruct (H calm pet_fields_map pet_form pet_data empty_world "owner" "user" false
              (or_intror (or_introl eq_refl)) eq_refl pet_create_calls eq_refl)
    as [_ Hnot].
  apply Hnot.
  exists [orm.CValidate pet_data; orm.CNew [("name", PStr "Rex")];
          orm.CBeforeCreate [("name", PStr "Rex")] pet_unsaved; orm.CSave pet_unsaved],
         saved_pet, pet_with_owner, [orm.CAfterCreate pet_with_owner].
  reflexivity.
Qed.

(** ** The life cycle of the connection middleware *)

Section MiddlewareLifeCycle.
Import tortoise_admin.TortoiseMiddleware.
Context {Response : Type}.

Lemma init_count_app (tr tr' : list event) :
  init_count (tr ++ tr') = (init_count tr + init_count tr')%nat.
Proof. unfold init_count. by rewrite omap_app, length_app. Qed.

(** A call changes the flag never, and adds its event. *)
Lemma call_trace (ev : event) (outcome : option exn) (w w' : world) (r : res unit) :
  call ev outcome w = (r, w') ->
  _initialized w' = _initialized w /\ trace w' = trace w ++ [ev].
Proof. unfold call. destruct outcome; by intros [= _ <-]. Qed.

Lemma rollback_attempt_flag (e : env Response) (conn_name : string) (w w' : world)
    (r : res unit) :
  rollback_attempt e conn_name w = (r, w') ->
  _initialized w' = _initialized w /\ init_count (trace w') = init_count (trace w).
Proof.
  unfold rollback_attempt, try_except, bind, call, ret.
  destruct (connections_get e conn_name) as [exc|].
  - destruct (is_Exception exc); intros [= _ <-]; cbn [record trace _initialized];
      by rewrite init_count_app, Nat.add_0_r.
  - destruct (conn_rollback e conn_name) as [exc|];
      [destruct (is_Exception exc) |]; intros [= _ <-];
      cbn [record trace _initialized]; by rewrite !init_count_app, !Nat.add_0_r.
Qed.

Lemma rollback_loop_flag (e : env Response) (names : list string) (w w' : world)
    (r : res unit) :
  for_each (rollback_attempt e) names w = (r, w') ->
  _initialized w' = _initialized w /\ init_count (trace w') = init_count (trace w).
Proof.
  revert w. induction names as [|n names IH]; intros w; [by intros [= _ <-] |].
  cbn [for_each]. unfold bind.
  destruct (rollback_attempt e n w) as [[[]|exc] w1] eqn:Hone;
    destruct (rollback_attempt_flag _ _ _ _ _ Hone) as [Hflag Hcount].
  - intros Hrest. destruct (IH _ Hrest) as [Hflag' Hcount']. split; congruence.
  - by intros [= _ <-].
Qed.

(** Once the flag is set, a request neither clears it nor calls
    [Tortoise.init]. *)
Lemma dispatch_initialized (e : env Response) (w w' : world) (r : res Response) :
  _initialized w = true ->
  dispatch e w = (r, w') ->
  _initialized w' = true /\ init_count (trace w') = init_count (trace w).
Proof.
  intros Hflag. unfold dispatch, bind at 1, initialize. rewrite Hflag. cbn [negb].
  unfold try_except.
  destruct (call_next e) as [resp|exc].
  - intros [= _ <-]. cbn [record trace _initialized].
    by rewrite init_count_app, Nat.add_0_r.
  - destruct (is_Exception exc).
    + unfold bind, raise.
      destruct (for_each (rollback_attempt e) (db_config e) (record ECallNext w))
        as [[[]|exc'] w1] eqn:Hloop;
        destruct (rollback_loop_flag _ _ _ _ _ Hloop) as [Hf Hc];
        intros [= _ <-]; cbn [record trace _initialized] in Hf, Hc;
        rewrite init_count_app, Nat.add_0_r in Hc; split; congruence.
    + intros [= _ <-]. cbn [record trace _initialized].
      by rewrite init_count_app, Nat.add_0_r.
Qed.

(** A first request whose initialization returns sets the flag and calls
    [Tortoise.init] once. *)
Lemma dispatch_first (e : env Response) (w w' : world) (r : res Response) :
  _initialized w = false ->
  initializes e ->
  dispatch e w = (r, w') ->
  _initialized w' = true /\ init_count (trace w') = S (init_count (trace w)).
Proof.
  intros Hflag [Hinit Hschemas] Hrun.
  set (w1 := {| _initialized := true;
                trace := trace w ++ EInit
                         :: (if generate_schemas e then [EGenerateSchemas] else []) |}).
  assert (Hstart : initialize e w = (Ok tt, w1)).
  { unfold initialize, bind, call, set_initialized, ret. rewrite Hflag, Hinit. cbn.
    destruct (generate_schemas e) eqn:Hgen; [rewrite (Hschemas eq_refl) |]; cbn;
      unfold w1; by rewrite <- ?app_assoc. }
  assert (Hrest : dispatch e w1 = (r, w')).
  { unfold dispatch, bind at 1 in Hrun. rewrite Hstart in Hrun.
    by unfold dispatch, bind at 1, initialize. }
  destruct (dispatch_initialized e w1 w' r eq_refl Hrest) as [Hf Hc].
  split; [exact Hf |]. rewrite Hc. unfold w1. cbn [trace].
  rewrite init_count_app. cbn. destruct (generate_schemas e); cbn; lia.
Qed.
End MiddlewareLifeCycle.

(** X1.  Two requests in a row through one middleware: when the
    initialization of the first returns, [Tortoise.init] is called exactly
    once over both, whatever the handlers and the rollbacks do. *)
Theorem initialized_at_most_once {Response : Type}
    (e1 e2 : tortoise_admin.TortoiseMiddleware.env Response)
    (w w1 w2 : tortoise_admin.TortoiseMiddleware.world) (r1 r2 : res Response) :
  tortoise_admin.TortoiseMiddleware._initialized w = false ->
  initializes e1 ->
  tortoise_admin.TortoiseMiddleware.dispatch e1 w = (r1, w1) ->
  tortoise_admin.TortoiseMiddleware.dispatch e2 w1 = (r2, w2) ->
  init_count (tortoise_admin.TortoiseMiddleware.trace w2)
  = S (init_count (tortoise_admin.TortoiseMiddleware.trace w)).
Proof.
  intros Hflag Hinit Hfirst Hsecond.
  destruct (dispatch_first _ _ _ _ Hflag Hinit Hfirst) as [Hf1 Hc1].
  destruct (dispatch_initialized _ _ _ _ Hf1 Hsecond) as [_ Hc2].
  congruence.
Qed.

Lemma initialized_at_most_once_example :
  init_count (tortoise_admin.TortoiseMiddleware.trace
                (tortoise_admin.TortoiseMiddleware.dispatch
                   (failing_request (OtherException "RuntimeError" "boom")
                                    (OtherException "AttributeError" "rollback"))
                   (tortoise_admin.TortoiseMiddleware.dispatch answered_request
                      fresh_middleware).2).2)
  = S (init_count (tortoise_admin.TortoiseMiddleware.trace fresh_middleware)).
Proof.
  apply (initialized_at_most_once answered_request
           (failing_request (OtherException "RuntimeError" "boom")
                            (OtherException "AttributeError" "rollback"))
           fresh_middleware
           (tortoise_admin.TortoiseMiddleware.dispatch answered_request
              fresh_middleware).2
           _ (Ok tt) (Raise (OtherException "RuntimeError" "boom"))).
  - reflexivity.
  - split; reflexivity.
  - reflexivity.
  - reflexivity.
Defined.

(** X2.  When [Tortoise.init] or the schema generation raises, the request
    ends with that exception, the handler is not called, and the middleware
    stays uninitialized although [Tortoise.init] was called: the next
    request calls it again. *)
Theorem failed_initialization_not_recorded {Response : Type}
    (e : tortoise_admin.TortoiseMiddleware.env Response)
    (w : tortoise_admin.TortoiseMiddleware.world) (exc : exn) :
  tortoise_admin.TortoiseMiddleware._initialized w = false ->
  tortoise_admin.TortoiseMiddleware.tortoise_init e = Some exc
  \/ (tortoise_admin.TortoiseMiddleware.tortoise_init e = None
      /\ tortoise_admin.TortoiseMiddleware.generate_schemas e = true
      /\ tortoise_admin.TortoiseMiddleware.tortoise_generate_schemas e = Some exc) ->
  exists w' events,
    tortoise_admin.TortoiseMiddleware.dispatch e w = (Raise exc, w')
    /\ tortoise_admin.TortoiseMiddleware._initialized w' = false
    /\ tortoise_admin.TortoiseMiddleware.trace w'
       = tortoise_admin.TortoiseMiddleware.trace w ++ events
    /\ init_count events = 1%nat
    /\ ~ In tortoise_admin.TortoiseMiddleware.ECallNext events.
Proof.
  intros Hflag Hfail.
  unfold tortoise_admin.TortoiseMiddleware.dispatch, bind at 1,
    tortoise_admin.TortoiseMiddleware.initialize.
  rewrite Hflag. cbn [negb].
  unfold bind, tortoise_admin.TortoiseMiddleware.call.
  destruct Hfail as [Hinit | (Hinit & Hgen & Hschemas)]; rewrite Hinit.
  - exists (tortoise_admin.TortoiseMiddleware.record
              tortoise_admin.TortoiseMiddleware.EInit w),
           [tortoise_admin.TortoiseMiddleware.EInit].
    repeat split; [exact Hflag |]. by intros [[=] | []].
  - rewrite Hgen, Hschemas.
    exists (tortoise_admin.TortoiseMiddleware.record
              tortoise_admin.TortoiseMiddleware.EGenerateSchemas
              (tortoise_admin.TortoiseMiddleware.record
                 tortoise_admin.TortoiseMiddleware.EInit w)),
           [tortoise_admin.TortoiseMiddleware.EInit;
            tortoise_admin.TortoiseMiddleware.EGenerateSchemas].
    repeat split; [exact Hflag | cbn; by rewrite <- app_assoc |].
    by intros [[=] | [[=] | []]].
Qed.

Lemma failed_initialization_not_recorded_example :
  exists w' events,
    tortoise_admin.TortoiseMiddleware.dispatch broken_schemas fresh_middleware
    = (Raise (OtherException "OperationalError" "no such table"), w')
    /\ tortoise_admin.TortoiseMiddleware._initialized w' = false
    /\ tortoise_admin.TortoiseMiddleware.trace w'
       = tortoise_admin.TortoiseMiddleware.trace fresh_middleware ++ events
    /\ init_count events = 1%nat
    /\ ~ In tortoise_admin.TortoiseMiddleware.ECallNext events.
Proof.
  apply (failed_initialization_not_recorded broken_schemas fresh_middleware
           (OtherException "OperationalError" "no such table")).
  - reflexivity.
  - right. repeat split; reflexivity.
Defined.

(** X3.  [shutdown] of an initialized middleware closes the connections
    once and clears the flag, so that a second [shutdown] does nothing and
    the next [initialize] calls [Tortoise.init] again; when closing raises,
    the flag stays set. *)
Theorem shutdown_resets {Response : Type}
    (e : tortoise_admin.TortoiseMiddleware.env Response)
    (w : tortoise_admin.TortoiseMiddleware.world) :
  tortoise_admin.TortoiseMiddleware._initialized w = true ->
  match tortoise_admin.TortoiseMiddleware.close_connections e with
  | None =>
      exists w',
        tortoise_admin.TortoiseMiddleware.shutdown e w = (Ok tt, w')
        /\ tortoise_admin.TortoiseMiddleware._initialized w' = false
        /\ tortoise_admin.TortoiseMiddleware.trace w'
           = tortoise_admin.TortoiseMiddleware.trace w
             ++ [tortoise_admin.TortoiseMiddleware.ECloseConnections]
        /\ tortoise_admin.TortoiseMiddleware.shutdown e w' = (Ok tt, w')
        /\ init_count (tortoise_admin.TortoiseMiddleware.trace
                         (tortoise_admin.TortoiseMiddleware.initialize e w').2)
           = S (init_count (tortoise_admin.TortoiseMiddleware.trace w))
  | Some exc =>
      exists w',
        tortoise_admin.TortoiseMiddleware.shutdown e w = (Raise exc, w')
        /\ tortoise_admin.TortoiseMiddleware._initialized w' = true
  end.
Proof.
  intros Hflag.
  assert (Hrun : tortoise_admin.TortoiseMiddleware.shutdown e w
                 = match tortoise_admin.TortoiseMiddleware.close_connections e with
                   | Some exc =>
                       (Raise exc,
                        tortoise_admin.TortoiseMiddleware.record
                          tortoise_admin.TortoiseMiddleware.ECloseConnections w)
                   | None =>
                       (Ok tt,
                        {| tortoise_admin.TortoiseMiddleware._initialized := false;
                           tortoise_admin.TortoiseMiddleware.trace :=
                             tortoise_admin.TortoiseMiddleware.trace w
                             ++ [tortoise_admin.TortoiseMiddleware.ECloseConnections] |})
                   end).
  { unfold tortoise_admin.TortoiseMiddleware.shutdown. rewrite Hflag.
    unfold bind, tortoise_admin.TortoiseMiddleware.call.
    by destruct (tortoise_admin.TortoiseMiddleware.close_connections e). }
  rewrite Hrun.
  destruct (tortoise_admin.TortoiseMiddleware.close_connections e) as [exc|].
  - eexists. split; [reflexivity | exact Hflag].
  - eexists. split; [reflexivity |]. split; [reflexivity |]. split; [reflexivity |].
    split; [reflexivity |].
    unfold tortoise_admin.TortoiseMiddleware.initialize, bind,
      tortoise_admin.TortoiseMiddleware.call,
      tortoise_admin.TortoiseMiddleware.set_initialized, ret.
    cbn [tortoise_admin.TortoiseMiddleware._initialized negb
         tortoise_admin.TortoiseMiddleware.record
         tortoise_admin.TortoiseMiddleware.trace].
    destruct (tortoise_admin.TortoiseMiddleware.tortoise_init e);
      [| destruct (tortoise_admin.TortoiseMiddleware.generate_schemas e);
         [destruct (tortoise_admin.TortoiseMiddleware.tortoise_generate_schemas e) |]];
      cbn [snd tortoise_admin.TortoiseMiddleware.record
           tortoise_admin.TortoiseMiddleware.trace];
      rewrite !init_count_app; cbn; lia.
Qed.

Lemma shutdown_resets_example :
  exists w',
    tortoise_admin.TortoiseMiddleware.shutdown answered_request running_middleware
    = (Ok tt, w')
    /\ tortoise_admin.TortoiseMiddleware._initialized w' = false
    /\ tortoise_admin.TortoiseMiddleware.trace w'
       = tortoise_admin.TortoiseMiddleware.trace running_middleware
         ++ [tortoise_admin.TortoiseMiddleware.ECloseConnections]
    /\ tortoise_admin.TortoiseMiddleware.shutdown answered_request w' = (Ok tt, w')
    /\ init_count (tortoise_admin.TortoiseMiddleware.trace
                     (tortoise_admin.TortoiseMiddleware.initialize answered_request w').2)
       = S (init_count (tortoise_admin.TortoiseMiddleware.trace running_middleware)).
Proof.
  apply (shutdown_resets answered_request running_middleware). reflexivity.
Defined.

(** X4.  When the handler returns a response, the middleware returns that
    response and starts no rollback attempt. *)
Theorem dispatch_passes_response {Response : Type}
    (e : tortoise_admin.TortoiseMiddleware.env Response)
    (w : tortoise_admin.TortoiseMiddleware.world) (response : Response) :
  (tortoise_admin.TortoiseMiddleware.initialize e w).1 = Ok tt ->
  tortoise_admin.TortoiseMiddleware.call_next e = Ok response ->
  exists w',
    tortoise_admin.TortoiseMiddleware.dispatch e w = (Ok response, w')
    /\ attempted (tortoise_admin.TortoiseMiddleware.trace w')
       = attempted (tortoise_admin.TortoiseMiddleware.trace w)
    /\ rolled_back (tortoise_admin.TortoiseMiddleware.trace w')
       = rolled_back (tortoise_admin.TortoiseMiddleware.trace w).
Proof.
  intros Hinit Hnext.
  destruct (tortoise_admin.TortoiseMiddleware.initialize e w) as [r w1] eqn:Hrun.
  cbn in Hinit. subst r.
  destruct (initialize_no_attempt e _ _ _ Hrun) as [Hatt Hrol].
  unfold tortoise_admin.TortoiseMiddleware.dispatch, bind. rewrite Hrun.
  unfold try_except. rewrite Hnext. eexists. split; [reflexivity |].
  cbn [tortoise_admin.TortoiseMiddleware.record tortoise_admin.TortoiseMiddleware.trace].
  rewrite attempted_app, rolled_back_app, Hatt, Hrol. cbn. by rewrite !app_nil_r.
Qed.

Lemma dispatch_passes_response_example :
  exists w',
    tortoise_admin.TortoiseMiddleware.dispatch answered_request fresh_middleware
    = (Ok tt, w')
    /\ attempted (tortoise_admin.TortoiseMiddleware.trace w')
       = attempted (tortoise_admin.TortoiseMiddleware.trace fresh_middleware)
    /\ rolled_back (tortoise_admin.TortoiseMiddleware.trace w')
       = rolled_back (tortoise_admin.TortoiseMiddleware.trace fresh_middleware).
Proof.
  apply (dispatch_passes_response answered_request fresh_middleware tt);
    reflexivity.
Defined.

(** ** More on composite keys *)

(** X5 is [composite_key_parts_round_trip], above; here on the key (1, 2),
    which is not read back as itself. *)
Lemma composite_key_parts_round_trip_example :
  tortoise_admin.MultiplePKField.parse_value "id"
    (PStr (tortoise_admin.MultiplePKField.serialize_value (PTuple [PInt 1; PInt 2])))
  = Ok (PTuple (map (fun p => PStr (py_str p)) [PInt 1; PInt 2]))
  /\ (tortoise_admin.MultiplePKField.parse_value "id"
        (PStr (tortoise_admin.MultiplePKField.serialize_value (PTuple [PInt 1; PInt 2])))
      = Ok (PTuple [PInt 1; PInt 2])
      <-> forallb is_str [PInt 1; PInt 2] = true).
Proof.
  apply (composite_key_parts_round_trip "id" [PInt 1; PInt 2]).
  - simpl. lia.
  - repeat constructor.
  - reflexivity.
Defined.

Lemma forallb_nonempty_In (parts : list string) :
  forallb nonempty parts = false -> In "" parts.
Proof.
  induction parts as [|p ps IH]; [discriminate |].
  cbn [forallb]. destruct p as [|c p]; [by left |].
  cbn. intros H. right. by apply IH.
Qed.

(** X6.  [parse_value] of the second generation raises in one case only: a
    string with a comma and an empty part, and then it raises the validation
    error of the field. *)
Theorem parse_value_only_failure (name : string) (value : pyval) (e : exn) :
  tortoise_admin.MultiplePKField.parse_value name value = Raise e ->
  exists s, value = PStr s /\ has_empty_part s
            /\ e = FormValidationError [(name, missing_part_message)].
Proof.
  unfold tortoise_admin.MultiplePKField.parse_value.
  destruct (py_truthy value); cbn [negb]; [| discriminate].
  destruct value as [| | |s| | |]; try discriminate.
  destruct (char_in "," s) eqn:Hcomma; [| discriminate].
  cbv zeta. destruct (forallb nonempty (py_split "," s)) eqn:Hparts; [discriminate |].
  intros [= <-]. exists s. repeat split; [exact Hcomma |].
  by apply forallb_nonempty_In.
Qed.

Lemma parse_value_only_failure_example :
  exists s, PStr "7,," = PStr s /\ has_empty_part s
            /\ FormValidationError [("id", missing_part_message)]
               = FormValidationError [("id", missing_part_message)].
Proof.
  apply (parse_value_only_failure "id" (PStr "7,,")
           (FormValidationError [("id", missing_part_message)])).
  reflexivity.
Defined.

Lemma py_split_comma_free (sep : ascii) (s : string) :
  Forall (fun p => char_in sep p = false) (py_split sep s).
Proof.
  induction s as [|c s IH]; [by repeat constructor |].
  rewrite py_split_cons. destruct (Ascii.eqb c sep) eqn:Hc.
  - by constructor.
  - rewrite Ascii.eqb_sym in Hc. destruct (py_split sep s) as [|p ps].
    + constructor; [| constructor]. by rewrite char_in_cons, Hc.
    + apply Forall_cons in IH as [Hp Hps]. constructor; [| exact Hps].
      by rewrite char_in_cons, Hp, Hc.
Qed.

Lemma map_PStr_inj (l l' : list string) : map PStr l = map PStr l' -> l = l'.
Proof.
  revert l'. induction l as [|x l IH]; intros [|y l']; try discriminate; [done |].
  intros [= -> H]. f_equal. by apply IH.
Qed.

(** X7.  A part with a comma in it does not survive the round trip: what is
    read back from the shown key is never the key. *)
Theorem comma_in_part_breaks_round_trip (name : string) (parts : list string) :
  Exists (fun p => char_in "," p = true) parts ->
  tortoise_admin.MultiplePKField.parse_value name
    (PStr (tortoise_admin.MultiplePKField.serialize_value (PTuple (map PStr parts))))
  <> Ok (PTuple (map PStr parts)).
Proof.
  intros Hcomma.
  generalize (tortoise_admin.MultiplePKField.serialize_value (PTuple (map PStr parts))).
  intros shown Hparse. unfold tortoise_admin.MultiplePKField.parse_value in Hparse.
  destruct (py_truthy _); cbn [negb] in Hparse; [| discriminate].
  destruct (char_in "," shown); [| discriminate].
  cbv zeta in Hparse. destruct (forallb nonempty _); [| discriminate].
  injection Hparse as Hsplit. apply map_PStr_inj in Hsplit.
  pose proof (py_split_comma_free "," shown) as Hfree.
  rewrite Hsplit in Hfree.
  apply Exists_exists in Hcomma as (p & Hin & Hp).
  rewrite Forall_forall in Hfree. specialize (Hfree p Hin). congruence.
Qed.

Lemma comma_in_part_breaks_round_trip_example :
  tortoise_admin.MultiplePKField.parse_value "id"
    (PStr (tortoise_admin.MultiplePKField.serialize_value
             (PTuple (map PStr ["a,b"; "c"]))))
  <> Ok (PTuple (map PStr ["a,b"; "c"])).
Proof.
  apply (comma_in_part_breaks_round_trip "id" ["a,b"; "c"]).
  left. reflexivity.
Defined.

(** X8.  What the two generations show for a key is the same for every key
    but [None], and a list is shown as the tuple [parse_obj] makes of it. *)
Theorem serialize_value_agreement (value : pyval) :
  (value <> PNone ->
   tortoise.MultiplePKField.serialize_value value
   = tortoise_admin.MultiplePKField.serialize_value value)
  /\ tortoise_admin.MultiplePKField.serialize_value
       (tortoise_admin.MultiplePKField.parse_obj value)
     = tortoise_admin.MultiplePKField.serialize_value value
  /\ tortoise_admin.MultiplePKField.parse_obj
       (tortoise_admin.MultiplePKField.parse_obj value)
     = tortoise_admin.MultiplePKField.parse_obj value.
Proof. by destruct value. Qed.

(** X9.  The first generation reads a shown key of two or more parts back
    as the list of the parts, empty parts included, and never as a tuple. *)
Theorem first_generation_round_trip (parts : list string) :
  (2 <= length parts)%nat ->
  Forall (fun p => char_in "," p = false) parts ->
  tortoise.MultiplePKField.parse_value
    (PStr (tortoise.MultiplePKField.serialize_value (PTuple (map PStr parts))))
  = PList (map PStr parts).
Proof.
  intros Hlen Hcomma.
  unfold tortoise.MultiplePKField.serialize_value.
  rewrite map_map. cbn [py_str]. rewrite map_id.
  destruct parts as [|p [|q parts]]; [cbn in Hlen; lia | cbn in Hlen; lia |].
  unfold tortoise.MultiplePKField.parse_value.
  assert (Hin : char_in "," (py_join "," (p :: q :: parts)) = true)
    by apply char_in_append.
  rewrite Hin. by rewrite (py_split_join "," (p :: q :: parts)).
Qed.

Lemma first_generation_round_trip_example :
  tortoise.MultiplePKField.parse_value
    (PStr (tortoise.MultiplePKField.serialize_value (PTuple (map PStr ["1"; ""]))))
  = PList (map PStr ["1"; ""]).
Proof.
  apply (first_generation_round_trip ["1"; ""]).
  - simpl. lia.
  - repeat constructor.
Defined.
(** ** More on the normalization of lists *)

Lemma find_all_false {A : Type} (f : A -> bool) (l : list A) :
  (forall x, In x l -> f x = false) -> find f l = None.
Proof.
  induction l as [|x l IH]; [reflexivity |]. intros H.
  cbn [find]. rewrite (H x (or_introl eq_refl)).
  apply IH. intros y Hy. apply H. by right.
Qed.

Lemma sort_entry_canon_ok (v : pyval) :
  sort_entry_ok v = true -> sort_entry_ok (sort_entry_canon v) = true.
Proof. by destruct v. Qed.

Lemma sort_entry_canon_idem (v : pyval) :
  sort_entry_canon (sort_entry_canon v) = sort_entry_canon v.
Proof. by destruct v. Qed.

(** X10.  What the strict [normalize_list] returns is as long as what it was
    given, and is a fixed point: normalizing it again in the same mode
    succeeds and changes nothing. *)
Theorem strict_normalize_list_idempotent (l l' : list pyval) (mode : bool) :
  tortoise.normalize_list (Some l) mode = Ok (Some l') ->
  length l' = length l /\ tortoise.normalize_list (Some l') mode = Ok (Some l').
Proof.
  unfold tortoise.normalize_list. destruct mode.
  - rewrite !res_map_sort. destruct (find _ l) eqn:Hfind; [discriminate |].
    cbn [res_bind]. intros [= <-]. split; [by rewrite length_map |].
    rewrite find_all_false.
    + cbn [res_bind]. rewrite map_map. do 2 f_equal.
      apply map_ext. intros v. apply sort_entry_canon_idem.
    + intros x Hx. apply in_map_iff in Hx as (v & <- & Hv).
      pose proof (find_none _ _ Hfind v Hv) as Hok. cbn beta in Hok.
      apply negb_false_iff in Hok. by rewrite (sort_entry_canon_ok v Hok).
  - rewrite !res_map_plain. destruct (find _ l) eqn:Hfind; [discriminate |].
    cbn [res_bind]. intros [= <-]. split; [reflexivity |].
    by rewrite Hfind.
Qed.

Lemma strict_normalize_list_idempotent_example :
  length [PTuple [PStr "name"; PBool false]; PTuple [PStr "age"; PBool true]]
  = length [PStr "name"; PTuple [PStr "age"; PBool true]]
  /\ tortoise.normalize_list
       (Some [PTuple [PStr "name"; PBool false]; PTuple [PStr "age"; PBool true]]) true
     = Ok (Some [PTuple [PStr "name"; PBool false]; PTuple [PStr "age"; PBool true]]).
Proof.
  apply (strict_normalize_list_idempotent
           [PStr "name"; PTuple [PStr "age"; PBool true]]
           [PTuple [PStr "name"; PBool false]; PTuple [PStr "age"; PBool true]] true).
  reflexivity.
Defined.

(** X11.  Where the strict [normalize_list] of the first generation
    succeeds, the lenient one of the second returns the same list. *)
Theorem normalize_list_generations_agree (l l' : list pyval) (mode : bool) :
  tortoise.normalize_list (Some l) mode = Ok (Some l') ->
  tortoise_admin.normalize_list (PList l) mode = l'
  /\ tortoise_admin.normalize_list (PTuple l) mode = l'.
Proof.
  unfold tortoise.normalize_list, tortoise_admin.normalize_list. destruct mode.
  - rewrite res_map_sort. destruct (find _ l); [discriminate |].
    cbn [res_bind]. intros [= <-].
    assert (Hmap : map (fun v => if is_str v then PTuple [v; PBool false] else v) l
                   = map sort_entry_canon l).
    { apply map_ext. intros v. by destruct v. }
    by rewrite Hmap.
  - rewrite res_map_plain. destruct (find _ l); [discriminate |].
    cbn [res_bind]. by intros [= <-].
Qed.

Lemma normalize_list_generations_agree_example :
  tortoise_admin.normalize_list (PList [PStr "name"; PStr "age"]) false
  = [PStr "name"; PStr "age"]
  /\ tortoise_admin.normalize_list (PTuple [PStr "name"; PStr "age"]) false
     = [PStr "name"; PStr "age"].
Proof.
  apply (normalize_list_generations_agree
           [PStr "name"; PStr "age"] [PStr "name"; PStr "age"] false).
  reflexivity.
Defined.

(** X12.  The lenient [normalize_list] is idempotent on every value, and in
    the mode of the default sort it leaves no bare string in its result. *)
Theorem lenient_normalize_list_idempotent (value : pyval) (mode : bool) :
  tortoise_admin.normalize_list (PList (tortoise_admin.normalize_list value mode)) mode
  = tortoise_admin.normalize_list value mode
  /\ Forall (fun v => is_str v = false) (tortoise_admin.normalize_list value true).
Proof.
  assert (Hidem : forall l,
             map (fun v => if is_str v then PTuple [v; PBool false] else v)
               (map (fun v => if is_str v then PTuple [v; PBool false] else v) l)
             = map (fun v => if is_str v then PTuple [v; PBool false] else v) l).
  { intros l. rewrite map_map. apply map_ext. intros v. by destruct (is_str v) eqn:Hv; [| rewrite Hv]. }
  assert (Hnone : forall l,
             Forall (fun v => is_str v = false)
               (map (fun v => if is_str v then PTuple [v; PBool false] else v) l)).
  { intros l. apply List.Forall_forall. intros x Hx.
    apply in_map_iff in Hx as (v & <- & _). by destruct (is_str v) eqn:Hv. }
  split.
  - destruct mode; [| by destruct value].
    destruct value; cbn [tortoise_admin.normalize_list is_str]; try reflexivity;
      apply Hidem.
  - destruct value; cbn [tortoise_admin.normalize_list is_str];
      try (by repeat constructor); apply Hnone.
Qed.

(** ** More on the order clause *)

Lemma res_map_Ok_length {A B : Type} (f : A -> res B) (l : list A) (l' : list B) :
  res_map f l = Ok l' -> length l' = length l.
Proof.
  revert l'. induction l as [|x l IH]; intros l'; [by intros [= <-] |].
  cbn [res_map]. destruct (f x); [| discriminate]. cbn [res_bind].
  destruct (res_map f l) as [ys|]; [| discriminate]. cbn [res_bind].
  intros [= <-]. cbn [length]. by rewrite (IH ys).
Qed.

Lemma res_map_Ok_iff {A B : Type} (f : A -> res B) (l : list A) :
  (exists l', res_map f l = Ok l') <-> Forall (fun x => exists y, f x = Ok y) l.
Proof.
  induction l as [|x l IH]; [by split; [constructor | exists []] |].
  cbn [res_map]. split.
  - intros [l' H]. destruct (f x) as [y|] eqn:Hx; [| discriminate]. cbn [res_bind] in H.
    destruct (res_map f l) as [ys|]; [| discriminate].
    constructor; [by exists y | apply IH; by exists ys].
  - intros H. apply Forall_cons in H as [[y Hy] Hl].
    apply IH in Hl as [ys Hys]. exists (y :: ys). by rewrite Hy, Hys.
Qed.

Lemma order_key_Ok (value : string) :
  (exists key, order_key value = Ok key) <-> (2 <= length (py_split_ws value))%nat.
Proof.
  unfold order_key. destruct (py_split_ws value) as [|a [|b [|c l]]]; cbn [length].
  - split; [by intros [? ?] | lia].
  - split; [by intros [? ?] | lia].
  - split; [lia | eauto].
  - split; [lia | eauto].
Qed.

(** X13.  [build_order_query] succeeds exactly when every entry has at least
    two tokens between whitespace, and then it returns one key for each
    entry. *)
Theorem build_order_query_succeeds (order_by : list string) :
  ((exists keys, tortoise_admin.build_order_query order_by = Ok keys)
   <-> Forall (fun value => (2 <= length (py_split_ws value))%nat) order_by)
  /\ (forall keys, tortoise_admin.build_order_query order_by = Ok keys ->
                   length keys = length order_by).
Proof.
  unfold tortoise_admin.build_order_query. split.
  - rewrite res_map_Ok_iff. apply Forall_iff. intros value.
    rewrite order_clause_key. apply order_key_Ok.
  - intros keys. apply res_map_Ok_length.
Qed.

Lemma res_map_ext {A B : Type} (f g : A -> res B) (l : list A) :
  (forall x, f x = g x) -> res_map f l = res_map g l.
Proof.
  intros H. induction l as [|x l IH]; [reflexivity |].
  cbn [res_map]. by rewrite H, IH.
Qed.

Lemma res_map_map {A B C : Type} (f : B -> res C) (g : A -> B) (l : list A) :
  res_map f (map g l) = res_map (fun x => f (g x)) l.
Proof.
  induction l as [|x l IH]; [reflexivity |].
  cbn [res_map map]. by rewrite IH.
Qed.

(** X14.  The order query reads the tokens of its entries only: two lists of
    entries with the same tokens, however the whitespace between and around
    them is laid out, give the same result. *)
Theorem build_order_query_tokens (order_by order_by' : list string) :
  map py_split_ws order_by = map py_split_ws order_by' ->
  tortoise_admin.build_order_query order_by = tortoise_admin.build_order_query order_by'.
Proof.
  unfold tortoise_admin.build_order_query. intros Htokens.
  set (key := fun tokens : list string =>
         match tokens with
         | [] => Raise (ValueError "not enough values to unpack (expected 2, got 0)")
         | [_] => Raise (ValueError "not enough values to unpack (expected 2, got 1)")
         | [field; direction] =>
             Ok (if String.eqb (py_lower direction) "desc" then "-" +:+ field else field)
         | field :: _ :: _ :: _ => Ok field
         end).
  assert (Hkey : forall l, res_map tortoise_admin.order_clause l
                           = res_map key (map py_split_ws l)).
  { intros l. rewrite res_map_map. apply res_map_ext. intros v.
    by rewrite order_clause_key. }
  by rewrite !Hkey, Htokens.
Qed.

Lemma build_order_query_tokens_example :
  tortoise_admin.build_order_query ["name   DESC"; "age asc"]
  = tortoise_admin.build_order_query ["  name DESC "; "age  asc"].
Proof.
  apply (build_order_query_tokens ["name   DESC"; "age asc"] ["  name DESC "; "age  asc"]).
  reflexivity.
Defined.

(** ** More on the converter lookup *)

Lemma first_hit_insert_other {C : Type} (converters : gmap string C) (k : string) (c : C)
    (keys : list string) :
  ~ In k keys -> first_hit (<[k := c]> converters) keys = first_hit converters keys.
Proof.
  induction keys as [|k' keys IH]; [reflexivity |]. intros Hk.
  cbn [first_hit]. rewrite lookup_insert_ne by (intros ->; apply Hk; by left).
  rewrite IH; [reflexivity |]. intros Hin. apply Hk. by right.
Qed.

Lemma first_hit_skip {C : Type} (converters : gmap string C) (skipped keys : list string) :
  Forall (fun k => converters !! k = None) skipped ->
  first_hit converters (skipped ++ keys) = first_hit converters keys.
Proof.
  induction 1 as [|k skipped Hk _ IH]; [reflexivity |].
  cbn [app first_hit]. by rewrite Hk.
Qed.

(** X15.  Registering a converter under a name that is neither the qualified
    nor the bare name of a class of the resolution order does not change
    what the lookup finds. *)
Theorem unrelated_registration (C : Type) (converters : gmap string C)
    (k : string) (c : C) (mro : list tortoise_admin.py_class) :
  ~ In k (lookup_keys mro) ->
  tortoise_admin.BaseTortoiseModelConverter.find_converter_for_field_type
    (<[k := c]> converters) mro
  = tortoise_admin.BaseTortoiseModelConverter.find_converter_for_field_type converters mro.
Proof.
  intros Hk. rewrite !find_converter_first_hit. by apply first_hit_insert_other.
Qed.

Lemma unrelated_registration_example :
  tortoise_admin.BaseTortoiseModelConverter.find_converter_for_field_type
    (<["JSONField" := 2%nat]> char_registry) char_field_mro
  = tortoise_admin.BaseTortoiseModelConverter.find_converter_for_field_type
      char_registry char_field_mro.
Proof.
  apply (unrelated_registration nat char_registry "JSONField" 2%nat char_field_mro).
  cbn. intros H. repeat (destruct H as [H | H]; [discriminate H |]). exact H.
Defined.

(** X16.  A class inherits the converter of its nearest registered ancestor:
    the classes at the head of the resolution order that are registered under
    neither of their names are passed over. *)
Theorem converter_inherited (C : Type) (converters : gmap string C)
    (derived ancestors : list tortoise_admin.py_class) :
  Forall (fun k => converters !! k = None) (lookup_keys derived) ->
  tortoise_admin.BaseTortoiseModelConverter.find_converter_for_field_type
    converters (derived ++ ancestors)
  = tortoise_admin.BaseTortoiseModelConverter.find_converter_for_field_type
      converters ancestors.
Proof.
  intros Hnone. rewrite !find_converter_first_hit.
  unfold lookup_keys. rewrite flat_map_app. by apply first_hit_skip.
Qed.

Lemma converter_inherited_example :
  tortoise_admin.BaseTortoiseModelConverter.find_converter_for_field_type
    char_registry ([slug_field_class] ++ char_field_mro)
  = tortoise_admin.BaseTortoiseModelConverter.find_converter_for_field_type
      char_registry char_field_mro.
Proof.
  apply (converter_inherited nat char_registry [slug_field_class] char_field_mro).
  repeat constructor.
Defined.

(** ** Deletion *)

Lemma same_key_refl : forall a : pyval, orm.same_key a a = true.
Proof.
  fix IH 1. intros [| b | z | s | c s q | l | l]; cbn [orm.same_key].
  - reflexivity.
  - by destruct b.
  - apply Z.eqb_refl.
  - apply String.eqb_refl.
  - by rewrite !String.eqb_refl.
  - induction l as [|x l IHl]; [reflexivity |]. by rewrite (IH x), IHl.
  - induction l as [|x l IHl]; [reflexivity |]. by rewrite (IH x), IHl.
Qed.

Lemma same_key_eq : forall a b : pyval, orm.same_key a b = true -> a = b.
Proof.
  fix IH 1. intros [| x | x | x | c s q | l | l] [| y | y | y | c' s' q' | l' | l'];
    cbn [orm.same_key]; try discriminate.
  - reflexivity.
  - intros H. f_equal. by apply Bool.eqb_prop.
  - intros H. f_equal. by apply Z.eqb_eq.
  - intros H. f_equal. by apply String.eqb_eq.
  - intros H. apply andb_prop in H as [H Hq]. apply andb_prop in H as [Hc Hs].
    apply String.eqb_eq in Hc, Hs, Hq. by subst.
  - intros H. f_equal. revert l' H.
    induction l as [|x l IHl]; intros [|y l']; try discriminate; [reflexivity |].
    intros H. apply andb_prop in H as [Hx Hl]. f_equal; [by apply IH | by apply IHl].
  - intros H. f_equal. revert l' H.
    induction l as [|x l IHl]; intros [|y l']; try discriminate; [reflexivity |].
    intros H. apply andb_prop in H as [Hx Hl]. f_equal; [by apply IH | by apply IHl].
Qed.

Lemma filter_bool_cons {A : Type} (f : A -> bool) (x : A) (l : list A) :
  filter f (x :: l) = if f x then x :: filter f l else filter f l.
Proof. rewrite filter_cons. by destruct (f x). Qed.

Lemma filter_bool_ext_in {A : Type} (f g : A -> bool) (l : list A) :
  (forall x, In x l -> f x = g x) -> filter f l = filter g l.
Proof.
  induction l as [|x l IH]; [reflexivity |]. intros H.
  rewrite !filter_bool_cons, (H x (or_introl eq_refl)).
  by rewrite IH by (intros y Hy; apply H; by right).
Qed.

Lemma filter_bool_filter {A : Type} (f g : A -> bool) (l : list A) :
  filter f (filter g l) = filter (fun x => g x && f x) l.
Proof.
  induction l as [|x l IH]; [reflexivity |].
  rewrite !filter_bool_cons. destruct (g x); cbn [andb]; [| exact IH].
  rewrite filter_bool_cons. by rewrite IH.
Qed.

Lemma filter_bool_In {A : Type} (f : A -> bool) (l : list A) (x : A) :
  In x (filter f l) <-> In x l /\ f x = true.
Proof.
  induction l as [|y l IH]; [cbn; tauto |].
  rewrite filter_bool_cons. destruct (f y) eqn:Hy; cbn [In]; rewrite IH.
  - split; [intros [<- | [? ?]]; auto | intros [[<- | ?] ?]; auto].
  - split; [intros [? ?]; auto | intros [[<- | ?] ?]; [congruence | auto]].
Qed.

Section DeleteFacts.
Variable env : orm.oracle.

(** The loop of the hooks after the deletions. *)
Lemma after_delete_loop (objs : list orm.instance) (w w' : orm.world) :
  for_each (fun obj => orm.ext env (orm.CAfterDelete obj)) objs w = (Ok tt, w') ->
  orm.rows w' = orm.rows w
  /\ orm.calls w' = orm.calls w ++ map orm.CAfterDelete objs.
Proof.
  revert w. induction objs as [|obj objs IH]; intros w.
  - intros [= <-]. by rewrite app_nil_r.
  - cbn [for_each]. intros H. apply bind_Ok in H as ([] & w1 & Hext & Hrest).
    unfold orm.ext in Hext. destruct (orm.fails env _ w); [discriminate |].
    injection Hext as <-. apply IH in Hrest as [-> ->].
    cbn [orm.log orm.rows orm.calls map]. by rewrite <- app_assoc.
Qed.

(** The loop of the deletions. *)
Lemma delete_loop (objs : list orm.instance) (w w' : orm.world) :
  for_each (fun obj =>
              bind (orm.ext env (orm.CBeforeDelete obj)) (fun _ =>
              bind (orm.ext env (orm.CDelete obj)) (fun _ =>
              orm.remove_rows (fun k => orm.same_key k (orm.pk_of obj))))) objs w
  = (Ok tt, w') ->
  orm.rows w'
  = filter (fun r => negb (existsb (fun obj => orm.same_key r.1 (orm.pk_of obj)) objs))
      (orm.rows w)
  /\ orm.calls w'
     = orm.calls w ++ flat_map (fun obj => [orm.CBeforeDelete obj; orm.CDelete obj]) objs.
Proof.
  revert w. induction objs as [|obj objs IH]; intros w.
  - intros [= <-]. rewrite app_nil_r. split; [| reflexivity].
    cbn [existsb negb]. induction (orm.rows w) as [|r l IHl]; [reflexivity |].
    by rewrite filter_bool_cons, <- IHl.
  - cbn [for_each]. intros H. apply bind_Ok in H as ([] & w1 & Hbody & Hrest).
    apply bind_Ok in Hbody as ([] & w2 & Hbefore & Hbody).
    apply bind_Ok in Hbody as ([] & w3 & Hdelete & Hremove).
    unfold orm.ext in Hbefore, Hdelete.
    destruct (orm.fails env _ w); [discriminate |]. injection Hbefore as <-.
    destruct (orm.fails env _ _); [discriminate |]. injection Hdelete as <-.
    unfold orm.remove_rows in Hremove. injection Hremove as <-.
    apply IH in Hrest as [-> ->]. cbn [orm.log orm.rows orm.calls flat_map app].
    split.
    + rewrite filter_bool_filter. apply filter_bool_ext_in. intros r _.
      cbn [existsb]. by rewrite negb_orb.
    + by rewrite <- !app_assoc.
Qed.

(** The keys of the loaded instances select the rows the query selected. *)
Lemma loaded_selected (pks : list pyval) (w : orm.world) (r : pyval * dict) :
  In r (orm.rows w) ->
  existsb (fun obj => orm.same_key r.1 (orm.pk_of obj)) (loaded pks w) = selected pks r.
Proof.
  intros Hr. destruct (selected pks r) eqn:Hsel.
  - apply existsb_exists. exists (orm.instance_of_row r). split.
    + unfold loaded. apply in_map. by apply filter_bool_In.
    + apply same_key_refl.
  - apply not_true_is_false. intros H. apply existsb_exists in H as (obj & Hobj & Hkey).
    unfold loaded in Hobj. apply in_map_iff in Hobj as (r' & <- & Hr').
    apply filter_bool_In in Hr' as [_ Hsel'].
    apply same_key_eq in Hkey. cbn in Hkey.
    unfold selected in Hsel, Hsel'. rewrite Hkey in Hsel. congruence.
Qed.

(** What a deletion of the second generation that goes through has done. *)
Lemma delete_body_Ok (pks : list pyval) (w w' : orm.world) (n : nat) :
  tortoise_admin.ModelView.delete_body env pks w = (Ok n, w') ->
  n = length (loaded pks w)
  /\ orm.rows w' = filter (fun r => negb (selected pks r)) (orm.rows w)
  /\ orm.calls w' = orm.calls w ++ delete_calls pks (loaded pks w).
Proof.
  unfold tortoise_admin.ModelView.delete_body. intros H.
  apply bind_Ok in H as (objs & w1 & Hfind & H).
  unfold orm.find_by_pks, orm.model_filter in Hfind.
  apply bind_Ok in Hfind as ([] & w0 & Hext & Hfilter).
  unfold orm.ext in Hext. destruct (orm.fails env _ w); [discriminate |].
  injection Hext as <-. injection Hfilter as <- <-.
  change (map orm.instance_of_row _) with (loaded pks w) in H.
  apply bind_Ok in H as ([] & w2 & Hloop & H).
  apply bind_Ok in H as ([] & w3 & Hafter & H).
  injection H as <- <-.
  apply delete_loop in Hloop as [Hrows Hcalls].
  apply after_delete_loop in Hafter as [-> ->].
  rewrite Hrows, Hcalls. cbn [orm.log orm.rows orm.calls]. repeat split.
  - apply filter_bool_ext_in. intros r Hr. by rewrite loaded_selected.
  - unfold delete_calls. by rewrite <- !app_assoc.
Qed.

(** What a deletion of the first generation that goes through has done. *)
Lemma first_generation_delete_Ok (pks : list pyval) (w w' : orm.world) (n : nat) :
  tortoise.ModelView.delete env pks w = (Ok n, w') ->
  n = length (loaded pks w)
  /\ orm.rows w' = filter (fun r => negb (selected pks r)) (orm.rows w)
  /\ orm.calls w' = orm.calls w ++ [orm.CFilterDelete pks].
Proof.
  unfold tortoise.ModelView.delete, try_except, tortoise.ModelView.delete_body.
  unfold bind at 1. unfold orm.ext.
  destruct (orm.fails env _ w) as [e|].
  - destruct (is_Exception e); discriminate.
  - cbn. intros [= <- <-]. cbn. unfold loaded. by rewrite length_map.
Qed.

End DeleteFacts.

(** X17.  A deletion of the second generation that goes through returns the
    number of rows the keys select, leaves exactly the other rows in the
    store, in their order, and has called, after the query, the pre-delete
    hook and the deletion of each instance in turn and then the post-delete
    hooks. *)
Theorem delete_removes_selected (env : orm.oracle) (pks : list pyval)
    (w w' : orm.world) (n : nat) :
  tortoise_admin.ModelView.delete env pks w = (Ok n, w') ->
  n = length (loaded pks w)
  /\ orm.rows w' = filter (fun r => negb (selected pks r)) (orm.rows w)
  /\ orm.calls w' = orm.calls w ++ delete_calls pks (loaded pks w).
Proof.
  intros H. unfold tortoise_admin.ModelView.delete in H.
  apply try_handle_Ok in H. by apply (delete_body_Ok env).
Qed.

Lemma delete_removes_selected_example :
  2%nat = length (loaded [PInt 3; PInt 1; PInt 9] three_pets)
  /\ [(PInt 2, [("name", PStr "Tom")])]
     = filter (fun r => negb (selected [PInt 3; PInt 1; PInt 9] r)) (orm.rows three_pets)
  /\ delete_calls [PInt 3; PInt 1; PInt 9] (loaded [PInt 3; PInt 1; PInt 9] three_pets)
     = orm.calls three_pets
       ++ delete_calls [PInt 3; PInt 1; PInt 9] (loaded [PInt 3; PInt 1; PInt 9] three_pets).
Proof.
  apply (delete_removes_selected calm [PInt 3; PInt 1; PInt 9] three_pets
           {| orm.rows := [(PInt 2, [("name", PStr "Tom")])];
              orm.links := []; orm.next_pk := 4;
              orm.calls := delete_calls [PInt 3; PInt 1; PInt 9]
                             (loaded [PInt 3; PInt 1; PInt 9] three_pets) |} 2%nat).
  reflexivity.
Defined.

Lemma filter_bool_all {A : Type} (l : list A) : filter (fun _ : A => negb false) l = l.
Proof.
  induction l as [|x l IH]; [reflexivity |]. by rewrite filter_bool_cons, IH.
Qed.

Lemma spares_refl (keep : pyval * dict -> bool) (w : orm.world) : spares keep w w.
Proof. exists (fun _ => false). split; [discriminate | by rewrite filter_bool_all]. Qed.

Lemma spares_trans (keep : pyval * dict -> bool) (w1 w2 w3 : orm.world) :
  spares keep w1 w2 -> spares keep w2 w3 -> spares keep w1 w3.
Proof.
  intros (g1 & H1 & E1) (g2 & H2 & E2). exists (fun r => g1 r || g2 r). split.
  - intros r H. apply orb_prop in H as [H | H]; auto.
  - rewrite E2, E1, filter_bool_filter. apply filter_bool_ext_in. intros r _.
    by rewrite negb_orb.
Qed.

Lemma spares_same_rows (keep : pyval * dict -> bool) (w w' : orm.world) :
  orm.rows w' = orm.rows w -> spares keep w w'.
Proof.
  intros E. exists (fun _ => false). split; [discriminate | by rewrite filter_bool_all].
Qed.

Lemma ext_spares (env : orm.oracle) (keep : pyval * dict -> bool) (c : orm.call) :
  triple (spares keep) (fun _ => True) (orm.ext env c).
Proof.
  intros w r w'. unfold orm.ext.
  destruct (orm.fails env c w); intros [= <- <-];
    (split; [by apply spares_same_rows | done]).
Qed.

Lemma spares_kept (keep : pyval * dict -> bool) (w w' : orm.world) :
  spares keep w w' ->
  filter keep (orm.rows w') = filter keep (orm.rows w)
  /\ forall r, In r (orm.rows w') -> In r (orm.rows w).
Proof.
  intros (gone & Hgone & ->). split.
  - rewrite filter_bool_filter. apply filter_bool_ext_in. intros r _.
    destruct (gone r) eqn:Hr; [| reflexivity]. by rewrite (Hgone r Hr).
  - intros r Hr. by apply filter_bool_In in Hr as [Hr _].
Qed.

Lemma delete_spares (env : orm.oracle) (pks : list pyval) :
  triple (spares (fun r => negb (selected pks r))) (fun _ => True)
    (tortoise_admin.ModelView.delete env pks).
Proof.
  set (R := spares (fun r => negb (selected pks r))).
  assert (R_refl : forall w, R w w) by apply spares_refl.
  assert (R_trans : forall w1 w2 w3, R w1 w2 -> R w2 w3 -> R w1 w3) by apply spares_trans.
  unfold tortoise_admin.ModelView.delete.
  apply (triple_try_except _ R_trans).
  2: { intros e. destruct e; apply (triple_raise _ R_refl). }
  unfold tortoise_admin.ModelView.delete_body.
  apply (triple_bind _ R_trans
           (fun objs => forall obj, In obj objs ->
                        forall r, orm.same_key r.1 (orm.pk_of obj) = true ->
                                  selected pks r = true)).
  - unfold orm.find_by_pks, orm.model_filter. intros w r w'. unfold bind, orm.ext.
    destruct (orm.fails env _ w); intros [= <- <-];
      (split; [by apply spares_same_rows |]); [discriminate |].
    intros objs [= <-] obj Hobj r Hkey.
    apply in_map_iff in Hobj as (r' & <- & Hr').
    apply filter_bool_In in Hr' as [_ Hsel]. apply same_key_eq in Hkey.
    cbn in Hkey. unfold selected in *. by rewrite Hkey.
  - intros objs Hobjs.
    apply (triple_bind _ R_trans (fun _ => True)).
    + apply (triple_for_each _ R_refl R_trans). intros obj Hobj.
      apply (triple_bind _ R_trans (fun _ => True)); [apply ext_spares |]. intros _ _.
      apply (triple_bind _ R_trans (fun _ => True)); [apply ext_spares |]. intros _ _.
      intros w r w'. unfold orm.remove_rows. intros [= <- <-]. split; [| done].
      exists (fun r => orm.same_key r.1 (orm.pk_of obj)). split; [| reflexivity].
      intros r Hr. by rewrite (Hobjs obj Hobj r Hr).
    + intros _ _. apply (triple_bind _ R_trans (fun _ => True)).
      * apply (triple_for_each _ R_refl R_trans). intros obj _. apply ext_spares.
      * intros _ _. by apply (triple_ret _ R_refl).
Qed.

(** X18.  Whatever fails on the way, a deletion of the second generation
    adds no row and removes none but rows the keys select: the other rows are
    there afterwards, in their order. *)
Theorem delete_spares_unselected (env : orm.oracle) (pks : list pyval) (w : orm.world) :
  filter (fun r => negb (selected pks r))
    (orm.rows (tortoise_admin.ModelView.delete env pks w).2)
  = filter (fun r => negb (selected pks r)) (orm.rows w)
  /\ forall r, In r (orm.rows (tortoise_admin.ModelView.delete env pks w).2) ->
               In r (orm.rows w).
Proof.
  destruct (tortoise_admin.ModelView.delete env pks w) as [r w'] eqn:Hrun.
  destruct (delete_spares env pks _ _ _ Hrun) as [Hspares _].
  by apply spares_kept.
Qed.

(** X19.  Where both go through, the deletions of the two generations
    return the same count and leave the same rows. *)
Theorem delete_generations_agree (env1 env2 : orm.oracle) (pks : list pyval)
    (w w1 w2 : orm.world) (n1 n2 : nat) :
  tortoise.ModelView.delete env1 pks w = (Ok n1, w1) ->
  tortoise_admin.ModelView.delete env2 pks w = (Ok n2, w2) ->
  n1 = n2 /\ orm.rows w1 = orm.rows w2.
Proof.
  intros H1 H2. apply first_generation_delete_Ok in H1 as (-> & -> & _).
  unfold tortoise_admin.ModelView.delete in H2. apply try_handle_Ok in H2.
  by apply delete_body_Ok in H2 as (-> & -> & _).
Qed.

Lemma delete_generations_agree_example :
  1%nat = 1%nat
  /\ orm.rows (tortoise.ModelView.delete calm [PInt 2] three_pets).2
     = orm.rows (tortoise_admin.ModelView.delete calm [PInt 2] three_pets).2.
Proof.
  apply (delete_generations_agree calm calm [PInt 2] three_pets
           (tortoise.ModelView.delete calm [PInt 2] three_pets).2
           (tortoise_admin.ModelView.delete calm [PInt 2] three_pets).2 1%nat 1%nat);
    reflexivity.
Defined.

Section DeleteFailure.
Variable env : orm.oracle.

(** The loop of the deletions, however it ends: the instances before the one
    it stopped at have lost their rows, and no post-delete hook was called. *)
Lemma delete_loop_any (objs : list orm.instance) (w w' : orm.world) (r : res unit) :
  for_each (fun obj =>
              bind (orm.ext env (orm.CBeforeDelete obj)) (fun _ =>
              bind (orm.ext env (orm.CDelete obj)) (fun _ =>
              orm.remove_rows (fun k => orm.same_key k (orm.pk_of obj))))) objs w
  = (r, w') ->
  exists done rest tail,
    objs = done ++ rest
    /\ orm.rows w'
       = filter (fun r => negb (existsb (fun obj => orm.same_key r.1 (orm.pk_of obj)) done))
           (orm.rows w)
    /\ orm.calls w' = orm.calls w ++ tail
    /\ Forall (fun c => is_after_delete c = false) tail
    /\ (r = Ok tt -> rest = []).
Proof.
  revert w. induction objs as [|obj objs IH]; intros w.
  - intros [= <- <-]. exists [], [], [].
    split; [reflexivity |]. split; [cbn [existsb]; by rewrite filter_bool_all |].
    split; [by rewrite app_nil_r |]. by split; [constructor |].
  - cbn [for_each]. unfold bind at 1. unfold bind at 1. unfold orm.ext at 1.
    destruct (orm.fails env (orm.CBeforeDelete obj) w) as [e|].
    { intros [= <- <-]. exists [], (obj :: objs), [orm.CBeforeDelete obj].
      cbn [existsb orm.log orm.rows orm.calls]. rewrite filter_bool_all.
      split; [reflexivity |]. split; [reflexivity |]. split; [reflexivity |].
      split; [by repeat constructor | discriminate]. }
    unfold bind at 1. unfold orm.ext at 1.
    destruct (orm.fails env (orm.CDelete obj) _) as [e|].
    { intros [= <- <-].
      exists [], (obj :: objs), [orm.CBeforeDelete obj; orm.CDelete obj].
      cbn [existsb orm.log orm.rows orm.calls]. rewrite filter_bool_all, <- app_assoc.
      split; [reflexivity |]. split; [reflexivity |]. split; [reflexivity |].
      split; [by repeat constructor | discriminate]. }
    unfold orm.remove_rows at 1. intros Hrest.
    apply IH in Hrest as (done & rest & tail & -> & -> & -> & Htail & Hok).
    exists (obj :: done), rest, (orm.CBeforeDelete obj :: orm.CDelete obj :: tail).
    cbn [orm.log orm.rows orm.calls].
    split; [reflexivity |]. split; [| split; [| split]].
    + rewrite filter_bool_filter. apply filter_bool_ext_in. intros x _.
      cbn [existsb]. by rewrite negb_orb.
    + by rewrite <- !app_assoc.
    + by repeat constructor.
    + exact Hok.
Qed.

Lemma after_delete_rows (objs : list orm.instance) (w w' : orm.world) (r : res unit) :
  for_each (fun obj => orm.ext env (orm.CAfterDelete obj)) objs w = (r, w') ->
  orm.rows w' = orm.rows w.
Proof.
  revert w. induction objs as [|obj objs IH]; intros w; [by intros [= _ <-] |].
  cbn [for_each]. unfold bind, orm.ext.
  destruct (orm.fails env _ w); [by intros [= _ <-] |].
  intros H. by apply IH in H.
Qed.

Lemma try_handle_Raise {A : Type} (body : M orm.world A) (w w' : orm.world) (e : exn) :
  try_except body (@tortoise_admin.ModelView.handle_exception A) w = (Raise e, w') ->
  exists e', body w = (Raise e', w').
Proof.
  unfold try_except. destruct (body w) as [[a|e'] w1]; [discriminate |].
  destruct (is_Exception e').
  - destruct e'; intros [= <- <-]; eauto.
  - intros [= <- <-]. eauto.
Qed.

End DeleteFailure.

(** X20.  A deletion of the second generation is not atomic.  When it
    raises, the instances loaded for the keys split in two: those before the
    point of failure have lost their rows and the others have not; and unless
    every instance was deleted, no post-delete hook has been called. *)
Theorem delete_stops_midway (env : orm.oracle) (pks : list pyval)
    (w w' : orm.world) (e : exn) :
  tortoise_admin.ModelView.delete env pks w = (Raise e, w') ->
  exists done rest,
    loaded pks w = done ++ rest
    /\ orm.rows w'
       = filter (fun r => negb (existsb (fun obj => orm.same_key r.1 (orm.pk_of obj)) done))
           (orm.rows w)
    /\ (rest <> [] ->
        exists l, orm.calls w' = orm.calls w ++ l
                  /\ Forall (fun c => is_after_delete c = false) l).
Proof.
  unfold tortoise_admin.ModelView.delete. intros H.
  apply try_handle_Raise in H as [e' H]. clear e.
  unfold tortoise_admin.ModelView.delete_body in H.
  unfold bind at 1 in H. unfold orm.find_by_pks, orm.model_filter in H.
  unfold bind at 1 in H. unfold orm.ext at 1 in H.
  destruct (orm.fails env (orm.CFilter pks) w).
  { injection H as _ <-. exists [], (loaded pks w).
    cbn [existsb orm.log orm.rows orm.calls app]. rewrite filter_bool_all.
    split; [reflexivity |]. split; [reflexivity |].
    intros _. exists [orm.CFilter pks]. by repeat constructor. }
  change (map orm.instance_of_row _) with (loaded pks w) in H.
  unfold bind at 1 in H.
  destruct (for_each _ (loaded pks w) _) as [[[]|e1] w1] eqn:Hloop.
  - apply delete_loop_any in Hloop
      as (done & rest & tail & Hsplit & Hrows & Hcalls & Htail & Hok).
    rewrite (Hok eq_refl), app_nil_r in Hsplit. subst done.
    unfold bind at 1 in H.
    destruct (for_each _ (loaded pks w) w1) as [[[]|e2] w2] eqn:Hafter; [discriminate |].
    injection H as _ <-.
    assert (Hsame : orm.rows w2 = orm.rows w1).
    { by apply after_delete_rows in Hafter. }
    exists (loaded pks w), []. rewrite app_nil_r, Hsame, Hrows.
    split; [reflexivity |]. split; [reflexivity |]. by intros [].
  - injection H as _ <-.
    apply delete_loop_any in Hloop
      as (done & rest & tail & Hsplit & Hrows & Hcalls & Htail & _).
    exists done, rest. split; [exact Hsplit |]. split; [exact Hrows |].
    intros _. exists (orm.CFilter pks :: tail). split.
    + rewrite Hcalls. cbn [orm.log orm.calls]. by rewrite <- app_assoc.
    + by constructor.
Qed.

Lemma delete_stops_midway_example :
  exists done rest,
    loaded [PInt 1; PInt 3] three_pets = done ++ rest
    /\ orm.rows (tortoise_admin.ModelView.delete ada_guarded [PInt 1; PInt 3] three_pets).2
       = filter (fun r => negb (existsb (fun obj => orm.same_key r.1 (orm.pk_of obj)) done))
           (orm.rows three_pets)
    /\ (rest <> [] ->
        exists l,
          orm.calls (tortoise_admin.ModelView.delete ada_guarded [PInt 1; PInt 3]
                       three_pets).2
          = orm.calls three_pets ++ l
          /\ Forall (fun c => is_after_delete c = false) l).
Proof.
  apply (delete_stops_midway ada_guarded [PInt 1; PInt 3] three_pets
           (tortoise_admin.ModelView.delete ada_guarded [PInt 1; PInt 3] three_pets).2
           (OtherException "PermissionError" "Ada stays")).
  reflexivity.
Defined.

(** ** What creation and edition leave in the store *)

Lemma ext_Ok (env : orm.oracle) (c : orm.call) (w w' : orm.world) (u : unit) :
  orm.ext env c w = (Ok u, w') -> w' = orm.log c w.
Proof. unfold orm.ext. destruct (orm.fails env c w); [discriminate | by intros [= _ <-]]. Qed.

Lemma for_fold_inv {A S : Type} (I : S -> orm.world -> Prop)
    (body : S -> A -> M orm.world S) (l : list A) :
  (forall s x w s' w', In x l -> I s w -> body s x w = (Ok s', w') -> I s' w') ->
  forall acc w acc' w',
    I acc w -> for_fold body l acc w = (Ok acc', w') -> I acc' w'.
Proof.
  induction l as [|x l IH]; intros Hstep acc w acc' w' Hacc.
  - by intros [= <- <-].
  - cbn [for_fold]. intros H. apply bind_Ok in H as (s1 & w1 & Hbody & Hrest).
    eapply (IH (fun s y w0 s' w0' Hy => Hstep s y w0 s' w0' (or_intror Hy)));
      [| exact Hrest].
    by eapply (Hstep _ x _ _ _ (or_introl eq_refl)).
Qed.

Lemma same_but_refl (pk : pyval) (w : orm.world) : same_but pk w w.
Proof. by split. Qed.

Lemma same_but_trans (pk : pyval) (w1 w2 w3 : orm.world) :
  same_but pk w1 w2 -> same_but pk w2 w3 -> same_but pk w1 w3.
Proof. intros [L1 F1] [L2 F2]. split; congruence. Qed.

Lemma same_but_rows (pk : pyval) (w w' : orm.world) :
  orm.rows w' = orm.rows w -> same_but pk w w'.
Proof. intros E. unfold same_but. by rewrite E. Qed.

Lemma in_store_rows (pk : pyval) (inst : orm.instance) (w w' : orm.world) :
  orm.rows w' = orm.rows w -> in_store pk inst w -> in_store pk inst w'.
Proof. intros E [Hpk Hin]. split; [exact Hpk | by rewrite E]. Qed.

(** A save of an instance whose key has a row rewrites that row and nothing
    else. *)
Lemma save_rewrites (env : orm.oracle) (pk : pyval) (inst inst' : orm.instance)
    (w w' : orm.world) :
  orm.inst_pk inst = Some pk -> stored pk w ->
  orm.save env inst w = (Ok inst', w') ->
  in_store pk inst' w' /\ inst' = inst /\ same_but pk w w'.
Proof.
  intros Hpk [attrs Hin] H. unfold orm.save in H.
  apply bind_Ok in H as ([] & w1 & Hext & H). apply ext_Ok in Hext as ->.
  unfold orm.persist in H. rewrite Hpk in H. injection H as <- <-.
  cbn [orm.log orm.rows]. split; [| split; [reflexivity |]].
  - split; [exact Hpk |]. cbn [orm.rows]. apply in_map_iff.
    exists (pk, attrs). split; [| exact Hin]. cbn. by rewrite same_key_refl.
  - split; cbn [orm.rows]; [apply length_map |]. clear Hin.
    induction (orm.rows w) as [|r l IH]; [reflexivity |].
    cbn [map]. rewrite !filter_bool_cons, IH.
    destruct (orm.same_key r.1 pk) eqn:Hr; unfold others; cbn [fst].
    + by rewrite same_key_refl, Hr.
    + by rewrite Hr.
Qed.

Lemma setattr_Ok (env : orm.oracle) (inst inst' : orm.instance) (attr : string)
    (value : pyval) (w w' : orm.world) :
  orm.setattr env inst attr value w = (Ok inst', w') ->
  orm.rows w' = orm.rows w
  /\ orm.calls w' = orm.calls w ++ [orm.CSetattr inst attr value]
  /\ inst' = {| orm.inst_pk := orm.inst_pk inst;
                orm.inst_attrs := dict_set (orm.inst_attrs inst) attr value |}.
Proof.
  unfold orm.setattr. intros H. apply bind_Ok in H as ([] & w1 & Hext & H).
  apply ext_Ok in Hext as ->. by injection H as <- <-.
Qed.

Lemma rel_add_Ok (env : orm.oracle) (inst : orm.instance) (attr : string)
    (value : pyval) (w w' : orm.world) (u : unit) :
  orm.rel_add env inst attr value w = (Ok u, w') -> orm.rows w' = orm.rows w.
Proof.
  unfold orm.rel_add. intros H. apply bind_Ok in H as (values & w1 & Hlift & H).
  unfold lift in Hlift. injection Hlift as _ <-.
  apply bind_Ok in H as ([] & w2 & Hext & H). apply ext_Ok in Hext as ->.
  by inversion H.
Qed.

Lemma rel_clear_Ok (env : orm.oracle) (inst : orm.instance) (attr : string)
    (w w' : orm.world) (u : unit) :
  orm.rel_clear env inst attr w = (Ok u, w') -> orm.rows w' = orm.rows w.
Proof.
  unfold orm.rel_clear. intros H. apply bind_Ok in H as ([] & w1 & Hext & H).
  apply ext_Ok in Hext as ->. by inversion H.
Qed.

Section Relations.
Variable env : orm.oracle.
Variable fm : orm.fields_map.
Variable pk : pyval.

Lemma assign_and_save (inst inst' : orm.instance) (attr : string) (value : pyval)
    (w w' : orm.world) :
  in_store pk inst w ->
  bind (orm.setattr env inst attr value) (fun inst' => orm.save env inst') w
  = (Ok inst', w') ->
  in_store pk inst' w' /\ same_but pk w w'.
Proof.
  intros [Hpk Hin] H. apply bind_Ok in H as (inst1 & w1 & Hset & Hsave).
  apply setattr_Ok in Hset as (Hrows & _ & ->).
  apply (save_rewrites env pk) in Hsave as (Hstore & _ & Hsame).
  - split; [exact Hstore |]. eapply same_but_trans; [| exact Hsame].
    by apply same_but_rows.
  - exact Hpk.
  - exists (orm.inst_attrs inst). by rewrite Hrows.
Qed.

Lemma set_relation_in_store (inst inst' : orm.instance) (item : string * pyval)
    (w w' : orm.world) :
  in_store pk inst w ->
  orm.set_relation env fm inst item w = (Ok inst', w') ->
  in_store pk inst' w' /\ same_but pk w w'.
Proof.
  intros Hin. destruct item as [field_name value]. unfold orm.set_relation.
  intros H. apply bind_Ok in H as (field & w1 & Hlift & H).
  unfold lift in Hlift. injection Hlift as _ <-.
  destruct (orm.is_ManyToManyField field).
  - apply bind_Ok in H as ([] & w2 & Hadd & H). injection H as <- <-.
    apply rel_add_Ok in Hadd.
    split; [by apply (in_store_rows pk inst w) | by apply same_but_rows].
  - by apply (assign_and_save inst inst' field_name value).
Qed.

(** The loop over the relations. *)
Lemma relations_in_store (body : orm.instance -> string * pyval -> M orm.world orm.instance)
    (relations : dict) (inst inst' : orm.instance) (w w' : orm.world) :
  (forall i i' item w0 w0', in_store pk i w0 -> body i item w0 = (Ok i', w0') ->
                            in_store pk i' w0' /\ same_but pk w0 w0') ->
  in_store pk inst w ->
  for_fold body relations inst w = (Ok inst', w') ->
  in_store pk inst' w' /\ same_but pk w w'.
Proof.
  intros Hbody Hin.
  apply (for_fold_inv (fun i w0 => in_store pk i w0 /\ same_but pk w w0)).
  - intros s x w0 s' w0' _ [Hs Hsame] Hrun.
    destruct (Hbody _ _ _ _ _ Hs Hrun) as [Hs' Hsame'].
    split; [exact Hs' | by eapply same_but_trans].
  - split; [exact Hin | apply same_but_refl].
Qed.

End Relations.

(** A row appended under the key [pk]. *)
Lemma appended_row (pk : pyval) (attrs : dict) (rows0 : list (pyval * dict)) :
  In (pk, attrs) (rows0 ++ [(pk, attrs)])
  /\ length (rows0 ++ [(pk, attrs)]) = S (length rows0)
  /\ filter (others pk) (rows0 ++ [(pk, attrs)]) = filter (others pk) rows0.
Proof.
  split; [| split].
  - apply in_or_app. right. by left.
  - rewrite length_app. cbn. lia.
  - induction rows0 as [|r l IH].
    + cbn [app]. rewrite filter_bool_cons. unfold others. cbn [fst].
      by rewrite same_key_refl.
    + cbn [app]. by rewrite !filter_bool_cons, IH.
Qed.

(** A first save puts the instance in the store under the next key. *)
Lemma first_save_in_store (env : orm.oracle) (attrs : dict) (inst : orm.instance)
    (w w' : orm.world) :
  orm.save env {| orm.inst_pk := None; orm.inst_attrs := attrs |} w = (Ok inst, w') ->
  in_store (PInt (orm.next_pk w)) inst w'
  /\ length (orm.rows w') = S (length (orm.rows w))
  /\ filter (others (PInt (orm.next_pk w))) (orm.rows w')
     = filter (others (PInt (orm.next_pk w))) (orm.rows w).
Proof.
  intros H. apply first_save in H as (-> & Hrows & _). unfold in_store.
  rewrite Hrows. cbn [orm.inst_pk orm.inst_attrs].
  destruct (appended_row (PInt (orm.next_pk w)) attrs (orm.rows w)) as (H1 & H2 & H3).
  by repeat split.
Qed.

(** X21.  The instance a creation of the second generation returns has a
    key under which the store holds it as it is in memory, the relations
    assigned after the first save included; the store has one row more, and
    every row under another key is as it was. *)
Theorem create_returns_stored (env : orm.oracle) (fm : orm.fields_map)
    (fields : orm.RequestAction -> list orm.ui_field) (action : orm.RequestAction)
    (data : dict) (w w' : orm.world) (inst : orm.instance) :
  tortoise_admin.ModelView.create env fm fields action data w = (Ok inst, w') ->
  exists pk,
    in_store pk inst w'
    /\ length (orm.rows w') = S (length (orm.rows w))
    /\ filter (others pk) (orm.rows w') = filter (others pk) (orm.rows w).
Proof.
  unfold tortoise_admin.ModelView.create. intros H. apply try_handle_Ok in H.
  exists (PInt (orm.next_pk w)).
  unfold tortoise_admin.ModelView.create_body in H.
  apply bind_Ok in H as ([saved relations] & w1 & Hpersist & Hattach).
  unfold tortoise_admin.ModelView.create_persist in Hpersist.
  apply bind_Ok in Hpersist as (arranged & wa & Harr & Hpersist).
  apply bind_Ok in Hpersist as ([] & wv & Hval & Hpersist).
  destruct (arrange_data_quiet env fields action data false _ _ _ Harr) as [[Ha _] _].
  destruct (validate_quiet env arranged _ _ _ Hval) as [[Hv _] _].
  destruct Ha as (Ha1 & _ & Ha3), Hv as (Hv1 & _ & Hv3).
  destruct (orm.split_relations fm arranged []) as [scalars rels].
  apply bind_Ok in Hpersist as ([] & w2 & Hnew & Hpersist). apply ext_Ok in Hnew as ->.
  apply bind_Ok in Hpersist as ([] & w3 & Hbefore & Hpersist).
  apply ext_Ok in Hbefore as ->.
  apply bind_Ok in Hpersist as (saved' & w4 & Hsave & Hret).
  injection Hret as -> -> ->.
  apply first_save_in_store in Hsave as (Hstore & Hlen & Hothers).
  cbn [orm.log orm.rows orm.next_pk] in Hstore, Hlen, Hothers.
  rewrite Hv3, Ha3 in Hstore, Hothers. rewrite Hv1, Ha1 in Hlen, Hothers.
  unfold tortoise_admin.ModelView.create_attach in Hattach.
  apply bind_Ok in Hattach as (inst1 & w5 & Hloop & Hattach).
  apply bind_Ok in Hattach as ([] & w6 & Hafter & Hret). apply ext_Ok in Hafter as ->.
  injection Hret as -> <-.
  apply (relations_in_store _ _ _ _ _ _ _
           (fun i i' item w0 w0' => set_relation_in_store env fm _ i i' item w0 w0')
           Hstore) in Hloop as [Hstore' [Hlen' Hothers']].
  cbn [orm.log orm.rows].
  split; [by apply (in_store_rows _ _ w5) | split; congruence].
Qed.

Lemma create_returns_stored_example :
  exists pk,
    in_store pk rex_created
      (tortoise_admin.ModelView.create calm pet_fields_map pet_form orm.CREATE
         rex_data rex_world).2
    /\ length (orm.rows (tortoise_admin.ModelView.create calm pet_fields_map pet_form
                           orm.CREATE rex_data rex_world).2)
       = S (length (orm.rows rex_world))
    /\ filter (others pk)
         (orm.rows (tortoise_admin.ModelView.create calm pet_fields_map pet_form
                      orm.CREATE rex_data rex_world).2)
       = filter (others pk) (orm.rows rex_world).
Proof.
  apply (create_returns_stored calm pet_fields_map pet_form orm.CREATE rex_data
           rex_world _ rex_created).
  reflexivity.
Defined.

(** X22.  The same of the first generation: the instance its creation
    returns has a key under which the store holds it as it is in memory, as
    one row more, and the rows under the other keys are as they were. *)
Theorem first_generation_create_returns_stored (env : orm.oracle) (fm : orm.fields_map)
    (data : dict) (w w' : orm.world) (inst : orm.instance) :
  tortoise.ModelView.create env fm data w = (Ok inst, w') ->
  exists pk,
    in_store pk inst w'
    /\ length (orm.rows w') = S (length (orm.rows w))
    /\ filter (others pk) (orm.rows w') = filter (others pk) (orm.rows w).
Proof.
  unfold tortoise.ModelView.create, try_except. intros H.
  exists (PInt (orm.next_pk w)).
  destruct (tortoise.ModelView.create_body env fm data w) as [[inst0|e] w0] eqn:Hbody.
  2: { destruct (is_Exception e); discriminate. }
  injection H as -> ->.
  unfold tortoise.ModelView.create_body in Hbody.
  destruct (orm.split_relations fm data []) as [scalars rels].
  apply bind_Ok in Hbody as ([] & w1 & Hcreate & Hbody). apply ext_Ok in Hcreate as ->.
  apply bind_Ok in Hbody as (saved & w2 & Hpersist & Hloop).
  unfold orm.persist in Hpersist. cbn [orm.inst_pk orm.inst_attrs] in Hpersist.
  injection Hpersist as <- <-.
  destruct (appended_row (PInt (orm.next_pk w)) scalars (orm.rows w)) as (H1 & H2 & H3).
  apply (relations_in_store _ _ _ _ _ _ _
           (fun i i' item w0 w0' =>
              set_relation_in_store env fm (PInt (orm.next_pk w)) i i' item w0 w0'))
    in Hloop as [Hstore [Hlen Hothers]].
  - cbn [orm.rows orm.log] in Hlen, Hothers. split; [exact Hstore | split; congruence].
  - by split.
Qed.

Lemma first_generation_create_returns_stored_example :
  exists pk,
    in_store pk rex_created_first
      (tortoise.ModelView.create calm pet_fields_map rex_data rex_world).2
    /\ length (orm.rows (tortoise.ModelView.create calm pet_fields_map rex_data
                           rex_world).2)
       = S (length (orm.rows rex_world))
    /\ filter (others pk)
         (orm.rows (tortoise.ModelView.create calm pet_fields_map rex_data rex_world).2)
       = filter (others pk) (orm.rows rex_world).
Proof.
  apply (first_generation_create_returns_stored calm pet_fields_map rex_data
           rex_world _ rex_created_first).
  reflexivity.
Defined.

(** ** Lookups by key *)

(** What [find_by_pk] does, case by case. *)
Lemma find_by_pk_run (env : orm.oracle) (pk : pyval) (w : orm.world) :
  orm.find_by_pk env pk w
  = match orm.fails env (orm.CGet pk) w with
    | Some e =>
        if is_Exception e then (Ok None, orm.log (orm.CGet pk) w)
        else (Raise e, orm.log (orm.CGet pk) w)
    | None =>
        (Ok (option_map orm.instance_of_row
               (find (fun r => orm.same_key r.1 pk) (orm.rows w))),
         orm.log (orm.CGet pk) w)
    end.
Proof.
  unfold orm.find_by_pk, try_except, orm.model_get, bind, orm.ext.
  destruct (orm.fails env (orm.CGet pk) w) as [e|].
  - by destruct (is_Exception e).
  - cbn [orm.log orm.rows]. by destruct (find _ (orm.rows w)).
Qed.

(** ** Edition *)

Section EditFacts.
Variable env : orm.oracle.
Variable fm : orm.fields_map.
Variable fields : orm.RequestAction -> list orm.ui_field.

Lemma setattr_frame (obj obj' : orm.instance) (attr : string) (value : pyval)
    (w w' : orm.world) :
  orm.setattr env obj attr value w = (Ok obj', w') ->
  orm.rows w' = orm.rows w
  /\ (forall key, key <> attr ->
                  dict_get (orm.inst_attrs obj') key = dict_get (orm.inst_attrs obj) key)
  /\ exists l, orm.calls w' = orm.calls w ++ l.
Proof.
  intros H. apply setattr_Ok in H as (Hrows & Hcalls & ->).
  cbn [orm.inst_attrs]. split; [exact Hrows |].
  split; [| by eexists]. intros key Hkey. rewrite dict_get_set.
  destruct (String.eqb_spec attr key); [by subst | reflexivity].
Qed.

(** One turn of the loop of [_populate_obj]: nothing but the attribute of
    the field is assigned. *)
Lemma populate_field_frame (data : dict) (obj obj' : orm.instance) (field : orm.ui_field)
    (w w' : orm.world) :
  tortoise_admin.ModelView.populate_field env data obj field w = (Ok obj', w') ->
  orm.rows w' = orm.rows w
  /\ (forall key, key <> orm.name field ->
                  dict_get (orm.inst_attrs obj') key = dict_get (orm.inst_attrs obj) key)
  /\ exists l, orm.calls w' = orm.calls w ++ l.
Proof.
  unfold tortoise_admin.ModelView.populate_field.
  destruct (orm.kind field) as [identity multiple|multiple|];
    try apply setattr_frame.
  intros H. apply bind_Ok in H as ([value deleted] & w1 & Hlift & H).
  unfold lift in Hlift. injection Hlift as _ <-.
  destruct (py_truthy deleted); [by apply setattr_frame in H |].
  destruct (_ || _); [by apply setattr_frame in H |].
  injection H as <- <-. repeat split. exists []. by rewrite app_nil_r.
Qed.

(** A field that is no file field is assigned what the data has for it,
    [None] when they have nothing. *)
Lemma populate_field_assigns (data : dict) (obj obj' : orm.instance)
    (field : orm.ui_field) (w w' : orm.world) :
  is_FileField field = false ->
  tortoise_admin.ModelView.populate_field env data obj field w = (Ok obj', w') ->
  dict_get (orm.inst_attrs obj') (orm.name field)
  = Some (dict_get_default data (orm.name field))
  /\ orm.calls w'
     = orm.calls w
       ++ [orm.CSetattr obj (orm.name field) (dict_get_default data (orm.name field))].
Proof.
  unfold tortoise_admin.ModelView.populate_field, is_FileField.
  fold (dict_get_default data (orm.name field)).
  destruct (orm.kind field) as [identity multiple|multiple|]; [| discriminate |];
    intros _ H; apply setattr_Ok in H as (_ & Hcalls & ->);
    cbn [orm.inst_attrs]; by rewrite dict_get_set, String.eqb_refl.
Qed.

(** The loop of [_populate_obj]. *)
Lemma populate_loop (data : dict) (l : list orm.ui_field) (obj obj' : orm.instance)
    (w w' : orm.world) :
  for_fold (tortoise_admin.ModelView.populate_field env data) l obj w = (Ok obj', w') ->
  orm.rows w' = orm.rows w
  /\ (forall key, ~ In key (form_names l) ->
                  dict_get (orm.inst_attrs obj') key = dict_get (orm.inst_attrs obj) key)
  /\ exists calls, orm.calls w' = orm.calls w ++ calls.
Proof.
  revert obj w. induction l as [|f l IH]; intros obj w.
  - intros [= <- <-]. repeat split. exists []. by rewrite app_nil_r.
  - cbn [for_fold]. intros H. apply bind_Ok in H as (obj1 & w1 & Hf & Hl).
    apply populate_field_frame in Hf as (Hrows & Hframe & l1 & Hcalls).
    apply IH in Hl as (Hrows' & Hframe' & l2 & Hcalls').
    split; [congruence |]. split.
    + intros key Hkey. cbn in Hkey.
      rewrite Hframe', Hframe; [reflexivity | intros -> | intros Hin]; tauto.
    + exists (l1 ++ l2). by rewrite Hcalls', Hcalls, app_assoc.
Qed.

(** With no name twice in the form, the loop leaves each field that is no
    file field with what the data has for it, and has made the call for
    it. *)
Lemma populate_loop_assigns (data : dict) (l : list orm.ui_field)
    (obj obj' : orm.instance) (w w' : orm.world) (f : orm.ui_field) :
  for_fold (tortoise_admin.ModelView.populate_field env data) l obj w = (Ok obj', w') ->
  In f l -> is_FileField f = false ->
  (List.NoDup (form_names l) ->
   dict_get (orm.inst_attrs obj') (orm.name f) = Some (dict_get_default data (orm.name f)))
  /\ exists calls o,
       orm.calls w' = orm.calls w ++ calls
       /\ In (orm.CSetattr o (orm.name f) (dict_get_default data (orm.name f))) calls.
Proof.
  revert obj w. induction l as [|g l IH]; intros obj w; [by intros _ [] |].
  cbn [for_fold]. intros H Hin Hfile. apply bind_Ok in H as (obj1 & w1 & Hg & Hl).
  destruct Hin as [-> | Hin].
  - apply (populate_field_assigns _ _ _ _ _ _ Hfile) in Hg as [Hattr Hcalls].
    apply populate_loop in Hl as (_ & Hframe & l2 & Hcalls'). split.
    + intros Hnodup. apply List.NoDup_cons_iff in Hnodup as [Hnotin _].
      by rewrite Hframe.
    + eexists _, obj. split; [by rewrite Hcalls', Hcalls, <- app_assoc |]. by left.
  - apply populate_field_frame in Hg as (_ & _ & l1 & Hcalls).
    destruct (IH _ _ Hl Hin Hfile) as [Hattr (l2 & o & Hcalls' & Ho)]. split.
    + intros Hnodup. apply List.NoDup_cons_iff in Hnodup as [_ Hnodup]. by apply Hattr.
    + exists (l1 ++ l2), o. split; [by rewrite Hcalls', Hcalls, app_assoc |].
      apply in_or_app. by right.
Qed.

(** The relational fields of the model are taken out of the data. *)
Lemma split_relations_removes (data relations : dict) (key : string)
    (field : orm.field_class) :
  orm.fields_map_get fm key = Some field -> orm.is_RelationalField field = true ->
  dict_get (orm.split_relations fm data relations).1 key = None.
Proof.
  revert data relations. induction fm as [|[k f] fm' IH]; [discriminate |].
  intros data relations. cbn [orm.fields_map_get orm.split_relations].
  destruct (String.eqb_spec k key) as [-> | Hne].
  - intros [= ->] Hrel. rewrite Hrel.
    destruct (dict_get data key) as [v|] eqn:Hv.
    + assert (Hgone : forall fm0 d r, dict_get d key = None ->
                        dict_get (orm.split_relations fm0 d r).1 key = None).
      { clear. induction fm0 as [|[k f] fm0 IH]; intros d r Hd; [exact Hd |].
        cbn [orm.split_relations]. destruct (dict_get d k) as [v|]; [| by apply IH].
        destruct (orm.is_RelationalField f); apply IH; [| exact Hd].
        rewrite dict_get_remove. by destruct (String.eqb k key). }
      apply Hgone. by rewrite dict_get_remove, String.eqb_refl.
    + assert (Hgone : forall fm0 d r, dict_get d key = None ->
                        dict_get (orm.split_relations fm0 d r).1 key = None).
      { clear. induction fm0 as [|[k f] fm0 IH]; intros d r Hd; [exact Hd |].
        cbn [orm.split_relations]. destruct (dict_get d k) as [v|]; [| by apply IH].
        destruct (orm.is_RelationalField f); apply IH; [| exact Hd].
        rewrite dict_get_remove. by destruct (String.eqb k key). }
      by apply Hgone.
  - intros Hget Hrel. destruct (dict_get data k) as [v|]; [| by apply IH].
    destruct (orm.is_RelationalField f); by apply IH.
Qed.

End EditFacts.

(** X25.  When the form is arranged and validated and the lookup of the key
    finds nothing, because the store has no row under the key or because the
    query raised an instance of [Exception], an edition of the second
    generation raises the validation error "Record not found", and the store
    is as it was. *)
Theorem edit_record_not_found (env : orm.oracle) (fm : orm.fields_map)
    (fields : orm.RequestAction -> list orm.ui_field) (action : orm.RequestAction)
    (pk : pyval) (data arranged : dict) (w w1 w2 : orm.world) :
  tortoise_admin.ModelView._arrange_data env fields action data true w
  = (Ok arranged, w1) ->
  tortoise_admin.ModelView.validate env arranged w1 = (Ok tt, w2) ->
  lookup_misses env pk w2 ->
  tortoise_admin.ModelView.edit env fm fields action pk data w
  = (Raise record_not_found, orm.log (orm.CGet pk) w2)
  /\ store_kept w (orm.log (orm.CGet pk) w2).
Proof.
  intros Harr Hval Hmiss. split.
  - unfold tortoise_admin.ModelView.edit, try_except,
      tortoise_admin.ModelView.edit_body.
    unfold bind at 1. unfold tortoise_admin.ModelView.edit_persist.
    unfold bind at 1. rewrite Harr. unfold bind at 1. rewrite Hval.
    unfold bind at 1. rewrite find_by_pk_run. unfold lookup_misses in Hmiss.
    destruct (orm.fails env (orm.CGet pk) w2) as [e|].
    + by rewrite Hmiss.
    + by rewrite Hmiss.
  - destruct (arrange_data_quiet env fields action data true _ _ _ Harr) as [[Ha _] _].
    destruct (validate_quiet env arranged _ _ _ Hval) as [[Hv _] _].
    destruct Ha as (Ha1 & Ha2 & Ha3), Hv as (Hv1 & Hv2 & Hv3).
    unfold store_kept. cbn [orm.log orm.rows orm.links orm.next_pk].
    repeat split; congruence.
Qed.

Lemma edit_record_not_found_example :
  tortoise_admin.ModelView.edit lookups_down pet_fields_map pet_form orm.EDIT (PInt 1)
    pet_data rex_world
  = (Raise record_not_found,
     orm.log (orm.CGet (PInt 1))
       (tortoise_admin.ModelView.validate lookups_down pet_data rex_world).2)
  /\ store_kept rex_world
       (orm.log (orm.CGet (PInt 1))
          (tortoise_admin.ModelView.validate lookups_down pet_data rex_world).2).
Proof.
  apply (edit_record_not_found lookups_down pet_fields_map pet_form orm.EDIT (PInt 1)
           pet_data pet_data rex_world rex_world
           (tortoise_admin.ModelView.validate lookups_down pet_data rex_world).2);
    reflexivity.
Defined.

(** X26.  [_populate_obj] does not change the store and leaves every
    attribute that is no field of the form as it was; with no name twice in
    the form, each field that is no file field ends up with what the data has
    for it, [None] when they have nothing. *)
Theorem populate_obj_frame (env : orm.oracle)
    (fields : orm.RequestAction -> list orm.ui_field) (action : orm.RequestAction)
    (obj obj' : orm.instance) (data : dict) (is_edit : bool) (w w' : orm.world) :
  tortoise_admin.ModelView._populate_obj env fields action obj data is_edit w
  = (Ok obj', w') ->
  orm.rows w' = orm.rows w
  /\ (forall key, ~ In key (form_names (fields action)) ->
                  dict_get (orm.inst_attrs obj') key = dict_get (orm.inst_attrs obj) key)
  /\ (List.NoDup (form_names (fields action)) ->
      forall f, In f (fields action) -> is_FileField f = false ->
                dict_get (orm.inst_attrs obj') (orm.name f)
                = Some (dict_get_default data (orm.name f))).
Proof.
  unfold tortoise_admin.ModelView._populate_obj. intros H.
  destruct (populate_loop env _ _ _ _ _ _ H) as (Hrows & Hframe & _).
  split; [exact Hrows |]. split; [exact Hframe |].
  intros Hnodup f Hf Hfile.
  by destruct (populate_loop_assigns env _ _ _ _ _ _ f H Hf Hfile) as [Hattr _];
    apply Hattr.
Qed.

Lemma populate_obj_frame_example :
  orm.rows (tortoise_admin.ModelView._populate_obj calm pet_form orm.EDIT saved_pet
              [("name", PStr "Max")] true rex_world).2
  = orm.rows rex_world
  /\ (forall key, ~ In key (form_names (pet_form orm.EDIT)) ->
                  dict_get (orm.inst_attrs rex_populated) key
                  = dict_get (orm.inst_attrs saved_pet) key)
  /\ (List.NoDup (form_names (pet_form orm.EDIT)) ->
      forall f, In f (pet_form orm.EDIT) -> is_FileField f = false ->
                dict_get (orm.inst_attrs rex_populated) (orm.name f)
                = Some (dict_get_default [("name", PStr "Max")] (orm.name f))).
Proof.
  apply (populate_obj_frame calm pet_form orm.EDIT saved_pet rex_populated
           [("name", PStr "Max")] true rex_world
           (tortoise_admin.ModelView._populate_obj calm pet_form orm.EDIT saved_pet
              [("name", PStr "Max")] true rex_world).2).
  reflexivity.
Defined.

(** ** The arranged data *)

Lemma dict_contains_set (d : dict) (k g : string) (v : pyval) :
  dict_contains (dict_set d k v) g = String.eqb k g || dict_contains d g.
Proof. unfold dict_contains. rewrite dict_get_set. by destruct (String.eqb k g). Qed.

Section ArrangeFacts.
Variable env : orm.oracle.

(** One turn of the loop of [_arrange_data]: the data have the field, and
    the arranged data get it. *)
Lemma arrange_field_Ok (data acc acc' : dict) (field : orm.ui_field) (w w' : orm.world) :
  tortoise_admin.ModelView.arrange_field env data acc field w = (Ok acc', w') ->
  exists value,
    acc' = dict_set acc (orm.name field) value
    /\ dict_contains data (orm.name field) = true
    /\ (is_RelationField field = false -> dict_get data (orm.name field) = Some value).
Proof.
  unfold tortoise_admin.ModelView.arrange_field, is_RelationField, dict_contains.
  intros H. apply bind_Ok in H as (value & w1 & Hlift & H).
  unfold lift, dict_subscript in Hlift.
  destruct (dict_get data (orm.name field)) as [v|]; [| discriminate].
  injection Hlift as -> ->.
  destruct (orm.kind field) as [identity multiple|multiple|].
  - destruct (negb (tortoise_admin.ModelView.is_None value)).
    + apply bind_Ok in H as ([] & w2 & _ & H).
      apply bind_Ok in H as (found & w3 & _ & H). injection H as <- <-.
      exists found. by repeat split.
    + injection H as <- <-. exists value. by repeat split.
  - injection H as <- <-. exists value. by repeat split.
  - injection H as <- <-. exists value. by repeat split.
Qed.

(** The turns of the loop leave the keys that are not theirs. *)
Lemma arrange_loop_frame (data : dict) (key : string) (l : list orm.ui_field)
    (acc arranged : dict) (w w' : orm.world) :
  for_fold (tortoise_admin.ModelView.arrange_field env data) l acc w = (Ok arranged, w') ->
  ~ In key (form_names l) ->
  dict_get arranged key = dict_get acc key.
Proof.
  revert acc w. induction l as [|g l IH]; intros acc w.
  - by intros [= <- <-].
  - cbn [for_fold]. intros H Hnot.
    apply bind_Ok in H as (acc1 & w1 & Hg & Hl).
    apply arrange_field_Ok in Hg as (v & -> & _ & _).
    rewrite (IH _ _ Hl) by (intros Hin; apply Hnot; by right).
    rewrite dict_get_set.
    destruct (String.eqb_spec (orm.name g) key) as [E | _]; [| reflexivity].
    destruct Hnot. by left.
Qed.

Lemma arrange_loop (data : dict) (l : list orm.ui_field) (acc arranged : dict)
    (w w' : orm.world) :
  for_fold (tortoise_admin.ModelView.arrange_field env data) l acc w = (Ok arranged, w') ->
  (forall key, dict_contains arranged key = true
               <-> In key (form_names l) \/ dict_contains acc key = true)
  /\ (forall key, In key (form_names l) -> dict_contains data key = true)
  /\ (List.NoDup (form_names l) ->
      forall f, In f l -> is_RelationField f = false ->
                dict_get arranged (orm.name f) = dict_get data (orm.name f)).
Proof.
  revert acc w. induction l as [|g l IH]; intros acc w.
  - intros [= <- <-]. split; [| split]; [| by intros ? [] | by intros _ ? []].
    intros key. cbn. tauto.
  - cbn [for_fold]. intros H. apply bind_Ok in H as (acc1 & w1 & Hg & Hl).
    apply arrange_field_Ok in Hg as (value & -> & Hdata & Hplain).
    pose proof (fun key => arrange_loop_frame data key _ _ _ _ _ Hl) as Hframe.
    apply IH in Hl as (Hkeys & Hin & Hvalues). split; [| split].
    + intros key. rewrite Hkeys, dict_contains_set. cbn [form_names map In].
      rewrite orb_true_iff, String.eqb_eq. fold (form_names l). tauto.
    + intros key [<- | Hkey]; [exact Hdata | by apply Hin].
    + intros Hnodup f Hf Hrel. cbn [form_names map] in Hnodup.
      apply List.NoDup_cons_iff in Hnodup as [Hnotin Hnodup].
      destruct Hf as [-> | Hf]; [| by apply Hvalues].
      rewrite (Hplain Hrel), (Hframe _ Hnotin), dict_get_set.
      by rewrite String.eqb_refl.
Qed.

End ArrangeFacts.

(** X27.  The data [_arrange_data] returns have the fields of the form for
    keys and no other: what the input holds beside them is dropped; the input
    holds every field of the form; and with no name twice in the form, a
    field that is no relation field keeps the value of the input. *)
Theorem arrange_data_keys (env : orm.oracle)
    (fields : orm.RequestAction -> list orm.ui_field) (action : orm.RequestAction)
    (data arranged : dict) (is_edit : bool) (w w' : orm.world) :
  tortoise_admin.ModelView._arrange_data env fields action data is_edit w
  = (Ok arranged, w') ->
  (forall key, dict_contains arranged key = true <-> In key (form_names (fields action)))
  /\ (forall key, In key (form_names (fields action)) -> dict_contains data key = true)
  /\ (List.NoDup (form_names (fields action)) ->
      forall f, In f (fields action) -> is_RelationField f = false ->
                dict_get arranged (orm.name f) = dict_get data (orm.name f)).
Proof.
  unfold tortoise_admin.ModelView._arrange_data. intros H.
  apply arrange_loop in H as (Hkeys & Hin & Hvalues).
  split; [| by split]. intros key. rewrite Hkeys. cbn. intuition discriminate.
Qed.

Lemma arrange_data_keys_example :
  (forall key, dict_contains [("name", PStr "Rex"); ("owner", PNone)] key = true
               <-> In key (form_names (pet_form orm.CREATE)))
  /\ (forall key, In key (form_names (pet_form orm.CREATE)) ->
                  dict_contains [("is_admin", PBool true); ("owner", PNone);
                                 ("name", PStr "Rex")] key = true)
  /\ (List.NoDup (form_names (pet_form orm.CREATE)) ->
      forall f, In f (pet_form orm.CREATE) -> is_RelationField f = false ->
                dict_get [("name", PStr "Rex"); ("owner", PNone)] (orm.name f)
                = dict_get [("is_admin", PBool true); ("owner", PNone);
                            ("name", PStr "Rex")] (orm.name f)).
Proof.
  apply (arrange_data_keys calm pet_form orm.CREATE
           [("is_admin", PBool true); ("owner", PNone); ("name", PStr "Rex")]
           [("name", PStr "Rex"); ("owner", PNone)] false empty_world empty_world).
  reflexivity.
Defined.

(** X28.  An edition of the second generation that goes through has assigned
    [None] to every field of the form that is no file field and is a relation
    of the model: the relations are taken out of the data before the object is
    populated, and the object is populated with [None] for what the data do
    not have. *)
Theorem edit_blanks_relations (env : orm.oracle) (fm : orm.fields_map)
    (fields : orm.RequestAction -> list orm.ui_field) (action : orm.RequestAction)
    (pk : pyval) (data : dict) (w w' : orm.world) (inst : orm.instance)
    (f : orm.ui_field) (field : orm.field_class) :
  tortoise_admin.ModelView.edit env fm fields action pk data w = (Ok inst, w') ->
  In f (fields action) -> is_FileField f = false ->
  orm.fields_map_get fm (orm.name f) = Some field ->
  orm.is_RelationalField field = true ->
  exists calls obj,
    orm.calls w' = orm.calls w ++ calls
    /\ In (orm.CSetattr obj (orm.name f) PNone) calls.
Proof.
  unfold tortoise_admin.ModelView.edit. intros H Hf Hfile Hfield Hrel.
  apply try_handle_Ok in H. unfold tortoise_admin.ModelView.edit_body in H.
  apply bind_Ok in H as ([saved relations] & w1 & Hpersist & Hattach).
  pose proof (fun P HP => proj1 (edit_attach_calls env fm (fun _ => True) saved relations
                                   P HP _ _ _ Hattach)) as Hlater.
  destruct (Hlater (fun _ _ => I)) as (l3 & Hcalls3 & _).
  { intros attr value i values _ _. exact I. }
  clear Hlater Hattach.
  unfold tortoise_admin.ModelView.edit_persist in Hpersist.
  apply bind_Ok in Hpersist as (arranged & wa & Harr & Hpersist).
  apply bind_Ok in Hpersist as ([] & wv & Hval & Hpersist).
  destruct (arrange_data_quiet env fields action data true _ _ _ Harr)
    as [[_ (la & Hcallsa & _)] _].
  destruct (validate_quiet env arranged _ _ _ Hval) as [[_ (lv & Hcallsv & _)] _].
  apply bind_Ok in Hpersist as (found & wf & Hfind & Hpersist).
  destruct (find_by_pk_calls env (fun _ => True) (fun _ _ => I) pk _ _ _ Hfind)
    as [(lf & Hcallsf & _) _].
  destruct found as [instance|]; [| discriminate].
  pose proof (split_relations_removes fm arranged [] (orm.name f) field Hfield Hrel)
    as Hgone.
  destruct (orm.split_relations fm arranged []) as [scalars rels]. cbn [fst] in Hgone.
  apply bind_Ok in Hpersist as (obj & wp & Hpop & Hpersist).
  unfold tortoise_admin.ModelView._populate_obj in Hpop.
  destruct (populate_loop_assigns env _ _ _ _ _ _ f Hpop Hf Hfile)
    as [_ (lp & o & Hcallsp & Ho)].
  unfold dict_get_default in Ho. rewrite Hgone in Ho.
  apply bind_Ok in Hpersist as ([] & wb & Hbefore & Hpersist).
  apply ext_Ok in Hbefore as ->.
  apply bind_Ok in Hpersist as (saved' & ws & Hsave & Hret).
  injection Hret as -> -> ->.
  destruct (save_calls env (fun _ => True) (fun _ _ => I) _ _ _ _ Hsave)
    as [(ls & Hcallss & _) _].
  cbn [orm.log orm.calls] in Hcallss.
  exists (la ++ lv ++ lf ++ lp ++ [orm.CBeforeEdit scalars obj] ++ ls ++ l3), o.
  split.
  - rewrite Hcalls3, Hcallss, Hcallsp, Hcallsf, Hcallsv, Hcallsa.
    by rewrite <- !app_assoc.
  - do 3 (apply in_or_app; right). apply in_or_app. by left.
Qed.

Lemma edit_blanks_relations_example :
  exists calls obj,
    orm.calls (tortoise_admin.ModelView.edit calm pet_fields_map pet_form orm.EDIT
                 (PInt 1) rex_data rex_world).2
    = orm.calls rex_world ++ calls
    /\ In (orm.CSetattr obj "owner" PNone) calls.
Proof.
  apply (edit_blanks_relations calm pet_fields_map pet_form orm.EDIT (PInt 1) rex_data
           rex_world _ rex_edited
           {| orm.name := "owner"; orm.kind := orm.RelationField "user" false |}
           orm.ForeignKeyField).
  - reflexivity.
  - right. left. reflexivity.
  - reflexivity.
  - reflexivity.
  - reflexivity.
Defined.

(** ** The conversion of model fields *)

Lemma res_map_given (registered : gmap string converters.converter)
    (slugify_class_name : string -> string) (kind : converters.sequence_kind)
    (fm : converters.meta_fields) (given : list converters.base_field)
    (rest : list converters.field_spec) :
  res_map (converters.convert_field registered slugify_class_name kind fm)
    (map converters.Given given ++ rest)
  = res_bind (res_map (converters.convert_field registered slugify_class_name kind fm) rest)
             (fun converted => Ok (given ++ converted)).
Proof.
  induction given as [|field given IH].
  - cbn [map app]. by destruct (res_map _ rest).
  - cbn [map app res_map converters.convert_field res_bind]. rewrite IH.
    by destruct (res_map _ rest).
Qed.

Lemma fields_split (fields : list converters.field_spec) :
  (exists given, fields = map converters.Given given)
  \/ (exists given name rest,
        fields = map converters.Given given ++ converters.Named name :: rest).
Proof.
  induction fields as [|[field|name] fields IH].
  - left. by exists [].
  - destruct IH as [[given ->] | (given & name & rest & ->)].
    + left. by exists (field :: given).
    + right. by exists (field :: given), name, rest.
  - right. by exists [], name, fields.
Qed.

(** X29.  In [convert_fields_list] the keyword parameter [fields] hides the
    module of the ORM, so that [fields.RelationalField] is looked up on the
    sequence to convert and raises [AttributeError].  The conversion succeeds
    exactly on entries that are all fields already, which it returns as they
    are; otherwise the first name among the entries decides: [ValueError]
    when the model has no field of that name, [AttributeError] when it has,
    whatever the field and whatever converters are registered. *)
Theorem convert_fields_list_names_raise (registered : gmap string converters.converter)
    (slugify_class_name : string -> string) (kind : converters.sequence_kind)
    (fm : converters.meta_fields) :
  (forall given,
     converters.convert_fields_list registered slugify_class_name kind
       (map converters.Given given) fm
     = Ok given)
  /\ (forall given name rest,
        converters.convert_fields_list registered slugify_class_name kind
          (map converters.Given given ++ converters.Named name :: rest) fm
        = Raise (match converters.meta_fields_get fm name with
                 | None => ValueError ("Can't find field with name " +:+ name)
                 | Some _ => shadowed_fields_error kind
                 end))
  /\ (forall fields result,
        converters.convert_fields_list registered slugify_class_name kind fields fm
        = Ok result ->
        fields = map converters.Given result).
Proof.
  assert (Hgiven : forall given,
             converters.convert_fields_list registered slugify_class_name kind
               (map converters.Given given) fm
             = Ok given).
  { intros given. unfold converters.convert_fields_list.
    rewrite <- (app_nil_r (map converters.Given given)), res_map_given.
    cbn [res_map res_bind]. by rewrite app_nil_r. }
  assert (Hnamed : forall given name rest,
             converters.convert_fields_list registered slugify_class_name kind
               (map converters.Given given ++ converters.Named name :: rest) fm
             = Raise (match converters.meta_fields_get fm name with
                      | None => ValueError ("Can't find field with name " +:+ name)
                      | Some _ => shadowed_fields_error kind
                      end)).
  { intros given name rest. unfold converters.convert_fields_list.
    rewrite res_map_given. cbn [res_map converters.convert_field].
    destruct (converters.meta_fields_get fm name); [| reflexivity].
    by destruct kind. }
  split; [exact Hgiven |]. split; [exact Hnamed |].
  intros fields result H.
  destruct (fields_split fields) as [[given ->] | (given & name & rest & ->)].
  - rewrite Hgiven in H. by injection H as ->.
  - by rewrite Hnamed in H.
Qed.

Lemma first_hit_registered {C : Type} (converters : gmap string C) (keys : list string)
    (c : C) :
  first_hit converters keys = Some c -> exists k, converters !! k = Some c.
Proof.
  induction keys as [|k keys IH]; [discriminate |]. cbn [first_hit].
  destruct (converters !! k) as [c'|] eqn:Hk; [| exact IH].
  intros [= <-]. by exists k.
Qed.

Lemma decorated_common (k : string) (conv : converters.converter) (name : string)
    (field : converters.field_obj) :
  In (k, conv) converters.decorated ->
  exists ui, conv name field = Ok ui /\ common_attributes name field ui.
Proof.
  unfold converters.decorated. intros Hin.
  repeat (destruct Hin as [[= <- <-] | Hin];
          [eexists; split; [reflexivity |];
           unfold common_attributes; cbn [converters.bf_kwargs];
           try (destruct (converters.minimum field), (converters.maximum field));
           by repeat split |]).
  destruct Hin.
Qed.

(** X30.  What [ModelConverter] makes of a field of the model has the name
    it was asked under, the description of the field for help text, and is
    required exactly when the field is neither nullable nor generated; the
    only failure is [NotSupportedColumn], for a field none of whose classes
    is registered. *)
Theorem model_converter_common (name : string) (field : converters.field_obj) :
  match converters.convert converters.ModelConverter_converters name field with
  | Ok ui => common_attributes name field ui
  | Raise e => e = NotSupportedColumn (not_supported_message (converters.fo_type field))
  end.
Proof.
  unfold converters.convert, tortoise_admin.BaseTortoiseModelConverter.get_converter.
  rewrite find_converter_first_hit.
  destruct (first_hit _ _) as [conv|] eqn:Hhit; cbn [res_bind]; [| reflexivity].
  apply first_hit_registered in Hhit as [k Hk].
  unfold converters.ModelConverter_converters in Hk.
  apply elem_of_list_to_map_2 in Hk. apply list_elem_of_In in Hk.
  destruct (decorated_common k conv name field Hk) as (ui & -> & Hcommon).
  exact Hcommon.
Qed.
